(** * A shallow embedding of the translate / synthesize / upload / transcribe
      pipeline of [main.go], and the properties of its orchestration.

    The program reads [./input.txt], and for every line that is not blank it
    calls Amazon Translate, appends the translation to a buffered writer over
    [translated_text.txt], calls Amazon Polly, stages the audio in a local
    file, uploads that file to S3, removes it, and starts a transcription
    job.  Every remote service and every file-system call can fail; the
    outcomes are supplied by an environment ([Env]), so that every theorem
    below quantifies over all behaviours of the outside world. *)

From Stdlib Require Import ZArith Lia List Ascii String Bool.
From stdpp Require Import base option list strings gmap fin_maps.
Import ListNotations.

Local Open Scope Z_scope.

(** ** Go strings

    A Go [string] is a sequence of bytes; [String.string] of [ascii] is the
    same thing.  [+:+] is concatenation. *)

Module GoString.

Definition byte_val (c : ascii) : Z := Z.of_N (N_of_ascii c).

Definition len (s : string) : Z := Z.of_nat (String.length s).

(** [strings.HasPrefix] together with the cut: the rest of [s] after the
    prefix [p], when [s] starts with [p]. *)
Fixpoint stripPrefix (p s : string) : option string :=
  match p with
  | EmptyString => Some s
  | String a p' =>
      match s with
      | EmptyString => None
      | String b s' => if Ascii.eqb a b then stripPrefix p' s' else None
      end
  end.

End GoString.

(** ** [time.Time] and [Time.Format]

    An instant is the number of seconds since the Unix epoch, the
    nanoseconds within that second, and the offset (seconds east of UTC) of
    the location the instant is displayed in; [time.Now()] returns the local
    time.  The calendar fields are the proleptic Gregorian ones, which is
    what the [time] package computes. *)

Module GoTime.

Record Time := mkTime { unixSec : Z; nsec : Z; zoneOffset : Z }.

Definition secondsPerDay : Z := 86400.

(** Seconds on the local wall clock, as [Time.abs] does after adding the
    zone offset. *)
Definition localSec (t : Time) : Z := unixSec t + zoneOffset t.

Definition daysSinceEpoch (t : Time) : Z := localSec t / secondsPerDay.
Definition secOfDay (t : Time) : Z := localSec t mod secondsPerDay.

(** Gregorian calendar date of a day number counted from 1970-01-01, by
    400-year eras starting on 1 March. *)
Definition civil (days : Z) : Z * Z * Z :=
  let z := days + 719468 in
  let era := z / 146097 in
  let doe := z - era * 146097 in
  let yoe := (doe - doe / 1460 + doe / 36524 - doe / 146096) / 365 in
  let doy := doe - (365 * yoe + yoe / 4 - yoe / 100) in
  let mp := (5 * doy + 2) / 153 in
  let d := doy - (153 * mp + 2) / 5 + 1 in
  let m := if mp <? 10 then mp + 3 else mp - 9 in
  let y := yoe + era * 400 in
  (if m <=? 2 then y + 1 else y, m, d).

Definition Year (t : Time) : Z := fst (fst (civil (daysSinceEpoch t))).
Definition Month (t : Time) : Z := snd (fst (civil (daysSinceEpoch t))).
Definition Day (t : Time) : Z := snd (civil (daysSinceEpoch t)).
Definition Hour (t : Time) : Z := secOfDay t / 3600.
Definition Minute (t : Time) : Z := (secOfDay t mod 3600) / 60.
Definition Second (t : Time) : Z := secOfDay t mod 60.

(** *** [appendInt]: decimal text of an integer, zero-padded to a width *)

Definition digit (d : Z) : ascii := ascii_of_N (48 + Z.to_N d).

(** Digits of [u >= 0], most significant first, pushed in front of [acc].
    A Go [int] has at most 20 decimal digits, which bounds the loop. *)
Fixpoint utoa (fuel : nat) (u : Z) (acc : string) : string :=
  match fuel with
  | O => acc
  | S fuel' =>
      let acc' := String (digit (u mod 10)) acc in
      if u / 10 =? 0 then acc' else utoa fuel' (u / 10) acc'
  end.

Fixpoint padZero (n : nat) (s : string) : string :=
  match n with
  | O => s
  | S n' => String "0" (padZero n' s)
  end.

Definition appendInt (x : Z) (width : nat) : string :=
  let ds := utoa 20 (Z.abs x) "" in
  (if x <? 0 then "-" else "") +:+ padZero (width - String.length ds) ds.

(** *** Layout chunks

    The reference layout is [Mon Jan 2 15:04:05 MST 2006].  The chunks
    below are the numeric ones; the named, zone and fractional chunks of
    the [time] package do not occur in the layout this program uses and
    are not modelled: their characters would be copied as literal text. *)

Inductive stdChunk :=
| stdLongYear | stdYear
| stdZeroMonth | stdNumMonth
| stdZeroDay | stdDay
| stdHour | stdZeroHour12 | stdHour12
| stdZeroMinute | stdMinute
| stdZeroSecond | stdSecond.

(** The chunk the layout starts with and the layout after it, with the
    priorities of [nextStdChunk]: [2006] before [2], [15] before [1],
    [01]..[06] as two-character chunks. *)
Definition stdAtHead (layout : string) : option (stdChunk * string) :=
  let try (p : string) (c : stdChunk) (k : option (stdChunk * string)) :=
    match GoString.stripPrefix p layout with
    | Some rest => Some (c, rest)
    | None => k
    end in
  try "2006" stdLongYear (try "2" stdDay
  (try "15" stdHour (try "1" stdNumMonth
  (try "01" stdZeroMonth (try "02" stdZeroDay (try "03" stdZeroHour12
  (try "04" stdZeroMinute (try "05" stdZeroSecond (try "06" stdYear
  (try "3" stdHour12 (try "4" stdMinute (try "5" stdSecond None)))))))))))).

Definition formatChunk (t : Time) (c : stdChunk) : string :=
  match c with
  | stdLongYear => appendInt (Year t) 4
  | stdYear => appendInt (Z.abs (Year t) mod 100) 2
  | stdZeroMonth => appendInt (Month t) 2
  | stdNumMonth => appendInt (Month t) 0
  | stdZeroDay => appendInt (Day t) 2
  | stdDay => appendInt (Day t) 0
  | stdHour => appendInt (Hour t) 2
  | stdZeroHour12 => appendInt (if Hour t mod 12 =? 0 then 12 else Hour t mod 12) 2
  | stdHour12 => appendInt (if Hour t mod 12 =? 0 then 12 else Hour t mod 12) 0
  | stdZeroMinute => appendInt (Minute t) 2
  | stdMinute => appendInt (Minute t) 0
  | stdZeroSecond => appendInt (Second t) 2
  | stdSecond => appendInt (Second t) 0
  end.

Fixpoint formatLayout (fuel : nat) (t : Time) (layout : string) : string :=
  match fuel with
  | O => ""
  | S fuel' =>
      match stdAtHead layout with
      | Some (c, rest) => formatChunk t c +:+ formatLayout fuel' t rest
      | None =>
          match layout with
          | EmptyString => ""
          | String ch rest => String ch (formatLayout fuel' t rest)
          end
      end
  end.

(** [t.Format(layout)].  Every chunk consumes at least one character, so
    the length of the layout bounds the number of steps. *)
Definition Format (t : Time) (layout : string) : string :=
  formatLayout (S (String.length layout)) t layout.

(** What "YYYYMMDDHHMMSS" means for an instant: the six calendar fields in
    decimal, the year on four digits and the others on two. *)
Definition yyyymmddhhmmss (t : Time) : string :=
  appendInt (Year t) 4 +:+ appendInt (Month t) 2 +:+ appendInt (Day t) 2 +:+
  appendInt (Hour t) 2 +:+ appendInt (Minute t) 2 +:+ appendInt (Second t) 2.

(** Two instants fall within the same second when they differ at most in
    their nanoseconds. *)
Definition sameSecond (t1 t2 : Time) : Prop :=
  unixSec t1 = unixSec t2 /\ zoneOffset t1 = zoneOffset t2.

End GoTime.

(** ** [unicode/utf8], [unicode.IsSpace] and [strings.TrimSpace]

    The loop of [main] skips a line when [strings.TrimSpace(txt)] is empty.
    [TrimSpace] trims Unicode white space, so the model decodes UTF-8 the way
    the [utf8] package does: an ill-formed sequence decodes to [RuneError]
    with width 1. *)

Module GoUnicode.
Import GoString.

Definition RuneError : Z := 0xFFFD.
Definition RuneSelf : Z := 0x80.

Definition byteAt (s : string) (i : nat) : Z :=
  match String.get i s with
  | Some c => byte_val c
  | None => 0
  end.

Definition inRange (lo hi b : Z) : bool := (lo <=? b) && (b <=? hi).

(** The table [first] of the [utf8] package: for a leading byte, the width
    of the sequence and the range accepted for its second byte. *)
Definition first (b0 : Z) : option (nat * Z * Z) :=
  if inRange 0xC2 0xDF b0 then Some (2%nat, 0x80, 0xBF)
  else if b0 =? 0xE0 then Some (3%nat, 0xA0, 0xBF)
  else if inRange 0xE1 0xEC b0 then Some (3%nat, 0x80, 0xBF)
  else if b0 =? 0xED then Some (3%nat, 0x80, 0x9F)
  else if inRange 0xEE 0xEF b0 then Some (3%nat, 0x80, 0xBF)
  else if b0 =? 0xF0 then Some (4%nat, 0x90, 0xBF)
  else if inRange 0xF1 0xF3 b0 then Some (4%nat, 0x80, 0xBF)
  else if b0 =? 0xF4 then Some (4%nat, 0x80, 0x8F)
  else None.

Definition DecodeRuneInString (s : string) : Z * nat :=
  match s with
  | EmptyString => (RuneError, 0%nat)
  | String c0 s1 =>
      let b0 := byte_val c0 in
      if b0 <? RuneSelf then (b0, 1%nat)
      else
        match first b0, s1 with
        | None, _ | _, EmptyString => (RuneError, 1%nat)
        | Some (sz, lo, hi), String c1 s2 =>
            let b1 := byte_val c1 in
            if negb (inRange lo hi b1) then (RuneError, 1%nat)
            else if (sz <=? 2)%nat then
              (Z.lor (Z.shiftl (Z.land b0 0x1F) 6) (Z.land b1 0x3F), 2%nat)
            else
              match s2 with
              | EmptyString => (RuneError, 1%nat)
              | String c2 s3 =>
                  let b2 := byte_val c2 in
                  if negb (inRange 0x80 0xBF b2) then (RuneError, 1%nat)
                  else if (sz <=? 3)%nat then
                    (Z.lor (Z.shiftl (Z.land b0 0x0F) 12)
                       (Z.lor (Z.shiftl (Z.land b1 0x3F) 6) (Z.land b2 0x3F)),
                     3%nat)
                  else
                    match s3 with
                    | EmptyString => (RuneError, 1%nat)
                    | String c3 _ =>
                        let b3 := byte_val c3 in
                        if negb (inRange 0x80 0xBF b3) then (RuneError, 1%nat)
                        else
                          (Z.lor (Z.shiftl (Z.land b0 0x07) 18)
                             (Z.lor (Z.shiftl (Z.land b1 0x3F) 12)
                                (Z.lor (Z.shiftl (Z.land b2 0x3F) 6)
                                   (Z.land b3 0x3F))),
                           4%nat)
                    end
              end
        end
  end.

Definition RuneStart (b : Z) : bool := negb (Z.land b 0xC0 =? 0x80).

(** The backward scan of [DecodeLastRuneInString]:
    [for start--; start >= lim; start-- { if RuneStart(s[start]) { break } }]
    followed by [if start < 0 { start = 0 }].  [start1] is [start + 1]. *)
Fixpoint scanBack (s : string) (lim start1 : nat) : nat :=
  match start1 with
  | O => O
  | S start =>
      if (start <? lim)%nat then start
      else if RuneStart (byteAt s start) then start
      else scanBack s lim start
  end.

Definition DecodeLastRuneInString (s : string) : Z * nat :=
  let n := String.length s in
  match n with
  | O => (RuneError, 0%nat)
  | S last =>
      let r := byteAt s last in
      if r <? RuneSelf then (r, 1%nat)
      else
        let start := scanBack s (n - 4) last in
        let '(r, size) := DecodeRuneInString (substring start (n - start) s) in
        if (start + size =? n)%nat then (r, size) else (RuneError, 1%nat)
  end.

(** [unicode.IsSpace]: the Latin-1 cases, then the [White_Space] table. *)
Definition IsSpace (r : Z) : bool :=
  if r <=? 0xFF then
    (r =? 9) || (r =? 10) || (r =? 11) || (r =? 12) || (r =? 13) ||
    (r =? 32) || (r =? 0x85) || (r =? 0xA0)
  else
    (r =? 0x1680) || inRange 0x2000 0x200A r || inRange 0x2028 0x2029 r ||
    (r =? 0x202F) || (r =? 0x205F) || (r =? 0x3000).

(** [asciiSpace] of the [strings] package. *)
Definition asciiSpace (b : Z) : bool :=
  (b =? 9) || (b =? 10) || (b =? 11) || (b =? 12) || (b =? 13) || (b =? 32).

Definition dropBytes (n : nat) (s : string) : string :=
  substring n (String.length s - n) s.

(** [strings.TrimLeftFunc(s, f)]: each step consumes at least one byte. *)
Fixpoint trimLeftLoop (fuel : nat) (f : Z -> bool) (s : string) : string :=
  match fuel with
  | O => s
  | S fuel' =>
      match s with
      | EmptyString => ""
      | _ =>
          let '(r, size) := DecodeRuneInString s in
          if f r then trimLeftLoop fuel' f (dropBytes size s) else s
      end
  end.

Definition TrimLeftFunc (s : string) (f : Z -> bool) : string :=
  trimLeftLoop (String.length s) f s.

(** [strings.TrimRightFunc(s, f)]; [i] is the end of the part still to be
    examined.  The kept part ends after the last rune that [f] rejects,
    whose width is taken from a forward decoding at its start. *)
Fixpoint trimRightLoop (fuel : nat) (f : Z -> bool) (s : string) (i : nat) : string :=
  match fuel with
  | O => substring 0 i s
  | S fuel' =>
      match i with
      | O => ""
      | _ =>
          let '(r, size) := DecodeLastRuneInString (substring 0 i s) in
          let i' := (i - size)%nat in
          if f r then trimRightLoop fuel' f s i'
          else if RuneSelf <=? byteAt s i'
               then substring 0 (i' + snd (DecodeRuneInString (dropBytes i' s))) s
               else substring 0 (S i') s
      end
  end.

Definition TrimRightFunc (s : string) (f : Z -> bool) : string :=
  trimRightLoop (String.length s) f s (String.length s).

Definition TrimFunc (s : string) (f : Z -> bool) : string :=
  TrimRightFunc (TrimLeftFunc s f) f.

(** The second loop of [TrimSpace], over [s[start:]]. *)
Fixpoint trimSpaceStop (s : string) (stop : nat) : string :=
  match stop with
  | O => ""
  | S i =>
      let c := byteAt s i in
      if RuneSelf <=? c then TrimRightFunc (substring 0 stop s) IsSpace
      else if asciiSpace c then trimSpaceStop s i
      else substring 0 stop s
  end.

(** [strings.TrimSpace]: the ASCII fast path from the left, falling back
    to [TrimFunc] at the first non-ASCII byte. *)
Fixpoint TrimSpace (s : string) : string :=
  match s with
  | EmptyString => ""
  | String c rest =>
      if RuneSelf <=? byte_val c then TrimFunc s IsSpace
      else if asciiSpace (byte_val c) then TrimSpace rest
      else trimSpaceStop s (String.length s)
  end.

End GoUnicode.

(** [strings.TrimSpace(txt) != ""], the guard of the loop of [main]. *)
Definition nonBlank (txt : string) : bool :=
  negb (String.eqb (GoUnicode.TrimSpace txt) "").

(** ** Go errors and results *)

Inductive error := mkError (msg : string).

Definition Error_ (e : error) : string := let 'mkError msg := e in msg.

(** A Go pair [(value, err)] in which exactly one side is meaningful. *)
Inductive result (A : Type) :=
| Ok (a : A)
| Failed (e : error).
Arguments Ok {A} a.
Arguments Failed {A} e.

(** The one-byte string that Go writes ["\n"]. *)
Definition nl : string := String (ascii_of_N 10) "".

(** ** [bufio.Scanner] with the default split function [ScanLines] *)

Module GoBufio.
Import GoString.

Definition MaxScanTokenSize : Z := 65536.
Definition ErrTooLong : error := mkError "bufio.Scanner: token too long".

Definition newline : ascii := ascii_of_N 10.
Definition cr : ascii := ascii_of_N 13.

(** The bytes before the first newline of [data], and what follows that
    newline ([None] when [data] has no newline): [bytes.IndexByte]. *)
Fixpoint cutLine (data : string) : string * option string :=
  match data with
  | EmptyString => ("", None)
  | String c rest =>
      if Ascii.eqb c newline then ("", Some rest)
      else let '(l, r) := cutLine rest in (String c l, r)
  end.

Fixpoint dropCR (data : string) : string :=
  match data with
  | EmptyString => ""
  | String c EmptyString => if Ascii.eqb c cr then "" else data
  | String c rest => String c (dropCR rest)
  end.

(** All the tokens [Scan] delivers over the bytes [data] of the stream,
    and the scanner's own error.  A line is delivered without its
    newline and without one trailing carriage return; the last line need
    not be terminated; a line that does not fit the 64 KiB buffer together
    with its newline stops the scan with [ErrTooLong]. *)
Fixpoint scanLoop (fuel : nat) (data : string) : list string * option error :=
  match fuel with
  | O => ([], None)
  | S fuel' =>
      match data with
      | EmptyString => ([], None)
      | _ =>
          let '(line, rest) := cutLine data in
          if MaxScanTokenSize <=? len line then ([], Some ErrTooLong)
          else
            match rest with
            | Some r =>
                let '(ls, e) := scanLoop fuel' r in (dropCR line :: ls, e)
            | None => ([dropCR line], None)
            end
      end
  end.

Definition scanAll (data : string) : list string * option error :=
  scanLoop (String.length data) data.

(** *** [bufio.Writer] over a file

    [bufio.NewWriter] gives the writer a buffer of 4096 bytes. *)
Definition defaultBufSize : Z := 4096.

(** The loop of [Writer.WriteString], for a writer whose buffer holds [buf]
    and whose file has been handed [written] since the call began:
    [for len(s) > b.Available() { ... }], then the rest of [s] is copied
    into the buffer.  With an empty buffer the whole of [s] goes to the
    file ([os.File] has a [WriteString] of its own); otherwise the buffer is
    filled from [s] and flushed.  The result is what the file was handed
    during the call and the buffer after it.  The writes to the file
    succeed: the error a failed write leaves in the writer ([b.err]), which
    the program never looks at, is not modelled. *)
Fixpoint writeStringLoop (fuel : nat) (written buf s : string) : string * string :=
  match fuel with
  | O => (written, buf +:+ s)
  | S fuel' =>
      let available := defaultBufSize - len buf in
      if available <? len s then
        if len buf =? 0 then writeStringLoop fuel' (written +:+ s) "" ""
        else
          let n := Z.to_nat available in
          writeStringLoop fuel' (written +:+ buf +:+ substring 0 n s) ""
            (GoUnicode.dropBytes n s)
      else (written, buf +:+ s)
  end.

(** The loop is left after two rounds at most: the first one empties the
    buffer, the second one hands the rest to the file. *)
Definition writeString (buf s : string) : string * string :=
  writeStringLoop 3 "" buf s.

End GoBufio.

(** ** The outside world

    [input.txt] as the program can read it: the bytes that can be read, and
    the error, if any, that ends the reading before the end of the file. *)
Record InputFile := mkInputFile { content : string; readErr : option error }.

(** The outcome of every call that leaves the program.  The first argument
    of each field is the number of such calls made before it, so an
    environment can answer the same request differently each time.  A copy
    into a file that fails ([env_readFrom]) comes with the number of bytes
    copied before the error. *)
Record Env := mkEnv {
  env_open : nat -> string -> result InputFile;
  env_create : nat -> string -> option error;
  env_remove : nat -> string -> option error;
  env_now : nat -> GoTime.Time;
  env_translate : nat -> string -> result string;
  env_synthesize : nat -> string -> result string;
  env_readFrom : nat -> string -> option (error * nat);
  env_putObject : nat -> string -> string -> option error;
  env_startJob : nat -> string -> string -> option error
}.

(** What the program does to the outside, in the order it does it. *)
Inductive Event :=
| EvOpen (path : string) (r : option error)
| EvRead (path : string) (r : option error)
| EvCreate (name : string) (r : option error)
| EvClose (name : string)
| EvRemove (name : string) (r : option error)
| EvNow (t : GoTime.Time)
| EvWriteString (s : string)
| EvFlush (name : string) (bytes : string)
| EvTranslate (text source target : string) (r : result string)
| EvSynthesize (text format voice : string) (r : result string)
| EvReadFrom (name : string) (r : option error)
| EvSeek (name : string)
| EvPutObject (bucket key body : string) (r : option error)
| EvStartTranscriptionJob
    (jobName languageCode mediaFormat mediaFileUri outputBucket : string)
    (r : option error)
| EvPrintln (line : string).

(** The local disk (file name to content), the object store (bucket and key
    to body), the bytes in the buffer of the [bufio.Writer], which are not
    yet in its file, and the number of outside calls made so far. *)
Record World := mkWorld {
  calls : nat;
  disk : gmap string string;
  objects : gmap (string * string) string;
  pending : string
}.

Definition initialWorld : World := mkWorld 0 ∅ ∅ "".

Definition tick (w : World) : World :=
  mkWorld (S (calls w)) (disk w) (objects w) (pending w).
Definition setDisk (d : gmap string string) (w : World) : World :=
  mkWorld (calls w) d (objects w) (pending w).
Definition setObjects (o : gmap (string * string) string) (w : World) : World :=
  mkWorld (calls w) (disk w) o (pending w).
Definition setPending (p : string) (w : World) : World :=
  mkWorld (calls w) (disk w) (objects w) p.

(** ** The monad of the program: state over [World], with a log of events *)

Definition M (A : Type) : Type := World -> A * World * list Event.

Definition ret {A} (a : A) : M A := fun w => (a, w, []).

Definition bind {A B} (m : M A) (f : A -> M B) : M B :=
  fun w =>
    let '(a, w1, e1) := m w in
    let '(b, w2, e2) := f a w1 in
    (b, w2, e1 ++ e2).

Declare Scope go_scope.
Delimit Scope go_scope with go.
Notation "x <- m ;; k" := (bind m (fun x => k))
  (at level 100, m at next level, right associativity) : go_scope.
Notation "m ;;; k" := (bind m (fun _ => k))
  (at level 100, right associativity) : go_scope.

Definition valueOf {A} (r : A * World * list Event) : A := fst (fst r).
Definition worldOf {A} (r : A * World * list Event) : World := snd (fst r).
Definition eventsOf {A} (r : A * World * list Event) : list Event := snd r.

(** ** Artifact names (main.go, lines 134 and 176) *)

Definition timeLayout : string := "20060102150405".

(** [audioFileName := "audioFile-" + time.Now().Format("20060102150405") + "-output.mp3"] *)
Definition audioFileNameAt (now : GoTime.Time) : string :=
  "audioFile-" +:+ GoTime.Format now timeLayout +:+ "-output.mp3".

(** [transcriptionJobName := "transcription-job-" + time.Now().Format("20060102150405")] *)
Definition transcriptionJobNameAt (now : GoTime.Time) : string :=
  "transcription-job-" +:+ GoTime.Format now timeLayout.

(** 2024-01-02T03:04:05 in UTC. *)
Definition instant_20240102_030405 : GoTime.Time :=
  GoTime.mkTime 1704164645 0 0.

(** ** The program *)

Section Program.
Variable env : Env.

Local Open Scope go_scope.

(** *** Calls that leave the program *)

Definition Println (a b : string) : M unit :=
  fun w => (tt, w, [EvPrintln (a +:+ " " +:+ b)]).

Definition time_Now : M GoTime.Time :=
  fun w => let t := env_now env (calls w) in (t, tick w, [EvNow t]).

(** [os.Create]: the file exists and is empty afterwards. *)
Definition os_Create (name : string) : M (option error) :=
  fun w =>
    match env_create env (calls w) name with
    | Some e => (Some e, tick w, [EvCreate name (Some e)])
    | None =>
        (None, tick (setDisk (<[name := ""]> (disk w)) w), [EvCreate name None])
    end.

(** [os.Remove]: the name is gone from the disk when the call succeeds,
    and the disk is as before when it fails. *)
Definition os_Remove (name : string) : M (option error) :=
  fun w =>
    match env_remove env (calls w) name with
    | Some e => (Some e, tick w, [EvRemove name (Some e)])
    | None =>
        (None, tick (setDisk (delete name (disk w)) w), [EvRemove name None])
    end.

Definition file_Close (name : string) : M unit :=
  fun w => (tt, w, [EvClose name]).

Definition file_Seek (name : string) : M unit :=
  fun w => (tt, w, [EvSeek name]).

(** [audioFile.ReadFrom(stream)] on the file just created: the file holds
    the bytes of the stream when the copy succeeds, and the bytes copied
    before the error when it fails. *)
Definition file_ReadFrom (name stream : string) : M (option error) :=
  fun w =>
    match env_readFrom env (calls w) name with
    | Some en =>
        (Some (fst en),
         tick (setDisk (<[name := substring 0 (snd en) stream]> (disk w)) w),
         [EvReadFrom name (Some (fst en))])
    | None =>
        (None, tick (setDisk (<[name := stream]> (disk w)) w),
         [EvReadFrom name None])
    end.

(** [bufio.Writer.WriteString] on the writer over the file [name]: the
    bytes that no longer fit the buffer are written to the file during the
    call, the others stay in the buffer. *)
Definition writer_WriteString (name s : string) : M unit :=
  fun w =>
    (tt,
     setPending (snd (GoBufio.writeString (pending w) s))
       (setDisk (alter (fun c => c +:+ fst (GoBufio.writeString (pending w) s))
                   name (disk w)) w),
     [EvWriteString s]).

(** [bufio.Writer.Flush]: the bytes still in the buffer are written to the
    file, and the buffer is empty afterwards. *)
Definition writer_Flush (name : string) : M unit :=
  fun w =>
    (tt,
     setPending "" (setDisk (alter (fun c => c +:+ pending w) name (disk w)) w),
     [EvFlush name (pending w)]).

Definition translate_Text (text source target : string) : M (result string) :=
  fun w =>
    let r := env_translate env (calls w) text in
    (r, tick w, [EvTranslate text source target r]).

Definition polly_SynthesizeSpeech (text format voice : string) : M (result string) :=
  fun w =>
    let r := env_synthesize env (calls w) text in
    (r, tick w, [EvSynthesize text format voice r]).

(** [s3.PutObject] with the file [name] as body, read from its start. *)
Definition s3_PutObject (bucket key name : string) : M (option error) :=
  fun w =>
    let body := default "" (disk w !! name) in
    match env_putObject env (calls w) bucket key with
    | Some e => (Some e, tick w, [EvPutObject bucket key body (Some e)])
    | None =>
        (None, tick (setObjects (<[(bucket, key) := body]> (objects w)) w),
         [EvPutObject bucket key body None])
    end.

Definition transcribe_StartTranscriptionJob
    (jobName languageCode mediaFormat uri outputBucket : string) : M (option error) :=
  fun w =>
    let r := env_startJob env (calls w) jobName uri in
    (r, tick w,
     [EvStartTranscriptionJob jobName languageCode mediaFormat uri outputBucket r]).

(** *** [getInputText] (main.go, lines 85-101) *)

Definition getInputText (filePath : string) : M (result (list string)) :=
  fun w =>
    match env_open env (calls w) filePath with
    | Failed err => (Failed err, tick w, [EvOpen filePath (Some err)])
    | Ok inputFile =>
        let '(lines, scanErr) := GoBufio.scanAll (content inputFile) in
        let err := match scanErr with
                   | Some e => Some e
                   | None => readErr inputFile
                   end in
        (match err with
         | Some e => Failed e
         | None => Ok lines
         end,
         tick w,
         [EvOpen filePath None; EvRead filePath err; EvClose filePath])
    end.

(** *** [translateText] (lines 104-116) *)

Definition translateText (text : string) : M (result string) :=
  translateResult <- translate_Text text "ja" "en" ;;
  match translateResult with
  | Failed err => ret (Failed err)
  | Ok translatedText => ret (Ok translatedText)
  end.

(** *** [synthesizeSpeechAndUpload] (lines 119-168)

    [defer audioFile.Close()] is registered once the file is created and
    runs at every return after that. *)

Definition synthesizeSpeechAndUpload (text bucketName : string) : M (result string) :=
  speechOutput <- polly_SynthesizeSpeech text "mp3" "Joanna" ;;
  match speechOutput with
  | Failed err => ret (Failed err)
  | Ok audioStream =>
      now <- time_Now ;;
      let audioFileName := audioFileNameAt now in
      created <- os_Create audioFileName ;;
      match created with
      | Some err => ret (Failed err)
      | None =>
          r <- (copied <- file_ReadFrom audioFileName audioStream ;;
                match copied with
                | Some err => ret (Failed err)
                | None =>
                    file_Seek audioFileName ;;;
                    put <- s3_PutObject bucketName audioFileName audioFileName ;;
                    match put with
                    | Some err => ret (Failed err)
                    | None =>
                        Println "Uploaded audio file to S3:" audioFileName ;;;
                        removed <- os_Remove audioFileName ;;
                        match removed with
                        | Some err =>
                            Println "Error deleting local audio file:" (Error_ err) ;;;
                            ret (Failed err)
                        | None =>
                            Println "Deleted local audio file:" audioFileName ;;;
                            ret (Ok audioFileName)
                        end
                    end
                end) ;;
          file_Close audioFileName ;;;
          ret r
      end
  end.

(** *** [transcribeAudioFile] (lines 171-194) *)

Definition mediaFileUri (bucketName audioFileName : string) : string :=
  "s3://" +:+ bucketName +:+ "/" +:+ audioFileName.

Definition transcribeAudioFile (audioFileName bucketName : string) : M (option error) :=
  let audioFileURI := mediaFileUri bucketName audioFileName in
  now <- time_Now ;;
  let transcriptionJobName := transcriptionJobNameAt now in
  started <- transcribe_StartTranscriptionJob
               transcriptionJobName "en-US" "mp3" audioFileURI bucketName ;;
  match started with
  | Some err => ret (Some err)
  | None =>
      Println "Transcription job started:" transcriptionJobName ;;;
      ret None
  end.

(** *** [main] (lines 18-82) *)

Definition bucketName : string := "report.3q-aws-s24745201.com".
Definition inputFileName : string := "./input.txt".
Definition outputFileName : string := "translated_text.txt".

(** The body of the loop for a line that passed the [TrimSpace] guard.
    The value is [true] when the loop goes on to the next line and [false]
    when [main] returns. *)
Definition processLine (txt : string) : M bool :=
  translated <- translateText txt ;;
  match translated with
  | Failed err => Println "Error translating text:" (Error_ err) ;;; ret false
  | Ok translatedText =>
      Println "Translated text:" translatedText ;;;
      writer_WriteString outputFileName (translatedText +:+ nl) ;;;
      uploaded <- synthesizeSpeechAndUpload translatedText bucketName ;;
      match uploaded with
      | Failed err =>
          Println "Error synthesizing or uploading audio file:" (Error_ err) ;;;
          ret false
      | Ok audioFileName =>
          transcribed <- transcribeAudioFile audioFileName bucketName ;;
          match transcribed with
          | Some err =>
              Println "Error transcribing audio file:" (Error_ err) ;;; ret false
          | None => ret true
          end
      end
  end.

(** [for _, txt := range textLines { if strings.TrimSpace(txt) != "" {...} }] *)
Fixpoint mainLoop (textLines : list string) : M bool :=
  match textLines with
  | [] => ret true
  | txt :: rest =>
      if nonBlank txt then
        continue <- processLine txt ;;
        if continue then mainLoop rest else ret false
      else mainLoop rest
  end.

(** The function deferred at lines 42-51. *)
Definition mainDeferred : M unit :=
  file_Close outputFileName ;;;
  removed <- os_Remove outputFileName ;;
  match removed with
  | Some err => Println "Error deleting local text file:" (Error_ err)
  | None => Println "Deleted local text file:" outputFileName
  end.

Definition main : M unit :=
  read <- getInputText inputFileName ;;
  match read with
  | Failed err => Println "Error reading input file:" (Error_ err)
  | Ok textLines =>
      created <- os_Create outputFileName ;;
      match created with
      | Some err => Println "Error creating output file:" (Error_ err)
      | None =>
          (completed <- mainLoop textLines ;;
           if completed then writer_Flush outputFileName else ret tt) ;;;
          mainDeferred
      end
  end.

Definition run : unit * World * list Event := main initialWorld.

End Program.

(** ** Observations on a log of events *)

Inductive CallKind := Translate | Synthesize | Upload | Submit.

(** The remote services: translation, synthesis, object store and
    transcription. *)
Definition callKind (e : Event) : option CallKind :=
  match e with
  | EvTranslate _ _ _ _ => Some Translate
  | EvSynthesize _ _ _ _ => Some Synthesize
  | EvPutObject _ _ _ _ => Some Upload
  | EvStartTranscriptionJob _ _ _ _ _ _ => Some Submit
  | _ => None
  end.

Definition isRemoteCall (e : Event) : bool :=
  match callKind e with Some _ => true | None => false end.

(** A call that returned an error. *)
Definition isFailure (e : Event) : bool :=
  match e with
  | EvOpen _ (Some _) | EvRead _ (Some _) | EvCreate _ (Some _)
  | EvRemove _ (Some _) | EvReadFrom _ (Some _)
  | EvPutObject _ _ _ (Some _)
  | EvStartTranscriptionJob _ _ _ _ _ (Some _)
  | EvTranslate _ _ _ (Failed _) | EvSynthesize _ _ _ (Failed _) => true
  | _ => false
  end.

(** What still happens once [main] is returning: messages, the closing of
    files, and the removal of the output file by the deferred function. *)
Definition isCleanup (e : Event) : bool :=
  match e with
  | EvPrintln _ | EvClose _ => true
  | EvRemove name _ => String.eqb name outputFileName
  | _ => false
  end.

(** The calls to the translation service, each with its text and outcome. *)
Definition translations (evs : list Event) : list (string * result string) :=
  omap (fun e => match e with
                 | EvTranslate text _ _ r => Some (text, r)
                 | _ => None
                 end) evs.

(** The entries given to the result sink ([writer.WriteString]). *)
Definition sinkEntries (evs : list Event) : list string :=
  omap (fun e => match e with EvWriteString s => Some s | _ => None end) evs.

Definition callKinds (evs : list Event) : list CallKind := omap callKind evs.

Definition joinAll (ss : list string) : string :=
  fold_right String.append "" ss.

(** The four remote calls of one record, in order. *)
Definition fullRecord : list CallKind := [Translate; Synthesize; Upload; Submit].

(** ** The loop of [main] as a relation

    [loopRun env textLines w continue w' evs]: from the world [w] the loop
    over [textLines] ends in [w'] after the events [evs]; [continue] is
    [false] when the loop was left by a [return]. *)
Inductive loopRun (env : Env) :
    list string -> World -> bool -> World -> list Event -> Prop :=
| loop_done w : loopRun env [] w true w []
| loop_blank txt rest w b w' evs :
    nonBlank txt = false ->
    loopRun env rest w b w' evs ->
    loopRun env (txt :: rest) w b w' evs
| loop_return txt rest w w1 e1 :
    nonBlank txt = true ->
    processLine env txt w = (false, w1, e1) ->
    loopRun env (txt :: rest) w false w1 e1
| loop_next txt rest w w1 e1 b w2 e2 :
    nonBlank txt = true ->
    processLine env txt w = (true, w1, e1) ->
    loopRun env rest w1 b w2 e2 ->
    loopRun env (txt :: rest) w b w2 (e1 ++ e2).

(** Every call of every kind succeeds, whatever is asked and whenever. *)
Definition allSucceed (env : Env) : Prop :=
  (forall n name, env_create env n name = None) /\
  (forall n name, env_remove env n name = None) /\
  (forall n text, exists t, env_translate env n text = Ok t) /\
  (forall n text, exists a, env_synthesize env n text = Ok a) /\
  (forall n name, env_readFrom env n name = None) /\
  (forall n bucket key, env_putObject env n bucket key = None) /\
  (forall n job uri, env_startJob env n job uri = None).

(** For records given as pairs of a source text and its translation: the
    successful translation calls they stand for, and the entries the sink
    receives for them. *)
Definition okCalls (done : list (string * string)) : list (string * result string) :=
  (fun p => (p.1, Ok p.2)) <$> done.

Definition entriesOf (done : list (string * string)) : list string :=
  (fun p => p.2 +:+ nl) <$> done.

(** The content of a file whose lines are [lines], each ended by a newline. *)
Definition joinLines (lines : list string) : string :=
  joinAll ((fun l => l +:+ nl) <$> lines).

Fixpoint hasByte (c : ascii) (s : string) : bool :=
  match s with
  | EmptyString => false
  | String a rest => Ascii.eqb a c || hasByte c rest
  end.

Fixpoint endsWith (c : ascii) (s : string) : bool :=
  match s with
  | EmptyString => false
  | String a EmptyString => Ascii.eqb a c
  | String _ rest => endsWith c rest
  end.

(** A line of text as [ScanLines] understands it: no newline inside, no
    carriage return at its end (that one belongs to the line ending), and
    short enough for the scanner's buffer. *)
Definition isLine (l : string) : bool :=
  negb (hasByte GoBufio.newline l) && negb (endsWith GoBufio.cr l) &&
  (GoString.len l <? GoBufio.MaxScanTokenSize).

(** The reading of claim C2 as it is worded: whenever the removal of a
    staging file fails after its upload succeeded, a transcription job for
    the uploaded object is still started afterwards. *)
Definition cleanupFailureOnlyReported (env : Env) : Prop :=
  forall pre key body err post,
    eventsOf (run env) = pre ++ EvRemove key (Some err) :: post ->
    In (EvPutObject bucketName key body None) pre ->
    exists job lang format out r,
      In (EvStartTranscriptionJob job lang format (mediaFileUri bucketName key) out r)
         post.

(** ** Sample environments *)

(** A clock that advances by one second at every outside call. *)
Definition clockFrom (start : Z) (n : nat) : GoTime.Time :=
  GoTime.mkTime (start + Z.of_nat n) 0 0.

Definition threeLines : string :=
  "konnichiwa" +:+ nl +:+ "  " +:+ nl +:+ "arigatou" +:+ nl.

Definition someError : error := mkError "RequestError: send request failed".

(** Everything works; the second line of the input is blank. *)
Definition envAllOk : Env :=
  mkEnv (fun _ _ => Ok (mkInputFile threeLines None))
        (fun _ _ => None) (fun _ _ => None) (clockFrom 1704164645)
        (fun _ text => Ok ("en:" +:+ text)) (fun _ text => Ok ("mp3:" +:+ text))
        (fun _ _ => None) (fun _ _ _ => None) (fun _ _ _ => None).

(** Three records; the translation of the second one fails. *)
Definition envSecondTranslationFails : Env :=
  mkEnv (fun _ _ => Ok (mkInputFile ("one" +:+ nl +:+ "two" +:+ nl +:+ "three" +:+ nl) None))
        (fun _ _ => None) (fun _ _ => None) (clockFrom 1704164645)
        (fun _ text => if String.eqb text "two" then Failed someError
                       else Ok ("en:" +:+ text))
        (fun _ text => Ok ("mp3:" +:+ text))
        (fun _ _ => None) (fun _ _ _ => None) (fun _ _ _ => None).

(** The object store refuses every upload. *)
Definition envUploadFails : Env :=
  mkEnv (fun _ _ => Ok (mkInputFile threeLines None))
        (fun _ _ => None) (fun _ _ => None) (clockFrom 1704164645)
        (fun _ text => Ok ("en:" +:+ text)) (fun _ text => Ok ("mp3:" +:+ text))
        (fun _ _ => None) (fun _ _ _ => Some someError) (fun _ _ _ => None).

(** Uploads work, but a staging file cannot be removed. *)
Definition envRemoveFails : Env :=
  mkEnv (fun _ _ => Ok (mkInputFile threeLines None))
        (fun _ _ => None)
        (fun _ name => if String.eqb name outputFileName then None
                       else Some (mkError "remove: permission denied"))
        (clockFrom 1704164645)
        (fun _ text => Ok ("en:" +:+ text)) (fun _ text => Ok ("mp3:" +:+ text))
        (fun _ _ => None) (fun _ _ _ => None) (fun _ _ _ => None).

(** The last line of [input.txt] has no newline after it. *)
Definition envNoFinalNewline : Env :=
  mkEnv (fun _ _ => Ok (mkInputFile ("konnichiwa" +:+ nl +:+ nl +:+ "arigatou") None))
        (fun _ _ => None) (fun _ _ => None) (clockFrom 1704164645)
        (fun _ text => Ok ("en:" +:+ text)) (fun _ text => Ok ("mp3:" +:+ text))
        (fun _ _ => None) (fun _ _ _ => None) (fun _ _ _ => None).

(** [input.txt] does not exist. *)
Definition envNoInput : Env :=
  mkEnv (fun _ _ => Failed (mkError "open ./input.txt: no such file or directory"))
        (fun _ _ => None) (fun _ _ => None) (clockFrom 1704164645)
        (fun _ text => Ok ("en:" +:+ text)) (fun _ text => Ok ("mp3:" +:+ text))
        (fun _ _ => None) (fun _ _ _ => None) (fun _ _ _ => None).

(** [input.txt] opens, and reading it fails after the first line. *)
Definition envReadError : Env :=
  mkEnv (fun _ _ => Ok (mkInputFile ("konnichiwa" +:+ nl)
                          (Some (mkError "read ./input.txt: input/output error"))))
        (fun _ _ => None) (fun _ _ => None) (clockFrom 1704164645)
        (fun _ text => Ok ("en:" +:+ text)) (fun _ text => Ok ("mp3:" +:+ text))
        (fun _ _ => None) (fun _ _ _ => None) (fun _ _ _ => None).

(** ** The end of [main]

    What [main] does once the loop is over: the [Flush] of line 81 when the
    loop ran to its end, then the deferred function in every case. *)
Definition afterLoop (env : Env) (completed : bool) : M unit :=
  bind (if completed then writer_Flush outputFileName else ret tt)
       (fun _ => mainDeferred env).

(** The world in which the loop starts: [input.txt] has been read and the
    output file created. *)
Definition startWorld : World :=
  tick (setDisk (<[outputFileName := ""]> (disk (tick initialWorld)))
          (tick initialWorld)).

(** The events of a successful [getInputText] in [main]. *)
Definition inputEvents : list Event :=
  [EvOpen inputFileName None; EvRead inputFileName None; EvClose inputFileName].

(** The events [main] issues outside its loop. *)
Definition isOutsideLoop (e : Event) : bool :=
  match e with
  | EvOpen _ _ | EvRead _ _ | EvFlush _ _ | EvPrintln _ | EvClose _ => true
  | EvCreate name _ | EvRemove name _ => String.eqb name outputFileName
  | _ => false
  end.

(** An event that is neither a [Flush] nor the removal of the output
    file. *)
Definition keepsOutputFile (e : Event) : Prop :=
  match e with
  | EvFlush _ _ => False
  | EvRemove name _ => name <> outputFileName
  | _ => True
  end.

(** ** Further observations and samples *)

Definition countIf (p : Event -> bool) (evs : list Event) : nat :=
  length (List.filter p evs).

(** A file handle obtained ([os.Open], [os.Create]) and a handle closed. *)
Definition isOpened (e : Event) : bool :=
  match e with
  | EvOpen _ None | EvCreate _ None => true
  | _ => false
  end.

Definition isClosed (e : Event) : bool :=
  match e with
  | EvClose _ => true
  | _ => false
  end.

(** No key of the object store of [w] is missing from that of [w']. *)
Definition storeGrows (w w' : World) : Prop :=
  forall k, is_Some (objects w !! k) -> is_Some (objects w' !! k).

Fixpoint allBytes (p : Z -> bool) (s : string) : bool :=
  match s with
  | EmptyString => true
  | String c rest => p (GoString.byte_val c) && allBytes p rest
  end.

Definition isASCII (s : string) : bool :=
  allBytes (fun b => b <? GoUnicode.RuneSelf) s.

(** The content of a file whose lines end with carriage return and
    newline. *)
Definition joinCRLF (lines : list string) : string :=
  joinAll ((fun l => l +:+ String GoBufio.cr nl) <$> lines).

Fixpoint repeatByte (n : nat) (c : ascii) : string :=
  match n with
  | O => ""
  | S n' => String c (repeatByte n' c)
  end.

(** The day number of a calendar date, counted from 1970-01-01: the
    inverse of [GoTime.civil]. *)
Definition daysFromCivil (y m d : Z) : Z :=
  let y' := if m <=? 2 then y - 1 else y in
  let era := y' / 400 in
  let yoe := y' - era * 400 in
  let mp := if m <=? 2 then m + 9 else m - 3 in
  let doy := (153 * mp + 2) / 5 + d - 1 in
  let doe := yoe * 365 + yoe / 4 - yoe / 100 + doy in
  era * 146097 + doe - 719468.

(** Everything works, and the clock does not reach the next second during
    the run. *)
Definition envFrozenClock : Env :=
  mkEnv (fun _ _ => Ok (mkInputFile threeLines None))
        (fun _ _ => None) (fun _ _ => None)
        (fun n => GoTime.mkTime 1704164645 (Z.of_nat n) 0)
        (fun _ text => Ok ("en:" +:+ text)) (fun _ text => Ok ("mp3:" +:+ text))
        (fun _ _ => None) (fun _ _ _ => None) (fun _ _ _ => None).

(** The speech service fails. *)
Definition envSynthesisFails : Env :=
  mkEnv (fun _ _ => Ok (mkInputFile threeLines None))
        (fun _ _ => None) (fun _ _ => None) (clockFrom 1704164645)
        (fun _ text => Ok ("en:" +:+ text)) (fun _ _ => Failed someError)
        (fun _ _ => None) (fun _ _ _ => None) (fun _ _ _ => None).

(** [input.txt] has two lines ended by carriage return and newline. *)
Definition envCRLF : Env :=
  mkEnv (fun _ _ => Ok (mkInputFile (joinCRLF ["konnichiwa"; "arigatou"]) None))
        (fun _ _ => None) (fun _ _ => None) (clockFrom 1704164645)
        (fun _ text => Ok ("en:" +:+ text)) (fun _ text => Ok ("mp3:" +:+ text))
        (fun _ _ => None) (fun _ _ _ => None) (fun _ _ _ => None).

(** The second line of [input.txt] is 64 KiB long. *)
Definition longLine : string := repeatByte (N.to_nat 65536) "a".

Definition envLongLine : Env :=
  mkEnv (fun _ _ => Ok (mkInputFile
                          (joinLines ["konnichiwa"] +:+ longLine +:+
                           String GoBufio.newline "arigatou") None))
        (fun _ _ => None) (fun _ _ => None) (clockFrom 1704164645)
        (fun _ text => Ok ("en:" +:+ text)) (fun _ text => Ok ("mp3:" +:+ text))
        (fun _ _ => None) (fun _ _ _ => None) (fun _ _ _ => None).

(** [input.txt] holds blank lines only; no service is reachable. *)
Definition envBlankOnly : Env :=
  mkEnv (fun _ _ => Ok (mkInputFile (joinLines [""; "   "; ""]) None))
        (fun _ _ => None) (fun _ _ => None) (clockFrom 1704164645)
        (fun _ _ => Failed someError) (fun _ _ => Failed someError)
        (fun _ _ => None) (fun _ _ _ => Some someError) (fun _ _ _ => Some someError).

(** A line of a file with CRLF line endings, short enough for the scanner
    together with its carriage return and newline. *)
Definition isLineCRLF (l : string) : bool :=
  negb (hasByte GoBufio.newline l) &&
  (GoString.len l + 1 <? GoBufio.MaxScanTokenSize).

(** ** Lines of white space, as the specification means them

    The runes of a string, as the conversion [[]rune(s)] gives them: UTF-8
    read from the start of the string, a byte that starts no well-formed
    sequence counting as [RuneError]. *)
Fixpoint decodeAll (fuel : nat) (s : string) : list Z :=
  match fuel with
  | O => []
  | S fuel' =>
      match s with
      | EmptyString => []
      | _ =>
          let '(r, size) := GoUnicode.DecodeRuneInString s in
          r :: decodeAll fuel' (GoUnicode.dropBytes size s)
      end
  end.

Definition runes (s : string) : list Z := decodeAll (String.length s) s.

(** A blank or whitespace-only line: every character of it is white space
    (the empty line has no character). *)
Definition whitespaceOnly (s : string) : bool :=
  forallb GoUnicode.IsSpace (runes s).

(** A line with text on it: a record of the input. *)
Definition hasText (s : string) : bool := negb (whitespaceOnly s).

(** U+3000, the ideographic space, in UTF-8. *)
Definition ideographicSpace : string :=
  String (ascii_of_N 227) (String (ascii_of_N 128) (String (ascii_of_N 128) "")).

(** ** The result sink in the world *)

(** The body of [main] between the creation of the output file and the
    deferred function: the loop, and the [Flush] of line 81 when the loop
    ran to its end. *)
Definition mainBody (env : Env) (textLines : list string) : M unit :=
  bind (mainLoop env textLines)
       (fun completed =>
          if completed then writer_Flush outputFileName else ret tt).

(** The bytes of the result sink a world holds: the content of the output
    file, when that file is on the disk, followed by the bytes in the
    buffer of the writer. *)
Definition sinkContent (w : World) : string :=
  default "" (disk w !! outputFileName) +:+ pending w.

(** The reading of claim C3 as it is worded: whenever the [k]-th
    translation fails, [k >= 2], the result sink at the end of the run
    contains exactly the entries of the [k-1] records before it. *)
Definition sinkKeepsEarlierEntries (env : Env) : Prop :=
  forall k txt err,
    (2 <= k)%nat ->
    translations (eventsOf (run env)) !! (k - 1)%nat = Some (txt, Failed err) ->
    exists done : list (string * string),
      length done = (k - 1)%nat /\
      translations (eventsOf (run env)) = okCalls done ++ [(txt, Failed err)] /\
      sinkContent (worldOf (run env)) = joinAll (entriesOf done).

(** Two records; the translation of the first one is 5000 bytes long, and
    the translation of the second one fails. *)
Definition longTranslation : string := repeatByte (N.to_nat 5000) "a".

Definition envLongTranslation : Env :=
  mkEnv (fun _ _ => Ok (mkInputFile ("one" +:+ nl +:+ "two" +:+ nl) None))
        (fun _ _ => None) (fun _ _ => None) (clockFrom 1704164645)
        (fun _ text => if String.eqb text "two" then Failed someError
                       else Ok longTranslation)
        (fun _ text => Ok "mp3")
        (fun _ _ => None) (fun _ _ _ => None) (fun _ _ _ => None).

(** An event other than a [Flush]. *)
Definition isNotFlush (e : Event) : Prop :=
  match e with
  | EvFlush _ _ => False
  | _ => True
  end.

(** ** The lines of a file, as the specification means them *)

(** The bytes of a line of the file, from its start to its newline
    excluded: no newline among them, and fewer than 65536. *)
Definition fitsScanner (l : string) : bool :=
  negb (hasByte GoBufio.newline l) && (GoString.len l <? 65536).

(** A line without the carriage return it ends with, if it ends with one:
    the text of a line of a file with CR LF line endings. *)
Definition withoutCR (l : string) : string :=
  if endsWith GoBufio.cr l then substring 0 (String.length l - 1) l else l.

(** The reading of claim C9 as it is worded, for a file that opens and is
    read without error: the lines of the file are returned, all of them. *)
Definition returnsEveryLine (env : Env) : Prop :=
  forall file textLines,
    env_open env 0 inputFileName = Ok file ->
    readErr file = None ->
    content file = joinLines textLines ->
    Forall (fun l => hasByte GoBufio.newline l = false) textLines ->
    valueOf (getInputText env inputFileName initialWorld) = Ok textLines.

(** The second of the three lines of [input.txt] is 64 KiB long; the file
    opens and is read to its end. *)
Definition envTooLongLine : Env :=
  mkEnv (fun _ _ => Ok (mkInputFile (joinLines ["konnichiwa"; longLine; "arigatou"])
                          None))
        (fun _ _ => None) (fun _ _ => None) (clockFrom 1704164645)
        (fun _ text => Ok ("en:" +:+ text)) (fun _ text => Ok ("mp3:" +:+ text))
        (fun _ _ => None) (fun _ _ _ => None) (fun _ _ _ => None).

(** The lines of [input.txt] end with carriage return and newline; one of
    them holds two spaces. *)
Definition envCRLFBlank : Env :=
  mkEnv (fun _ _ => Ok (mkInputFile (joinCRLF ["konnichiwa"; "  "]) None))
        (fun _ _ => None) (fun _ _ => None) (clockFrom 1704164645)
        (fun _ text => Ok ("en:" +:+ text)) (fun _ text => Ok ("mp3:" +:+ text))
        (fun _ _ => None) (fun _ _ _ => None) (fun _ _ _ => None).

(** * Properties *)

(** ** Facts about strings *)

Module GoStringFacts.
Import GoString.

Lemma app_cons (a : ascii) (s t : string) :
  String a s +:+ t = String a (s +:+ t).
Proof. reflexivity. Qed.

Lemma app_nil_l (s : string) : "" +:+ s = s.
Proof. reflexivity. Qed.

Lemma app_nil_r (s : string) : s +:+ "" = s.
Proof.
  induction s as [|a s IH]; [reflexivity|].
  now rewrite app_cons, IH.
Qed.

Lemma app_assoc (a b c : string) : (a +:+ b) +:+ c = a +:+ (b +:+ c).
Proof.
  induction a as [|x a IH]; [reflexivity|].
  now rewrite !app_cons, IH.
Qed.

Lemma length_app (a b : string) :
  String.length (a +:+ b) = (String.length a + String.length b)%nat.
Proof.
  induction a as [|x a IH]; [reflexivity|].
  rewrite app_cons. simpl. now rewrite IH.
Qed.

Lemma stripPrefix_app (p s : string) : stripPrefix p (p +:+ s) = Some s.
Proof.
  induction p as [|a p IH]; [reflexivity|].
  rewrite app_cons. simpl. now rewrite Ascii.eqb_refl.
Qed.

Lemma app_inv_head (p a b : string) : p +:+ a = p +:+ b -> a = b.
Proof.
  intros H. pose proof (stripPrefix_app p a) as Ha.
  rewrite H, stripPrefix_app in Ha. congruence.
Qed.

Lemma len_app (a b : string) : len (a +:+ b) = len a + len b.
Proof. unfold len. rewrite length_app. lia. Qed.

Lemma substring_all (s : string) : substring 0 (String.length s) s = s.
Proof. induction s as [|c s IH]; [reflexivity|]. cbn. now rewrite IH. Qed.

Lemma length_substring (s : string) (n m : nat) :
  (n + m <= String.length s)%nat -> String.length (substring n m s) = m.
Proof.
  revert n m. induction s as [|c s IH]; intros n m H.
  - cbn in H. assert (n = O) by lia. assert (m = O) by lia. now subst.
  - destruct n as [|n].
    + destruct m as [|m]; [reflexivity|]. cbn. rewrite IH; [reflexivity|].
      cbn in H. lia.
    + cbn. apply IH. cbn in H. lia.
Qed.

Lemma substring_0_cons (c : ascii) (s : string) (n : nat) :
  substring 0 (S n) (String c s) = String c (substring 0 n s).
Proof. reflexivity. Qed.

Lemma substring_0_not_empty (s : string) (n : nat) :
  s <> "" -> (0 < n)%nat -> substring 0 n s <> "".
Proof.
  intros Hs Hn. destruct s as [|c s]; [congruence|].
  destruct n as [|n]; [lia|]. cbn. discriminate.
Qed.

Lemma dropBytes_0 (s : string) : GoUnicode.dropBytes 0 s = s.
Proof. unfold GoUnicode.dropBytes. rewrite Nat.sub_0_r. apply substring_all. Qed.

Lemma dropBytes_S (c : ascii) (s : string) (n : nat) :
  GoUnicode.dropBytes (S n) (String c s) = GoUnicode.dropBytes n s.
Proof. reflexivity. Qed.

Lemma length_dropBytes (s : string) (n : nat) :
  String.length (GoUnicode.dropBytes n s) = (String.length s - n)%nat.
Proof.
  revert n. induction s as [|c s IH]; intros n.
  - now destruct n.
  - destruct n as [|n]; [now rewrite dropBytes_0|].
    rewrite dropBytes_S, IH. reflexivity.
Qed.

(** A string is its first [n] bytes followed by the others. *)
Lemma substring_dropBytes (s : string) (n : nat) :
  substring 0 n s +:+ GoUnicode.dropBytes n s = s.
Proof.
  revert n. induction s as [|c s IH]; intros n.
  - now destruct n.
  - destruct n as [|n]; [now rewrite dropBytes_0|].
    rewrite dropBytes_S. cbn [substring]. rewrite app_cons. now rewrite IH.
Qed.

End GoStringFacts.

(** ** The buffered writer *)

Module WriterFacts.
Import GoString GoStringFacts GoBufio.

(** No byte is lost or invented by [WriteString]: what the file was handed
    during the call, followed by the buffer after it, is the buffer before
    the call followed by the string. *)
Lemma writeStringLoop_conserves (fuel : nat) (written buf s : string) :
  fst (writeStringLoop fuel written buf s) +:+
  snd (writeStringLoop fuel written buf s) = written +:+ buf +:+ s.
Proof.
  revert written buf s. induction fuel as [|fuel IH]; intros written buf s.
  - reflexivity.
  - cbn [writeStringLoop]. cbv zeta.
    destruct (defaultBufSize - len buf <? len s); [|reflexivity].
    destruct (len buf =? 0) eqn:Hb.
    + rewrite IH. apply Z.eqb_eq in Hb.
      destruct buf; [|unfold len in Hb; cbn in Hb; lia].
      now rewrite !app_nil_r.
    + rewrite IH. rewrite !app_assoc. do 2 f_equal.
      rewrite app_nil_l. apply substring_dropBytes.
Qed.

Lemma writeString_conserves (buf s : string) :
  fst (writeString buf s) +:+ snd (writeString buf s) = buf +:+ s.
Proof. unfold writeString. now rewrite writeStringLoop_conserves. Qed.

Lemma len_empty : len "" = 0.
Proof. reflexivity. Qed.

(** The loop of [WriteString] is left after two rounds at most. *)
Lemma writeStringLoop_rounds (fuel : nat) (written buf s : string) :
  writeStringLoop (3 + fuel) written buf s = writeStringLoop 3 written buf s.
Proof.
  cbn [Nat.add]. cbn [writeStringLoop]. cbv zeta.
  destruct (defaultBufSize - len buf <? len s); [|reflexivity].
  rewrite !len_empty. change (defaultBufSize - 0 <? 0) with false.
  change (0 =? 0) with true. cbv iota.
  destruct (len buf =? 0); [reflexivity|].
  destruct (defaultBufSize - 0 <? len _); reflexivity.
Qed.

(** The buffer never holds more than its 4096 bytes. *)
Lemma writeString_buffer (buf s : string) :
  len buf <= defaultBufSize -> len (snd (writeString buf s)) <= defaultBufSize.
Proof.
  intros Hbuf. unfold writeString. cbn [writeStringLoop]. cbv zeta.
  destruct (defaultBufSize - len buf <? len s) eqn:H1.
  - rewrite !len_empty. change (defaultBufSize - 0 <? 0) with false.
    change (0 =? 0) with true. cbv iota.
    destruct (len buf =? 0);
      [cbn [snd]; rewrite app_nil_l, len_empty; unfold defaultBufSize; lia|].
    destruct (defaultBufSize - 0 <? len _) eqn:H2.
    + cbn [snd]. rewrite app_nil_l, len_empty. unfold defaultBufSize. lia.
    + cbn [snd]. rewrite app_nil_l. apply Z.ltb_ge in H2. lia.
  - cbn [snd]. apply Z.ltb_ge in H1. rewrite len_app. lia.
Qed.

End WriterFacts.

(** ** White space *)

Module BlankFacts.
Import GoString GoStringFacts GoUnicode.

Ltac decode_cases :=
  repeat match goal with
  | |- context [if ?b then _ else _] => destruct b eqn:?
  | |- context [match first ?b with _ => _ end] =>
      destruct (first b) as [[[? ?] ?]|] eqn:?
  | |- context [match ?s with EmptyString => _ | String _ _ => _ end] =>
      destruct s
  end.

(** The width of a decoded rune. *)
Lemma decode_size (c : ascii) (s : string) :
  (1 <= snd (DecodeRuneInString (String c s)) <= String.length (String c s))%nat.
Proof.
  unfold DecodeRuneInString.
  decode_cases; cbn [snd String.length]; lia.
Qed.

(** A rune that is white space was decoded from a well-formed sequence,
    and the bytes after the sequence play no part. *)
Lemma decode_space_app (p q : string) (r : Z) (size : nat) :
  DecodeRuneInString p = (r, size) -> IsSpace r = true ->
  DecodeRuneInString (p +:+ q) = (r, size).
Proof.
  unfold DecodeRuneInString. intros H Hr.
  destruct p as [|c0 p]; [injection H as <- _; discriminate Hr|].
  rewrite app_cons.
  destruct (byte_val c0 <? RuneSelf); [exact H|].
  destruct (first (byte_val c0)) as [[[sz lo] hi]|];
    [|injection H as <- _; discriminate Hr].
  destruct p as [|c1 p]; [injection H as <- _; discriminate Hr|].
  rewrite app_cons.
  destruct (negb (inRange lo hi (byte_val c1)));
    [injection H as <- _; discriminate Hr|].
  destruct (sz <=? 2)%nat; [exact H|].
  destruct p as [|c2 p]; [injection H as <- _; discriminate Hr|].
  rewrite app_cons.
  destruct (negb (inRange 128 191 (byte_val c2)));
    [injection H as <- _; discriminate Hr|].
  destruct (sz <=? 3)%nat; [exact H|].
  destruct p as [|c3 p]; [injection H as <- _; discriminate Hr|].
  rewrite app_cons. exact H.
Qed.

(** A white-space rune found at the end of [p] and as wide as [p] is the
    rune [p] starts with. *)
Lemma decodeLast_space (p : string) (r : Z) (size : nat) :
  DecodeLastRuneInString p = (r, size) -> IsSpace r = true ->
  (size <= String.length p)%nat /\
  (size = String.length p -> DecodeRuneInString p = (r, size)).
Proof.
  unfold DecodeLastRuneInString. intros H Hr.
  destruct (String.length p) as [|last] eqn:Hn;
    [injection H as <- _; discriminate Hr|].
  destruct (byteAt p last <? RuneSelf) eqn:Hb.
  - injection H as <- <-. split; [lia|]. intros Hl.
    assert (last = O) by lia. subst last.
    destruct p as [|c [|c' p]]; try discriminate Hn.
    unfold byteAt in *. cbn in *. now rewrite Hb.
  - destruct (DecodeRuneInString
                (substring (scanBack p (S last - 4) last)
                   (S last - scanBack p (S last - 4) last) p)) as [r' size'] eqn:Hd.
    destruct (scanBack p (S last - 4) last + size' =? S last)%nat eqn:He;
      [|injection H as <- _; discriminate Hr].
    injection H as <- <-. apply Nat.eqb_eq in He. split; [lia|].
    intros Hl. assert (Hs : scanBack p (S last - 4) last = O) by lia.
    rewrite Hs, Nat.sub_0_r, <- Hn, substring_all in Hd. now rewrite Hd, Hl.
Qed.

(** Trimming from the right never empties a string that starts with a rune
    that is not white space. *)
Lemma trimRightLoop_not_empty (s : string) :
  s <> "" -> IsSpace (fst (DecodeRuneInString s)) = false ->
  forall fuel i, (1 <= i <= String.length s)%nat ->
    trimRightLoop fuel IsSpace s i <> "".
Proof.
  intros Hs Hfirst fuel. induction fuel as [|fuel IH]; intros i Hi.
  - cbn. apply substring_0_not_empty; [exact Hs | lia].
  - cbn [trimRightLoop]. destruct i as [|i]; [lia|].
    destruct (DecodeLastRuneInString (substring 0 (S i) s)) as [r size] eqn:Hd.
    destruct (IsSpace r) eqn:Hr.
    + destruct (decodeLast_space _ _ _ Hd Hr) as [Hle Heq].
      rewrite length_substring in Hle, Heq by lia.
      assert (size <> S i).
      { intros ->. specialize (Heq eq_refl).
        apply (decode_space_app _ (dropBytes (S i) s)) in Heq; [|exact Hr].
        rewrite substring_dropBytes in Heq. rewrite Heq in Hfirst.
        cbn in Hfirst. congruence. }
      apply IH. lia.
    + destruct (RuneSelf <=? byteAt s (S i - size)).
      * apply substring_0_not_empty; [exact Hs|].
        destruct (S i - size)%nat as [|k] eqn:Hk; [|lia].
        rewrite dropBytes_0. destruct s as [|c s]; [congruence|].
        pose proof (decode_size c s). lia.
      * apply substring_0_not_empty; [exact Hs | lia].
Qed.

Lemma TrimRightFunc_not_empty (s : string) :
  s <> "" -> IsSpace (fst (DecodeRuneInString s)) = false ->
  TrimRightFunc s IsSpace <> "".
Proof.
  intros Hs Hf. unfold TrimRightFunc. apply trimRightLoop_not_empty; auto.
  destruct s; [congruence|]. cbn. lia.
Qed.

(** Trimming from the left follows the runes of the string. *)
Lemma trimLeftLoop_runes (fuel : nat) (s : string) :
  (String.length s <= fuel)%nat ->
  if forallb IsSpace (decodeAll fuel s)
  then trimLeftLoop fuel IsSpace s = ""
  else trimLeftLoop fuel IsSpace s <> "" /\
       IsSpace (fst (DecodeRuneInString (trimLeftLoop fuel IsSpace s))) = false.
Proof.
  revert s. induction fuel as [|fuel IH]; intros s Hlen.
  - destruct s; [reflexivity | cbn in Hlen; lia].
  - destruct s as [|c s]; [reflexivity|].
    cbn [decodeAll trimLeftLoop].
    pose proof (decode_size c s) as Hsz.
    destruct (DecodeRuneInString (String c s)) as [r size] eqn:Hd.
    cbn [snd] in Hsz. cbn [forallb].
    destruct (IsSpace r) eqn:Hr; cbn [andb].
    + apply IH. rewrite length_dropBytes. cbn [String.length] in *. lia.
    + split; [discriminate|]. now rewrite Hd.
Qed.

Lemma TrimFunc_runes (s : string) :
  String.eqb (TrimFunc s IsSpace) "" = whitespaceOnly s.
Proof.
  unfold TrimFunc, TrimLeftFunc, whitespaceOnly, runes.
  pose proof (trimLeftLoop_runes (String.length s) s (Nat.le_refl _)) as H.
  destruct (forallb IsSpace (decodeAll (String.length s) s)).
  - rewrite H. reflexivity.
  - destruct H as [Hne Hf].
    pose proof (TrimRightFunc_not_empty _ Hne Hf) as Hr.
    destruct (TrimRightFunc _ IsSpace); [congruence | reflexivity].
Qed.

Lemma byteAt_0 (c : ascii) (s : string) : byteAt (String c s) 0 = byte_val c.
Proof. reflexivity. Qed.

Lemma decode_ascii (c : ascii) (s : string) :
  byte_val c < RuneSelf -> DecodeRuneInString (String c s) = (byte_val c, 1%nat).
Proof.
  intros H. unfold DecodeRuneInString.
  apply Z.ltb_lt in H. now rewrite H.
Qed.

Lemma IsSpace_ascii (b : Z) : b < RuneSelf -> IsSpace b = asciiSpace b.
Proof.
  intros H. unfold IsSpace, asciiSpace, RuneSelf in *.
  replace (b <=? 255) with true by (symmetry; apply Z.leb_le; lia).
  replace (b =? 133) with false by (symmetry; apply Z.eqb_neq; lia).
  replace (b =? 160) with false by (symmetry; apply Z.eqb_neq; lia).
  now rewrite !orb_false_r.
Qed.

Lemma trimSpaceStop_keeps_text (c : ascii) (s : string) :
  byte_val c < RuneSelf -> asciiSpace (byte_val c) = false ->
  forall stop, (1 <= stop)%nat -> trimSpaceStop (String c s) stop <> "".
Proof.
  intros Hc Hsp stop. induction stop as [|i IH]; intros Hpos; [lia|].
  cbn [trimSpaceStop].
  destruct (RuneSelf <=? byteAt (String c s) i).
  - apply TrimRightFunc_not_empty; rewrite substring_0_cons; [discriminate|].
    rewrite decode_ascii by exact Hc. cbn [fst].
    now rewrite IsSpace_ascii.
  - destruct (asciiSpace (byteAt (String c s) i)) eqn:Hi.
    + destruct i as [|i]; [|apply IH; lia].
      rewrite byteAt_0 in Hi. congruence.
    + rewrite substring_0_cons. discriminate.
Qed.

Lemma runes_ascii (c : ascii) (s : string) :
  byte_val c < RuneSelf -> runes (String c s) = byte_val c :: runes s.
Proof.
  intros H. unfold runes. cbn [String.length decodeAll].
  rewrite decode_ascii by exact H.
  change (dropBytes 1 (String c s)) with (dropBytes 0 s).
  now rewrite dropBytes_0.
Qed.

(** The guard of the loop is false exactly on the lines made of white
    space. *)
Lemma nonBlank_whitespaceOnly (txt : string) :
  nonBlank txt = negb (whitespaceOnly txt).
Proof.
  unfold nonBlank. f_equal.
  induction txt as [|c s IH]; [reflexivity|].
  cbn [TrimSpace].
  destruct (RuneSelf <=? byte_val c) eqn:Hc.
  - apply TrimFunc_runes.
  - apply Z.leb_gt in Hc. unfold whitespaceOnly.
    rewrite runes_ascii by exact Hc. cbn [forallb].
    rewrite IsSpace_ascii by exact Hc.
    destruct (asciiSpace (byte_val c)) eqn:Hsp; cbn [andb].
    + exact IH.
    + pose proof (trimSpaceStop_keeps_text c s Hc Hsp (String.length (String c s))) as H.
      destruct (trimSpaceStop (String c s) (String.length (String c s)));
        [exfalso; apply H; [cbn; lia | reflexivity] | reflexivity].
Qed.

End BlankFacts.

Example whitespaceOnly_examples :
  whitespaceOnly "" = true /\
  whitespaceOnly ("  " +:+ String (ascii_of_N 9) " ") = true /\
  whitespaceOnly (" " +:+ ideographicSpace +:+ String GoBufio.cr "") = true /\
  whitespaceOnly " a " = false /\
  whitespaceOnly (String (ascii_of_N 128) "") = false /\
  runes (" " +:+ ideographicSpace) = [32; 0x3000].
Proof. vm_compute. repeat split. Qed.

(** ** Artifact names *)

Module NameFacts.
Import GoString GoStringFacts GoTime.

Lemma formatChunk_localSec (t1 t2 : Time) (c : stdChunk) :
  localSec t1 = localSec t2 -> formatChunk t1 c = formatChunk t2 c.
Proof.
  intros H.
  unfold formatChunk, Year, Month, Day, Hour, Minute, Second,
    daysSinceEpoch, secOfDay.
  now rewrite H.
Qed.

Lemma formatLayout_localSec (t1 t2 : Time) :
  localSec t1 = localSec t2 ->
  forall fuel layout, formatLayout fuel t1 layout = formatLayout fuel t2 layout.
Proof.
  intros H fuel. induction fuel as [|fuel IH]; intros layout; [reflexivity|].
  simpl. destruct (stdAtHead layout) as [[c rest]|].
  - now rewrite (formatChunk_localSec t1 t2 c H), IH.
  - destruct layout as [|ch rest]; [reflexivity|]. now rewrite IH.
Qed.

Lemma Format_localSec (t1 t2 : Time) (layout : string) :
  localSec t1 = localSec t2 -> Format t1 layout = Format t2 layout.
Proof. intros H. unfold Format. now apply formatLayout_localSec. Qed.

Lemma formatLayout_chunk
    (fuel : nat) (t : Time) (layout rest : string) (c : stdChunk) :
  stdAtHead layout = Some (c, rest) ->
  formatLayout (S fuel) t layout = formatChunk t c +:+ formatLayout fuel t rest.
Proof. intros H. cbn [formatLayout]. now rewrite H. Qed.

(** The layout of the program is read as year, month, day, hour, minute,
    second, all zero-padded. *)
Lemma Format_timeLayout (t : Time) : Format t timeLayout = yyyymmddhhmmss t.
Proof.
  unfold Format, timeLayout, yyyymmddhhmmss.
  change (S (String.length "20060102150405")) with 15%nat.
  rewrite (formatLayout_chunk _ t _ "0102150405" stdLongYear) by reflexivity.
  rewrite (formatLayout_chunk _ t _ "02150405" stdZeroMonth) by reflexivity.
  rewrite (formatLayout_chunk _ t _ "150405" stdZeroDay) by reflexivity.
  rewrite (formatLayout_chunk _ t _ "0405" stdHour) by reflexivity.
  rewrite (formatLayout_chunk _ t _ "05" stdZeroMinute) by reflexivity.
  rewrite (formatLayout_chunk _ t _ "" stdZeroSecond) by reflexivity.
  cbn [formatLayout formatChunk].
  change (stdAtHead "") with (@None (stdChunk * string)). cbv iota.
  now rewrite app_nil_r.
Qed.

Lemma sameSecond_localSec (t1 t2 : Time) :
  sameSecond t1 t2 -> localSec t1 = localSec t2.
Proof. intros [H1 H2]. unfold localSec. now rewrite H1, H2. Qed.

Ltac divlia := Z.div_mod_to_equations; lia.

(** An integer of at most [width] digits is written on exactly [width]
    digits. *)
Lemma appendInt_2 (x : Z) :
  0 <= x < 100 ->
  appendInt x 2 = String (digit (x / 10)) (String (digit (x mod 10)) "").
Proof.
  intros Hx. unfold appendInt.
  replace (x <? 0) with false by (symmetry; apply Z.ltb_ge; lia).
  rewrite Z.abs_eq by lia.
  cbv [utoa]. destruct (x / 10 =? 0) eqn:E1.
  - apply Z.eqb_eq in E1. rewrite E1. reflexivity.
  - replace (x / 10 / 10) with 0 by divlia.
    replace (x / 10 mod 10) with (x / 10) by divlia. reflexivity.
Qed.

Lemma appendInt_4 (x : Z) :
  0 <= x < 10000 ->
  appendInt x 4 =
    String (digit (x / 1000)) (String (digit (x / 100 mod 10))
      (String (digit (x / 10 mod 10)) (String (digit (x mod 10)) ""))).
Proof.
  intros Hx. unfold appendInt.
  replace (x <? 0) with false by (symmetry; apply Z.ltb_ge; lia).
  rewrite Z.abs_eq by lia.
  assert (H10 : x / 10 / 10 = x / 100) by divlia.
  assert (H100 : x / 100 / 10 = x / 1000) by divlia.
  cbv [utoa]. rewrite !H10, !H100.
  destruct (x / 10 =? 0) eqn:E1.
  { apply Z.eqb_eq in E1.
    replace (x / 1000) with 0 by divlia.
    replace (x / 100) with 0 by divlia.
    rewrite E1. reflexivity. }
  destruct (x / 100 =? 0) eqn:E2.
  { apply Z.eqb_eq in E2.
    replace (x / 1000) with 0 by divlia.
    rewrite E2. reflexivity. }
  destruct (x / 1000 =? 0) eqn:E3.
  { apply Z.eqb_eq in E3. rewrite E3. reflexivity. }
  replace (x / 1000 / 10) with 0 by divlia.
  replace (x / 1000 mod 10) with (x / 1000) by divlia.
  reflexivity.
Qed.

(** The calendar fields are in their ranges. *)
Lemma clock_ranges (t : Time) :
  0 <= Hour t < 24 /\ 0 <= Minute t < 60 /\ 0 <= Second t < 60.
Proof.
  unfold Hour, Minute, Second, secOfDay, secondsPerDay. divlia.
Qed.

Lemma civil_ranges (days : Z) :
  1 <= snd (fst (civil days)) <= 12 /\ 1 <= snd (civil days) <= 31.
Proof.
  unfold civil. cbv zeta. cbn [fst snd].
  destruct (_ <? 10) eqn:E; [apply Z.ltb_lt in E | apply Z.ltb_ge in E];
    divlia.
Qed.

(** For a year of the common era below 10000 the stamp is fourteen
    decimal digits. *)
Lemma yyyymmddhhmmss_digits (t : Time) :
  0 <= Year t < 10000 ->
  yyyymmddhhmmss t =
    string_of_list_ascii
      (map digit
         [Year t / 1000; Year t / 100 mod 10; Year t / 10 mod 10; Year t mod 10;
          Month t / 10; Month t mod 10; Day t / 10; Day t mod 10;
          Hour t / 10; Hour t mod 10; Minute t / 10; Minute t mod 10;
          Second t / 10; Second t mod 10]).
Proof.
  intros Hy. unfold yyyymmddhhmmss.
  destruct (clock_ranges t) as (Hh & Hm & Hs).
  destruct (civil_ranges (daysSinceEpoch t)) as (Hmo & Hd).
  fold (Month t) in Hmo. fold (Day t) in Hd.
  rewrite (appendInt_4 (Year t)) by lia.
  rewrite (appendInt_2 (Month t)), (appendInt_2 (Day t)), (appendInt_2 (Hour t)),
    (appendInt_2 (Minute t)), (appendInt_2 (Second t)) by lia.
  reflexivity.
Qed.

End NameFacts.

(** ** The calendar and the blank-line test on examples *)

Example civil_examples :
  GoTime.civil 0 = (1970, 1, 1) /\ GoTime.civil (-1) = (1969, 12, 31) /\
  GoTime.civil 11016 = (2000, 2, 29) /\ GoTime.civil 11017 = (2000, 3, 1) /\
  GoTime.civil 19723 = (2024, 1, 1).
Proof. repeat split; reflexivity. Qed.

(** A local time east of UTC: 2000-02-29T00:00:00Z is 09:00:00 in Tokyo. *)
Example audioFileName_tokyo :
  audioFileNameAt (GoTime.mkTime 951782400 5 32400) =
    "audioFile-20000229090000-output.mp3".
Proof. vm_compute. reflexivity. Qed.

(** Empty lines, lines of ASCII blanks and lines of ideographic spaces
    (U+3000, bytes E3 80 80) are skipped; a zero-width space (U+200B) is not
    white space. *)
Example nonBlank_examples :
  let u3000 := String (ascii_of_N 227) (String (ascii_of_N 128) (String (ascii_of_N 128) "")) in
  let u200B := String (ascii_of_N 226) (String (ascii_of_N 128) (String (ascii_of_N 139) "")) in
  List.map nonBlank
    [""; "   "; String (ascii_of_N 9) " "; u3000; u3000 +:+ " " +:+ u3000;
     "a"; "  a  "; u3000 +:+ "a"; u200B] =
    [false; false; false; false; false; true; true; true; true].
Proof. vm_compute. reflexivity. Qed.

(** ** Symbolic execution of the program

    [exec] unfolds the program and splits on the outcome of every outside
    call; [locate] finds where an event sits in an explicit log. *)

Ltac unfold_prog :=
  cbv beta iota zeta delta
    [processLine translateText synthesizeSpeechAndUpload transcribeAudioFile
     bind ret Println time_Now os_Create os_Remove file_Close file_Seek
     file_ReadFrom writer_WriteString writer_Flush translate_Text
     polly_SynthesizeSpeech s3_PutObject transcribe_StartTranscriptionJob
     tick setDisk setObjects setPending calls disk objects pending].

Ltac case_env :=
  match goal with
  | |- context [match env_translate ?e ?n ?t with _ => _ end] =>
      destruct (env_translate e n t) eqn:?
  | |- context [match env_synthesize ?e ?n ?t with _ => _ end] =>
      destruct (env_synthesize e n t) eqn:?
  | |- context [match env_create ?e ?n ?t with _ => _ end] =>
      destruct (env_create e n t) eqn:?
  | |- context [match env_readFrom ?e ?n ?t with _ => _ end] =>
      destruct (env_readFrom e n t) eqn:?
  | |- context [match env_putObject ?e ?n ?b ?k with _ => _ end] =>
      destruct (env_putObject e n b k) eqn:?
  | |- context [match env_remove ?e ?n ?t with _ => _ end] =>
      destruct (env_remove e n t) eqn:?
  | |- context [match env_startJob ?e ?n ?j ?u with _ => _ end] =>
      destruct (env_startJob e n j u) eqn:?
  end.

Ltac exec :=
  unfold_prog; repeat (case_env; unfold_prog);
  cbn [valueOf worldOf eventsOf fst snd app calls disk objects pending].

Ltac locate H :=
  repeat
    match type of H with
    | [] = ?pre ++ _ :: _ => destruct pre; discriminate H
    | _ :: _ = ?pre ++ _ :: _ =>
        destruct pre as [|? pre]; cbn [app] in H;
        [ injection H as ? ?
        | let H' := fresh in
          injection H as H' H;
          match type of H' with _ = ?x => subst x end ]
    end.

(** ** One line of input *)

Section RecordFacts.
Variable env : Env.

Lemma processLine_no_failure txt w :
  valueOf (processLine env txt w) = true ->
  Forall (fun e => isFailure e = false) (eventsOf (processLine env txt w)).
Proof.
  destruct w as [n d o p]. exec; intros H; try discriminate H.
  repeat constructor.
Qed.

Lemma processLine_halts txt w pre e post :
  eventsOf (processLine env txt w) = pre ++ e :: post ->
  isFailure e = true ->
  valueOf (processLine env txt w) = false /\
  Forall (fun e' => isCleanup e' = true) post.
Proof.
  destruct w as [n d o p]. exec; intros H Hf.
  all: locate H; subst; try discriminate Hf.
  all: split; [reflexivity | repeat constructor].
Qed.

Lemma processLine_summary txt w :
  let r := processLine env txt w in
  translations (eventsOf r) = [(txt, env_translate env (calls w) txt)] /\
  match env_translate env (calls w) txt with
  | Failed _ =>
      valueOf r = false /\ sinkEntries (eventsOf r) = [] /\
      callKinds (eventsOf r) = [Translate]
  | Ok t =>
      sinkEntries (eventsOf r) = [t +:+ nl] /\
      (valueOf r = true -> callKinds (eventsOf r) = fullRecord)
  end.
Proof.
  destruct w as [n d o p]. cbv zeta. exec.
  all: cbv [translations sinkEntries callKinds omap list_omap callKind].
  all: repeat split; try reflexivity; intros H; try discriminate H.
Qed.

Lemma processLine_allSucceed txt w :
  allSucceed env -> valueOf (processLine env txt w) = true.
Proof.
  intros (Hc & Hr & Ht & Hs & Hf & Hp & Hj).
  destruct w as [n d o p]. exec; try reflexivity.
  all: try match goal with
    | H : env_translate _ ?n ?t = Failed _ |- _ =>
        destruct (Ht n t) as [? Hx]; rewrite Hx in H; discriminate H
    | H : env_synthesize _ ?n ?t = Failed _ |- _ =>
        destruct (Hs n t) as [? Hx]; rewrite Hx in H; discriminate H
    end.
  all: congruence.
Qed.

Lemma processLine_submission txt w pre job lang format uri out r post :
  eventsOf (processLine env txt w) =
    pre ++ EvStartTranscriptionJob job lang format uri out r :: post ->
  exists pre' key body tAudio tJob,
    pre = pre' ++
          [EvCreate key None; EvReadFrom key None; EvSeek key;
           EvPutObject bucketName key body None;
           EvPrintln ("Uploaded audio file to S3:" +:+ " " +:+ key);
           EvRemove key None;
           EvPrintln ("Deleted local audio file:" +:+ " " +:+ key);
           EvClose key; EvNow tJob] /\
    uri = "s3://" +:+ bucketName +:+ "/" +:+ key /\
    out = bucketName /\
    key = audioFileNameAt tAudio /\
    job = transcriptionJobNameAt tJob /\
    tAudio = env_now env (calls w + 2) /\
    tJob = env_now env (calls w + 7).
Proof.
  destruct w as [n d o p]. exec; intros H.
  all: locate H; try discriminate.
  all: simplify_eq.
  all: replace (n + 2)%nat with (S (S n)) by lia;
       replace (n + 7)%nat with (S (S (S (S (S (S (S n))))))) by lia.
  all: eexists [_; _; _; _; _], _, _, _, _; repeat split; reflexivity.
Qed.

Lemma processLine_remove_failure txt w pre key err post :
  eventsOf (processLine env txt w) = pre ++ EvRemove key (Some err) :: post ->
  valueOf (processLine env txt w) = false /\
  exists pre' body,
    pre = pre' ++
          [EvPutObject bucketName key body None;
           EvPrintln ("Uploaded audio file to S3:" +:+ " " +:+ key)] /\
    post = [EvPrintln ("Error deleting local audio file:" +:+ " " +:+ Error_ err);
            EvClose key;
            EvPrintln ("Error synthesizing or uploading audio file:" +:+ " " +:+ Error_ err)] /\
    objects (worldOf (processLine env txt w)) !! (bucketName, key) = Some body.
Proof.
  destruct w as [n d o p]. exec; intros H.
  all: locate H; try discriminate.
  all: simplify_eq.
  split; [reflexivity|].
  eexists [_; _; _; _; _; _; _; _], _. repeat split.
  apply lookup_insert_eq.
Qed.
End RecordFacts.

Section LoopFacts.
Variable env : Env.

Lemma mainLoop_loopRun textLines w :
  loopRun env textLines w
    (valueOf (mainLoop env textLines w))
    (worldOf (mainLoop env textLines w))
    (eventsOf (mainLoop env textLines w)).
Proof.
  revert w. induction textLines as [|txt rest IH]; intros w.
  - apply loop_done.
  - cbn [mainLoop]. destruct (nonBlank txt) eqn:Hnb.
    + unfold bind.
      destruct (processLine env txt w) as [[c w1] e1] eqn:Hp.
      destruct c.
      * specialize (IH w1).
        destruct (mainLoop env rest w1) as [[b w2] e2].
        eapply loop_next; eassumption.
      * cbn. rewrite app_nil_r. apply loop_return; assumption.
    + apply loop_blank; [assumption | apply IH].
Qed.

Lemma split_app (l1 l2 pre post : list Event) (e : Event) :
  l1 ++ l2 = pre ++ e :: post ->
  (exists q, l1 = pre ++ e :: q /\ post = q ++ l2) \/
  (exists p, pre = l1 ++ p /\ l2 = p ++ e :: post).
Proof.
  revert pre. induction l1 as [|x l1 IH]; intros pre H.
  - right. exists pre. split; [reflexivity | exact H].
  - destruct pre as [|y pre]; cbn in H.
    + injection H as -> <-. left. exists l1. split; reflexivity.
    + injection H as -> H. destruct (IH pre H) as [(q & -> & ->)|(p & -> & ->)].
      * left. exists q. split; reflexivity.
      * right. exists p. split; reflexivity.
Qed.

(** Every event of the loop belongs to the processing of one line; when
    that processing ends the loop, nothing of the loop comes after it. *)
Lemma loopRun_locate textLines w b w' evs :
  loopRun env textLines w b w' evs ->
  forall pre e post, evs = pre ++ e :: post ->
  exists txt w0 c w1 pre0 post0 before after,
    processLine env txt w0 = (c, w1, pre0 ++ e :: post0) /\
    pre = before ++ pre0 /\ post = post0 ++ after /\
    (c = false -> after = [] /\ w1 = w' /\ b = false).
Proof.
  induction 1 as [w|txt rest w b w' evs Hnb Hrun IH|txt rest w w1 e1 Hnb Hp
                  |txt rest w w1 e1 b w2 e2 Hnb Hp Hrun IH];
    intros pre e post Heq.
  - destruct pre; discriminate Heq.
  - exact (IH pre e post Heq).
  - subst e1. exists txt, w, false, w1, pre, post, [], [].
    rewrite app_nil_r. repeat split; reflexivity || assumption.
  - destruct (split_app _ _ _ _ _ Heq) as [(q & -> & ->)|(p & -> & Hp2)].
    + exists txt, w, true, w1, pre, q, [], e2.
      repeat split; try reflexivity; try assumption; discriminate.
    + destruct (IH p e post Hp2)
        as (txt' & w0 & c & w1' & pre0 & post0 & before & after & H1 & -> & -> & H4).
      exists txt', w0, c, w1', pre0, post0, (e1 ++ before), after.
      rewrite app_assoc. repeat split; try assumption; apply H4; assumption.
Qed.

Lemma loopRun_no_failure textLines w w' evs :
  loopRun env textLines w true w' evs ->
  Forall (fun e => isFailure e = false) evs.
Proof.
  remember true as b eqn:Hb. induction 1; subst.
  - constructor.
  - auto.
  - discriminate.
  - apply Forall_app. split; [|auto].
    pose proof (processLine_no_failure env txt w) as Hn.
    rewrite H0 in Hn. apply Hn. reflexivity.
Qed.

Lemma loopRun_allSucceed textLines w b w' evs :
  allSucceed env -> loopRun env textLines w b w' evs -> b = true.
Proof.
  intros Hall. induction 1; auto.
  pose proof (processLine_allSucceed env txt w Hall) as Hn.
  rewrite H0 in Hn. exact Hn.
Qed.

End LoopFacts.

(** ** The whole run *)

Section RunFacts.
Variable env : Env.

Lemma getInputText_Ok path w textLines :
  valueOf (getInputText env path w) = Ok textLines ->
  getInputText env path w =
    (Ok textLines, tick w, [EvOpen path None; EvRead path None; EvClose path]).
Proof.
  unfold getInputText.
  destruct (env_open env (calls w) path) as [file|err]; [|discriminate].
  destruct (GoBufio.scanAll (content file)) as [ls [serr|]]; [discriminate|].
  destruct (readErr file); [discriminate|].
  cbn. now intros [= ->].
Qed.

Lemma getInputText_Failed path w err :
  valueOf (getInputText env path w) = Failed err ->
  worldOf (getInputText env path w) = tick w /\
  (eventsOf (getInputText env path w) = [EvOpen path (Some err)] \/
   eventsOf (getInputText env path w) =
     [EvOpen path None; EvRead path (Some err); EvClose path]).
Proof.
  unfold getInputText.
  destruct (env_open env (calls w) path) as [file|err'].
  - destruct (GoBufio.scanAll (content file)) as [ls [serr|]].
    + cbn. intros [= ->]. auto.
    + destruct (readErr file); [|discriminate].
      cbn. intros [= ->]. auto.
  - cbn. intros [= ->]. auto.
Qed.

Lemma run_input_failure err :
  valueOf (getInputText env inputFileName initialWorld) = Failed err ->
  run env =
    (tt, tick initialWorld,
     eventsOf (getInputText env inputFileName initialWorld) ++
     [EvPrintln ("Error reading input file:" +:+ " " +:+ Error_ err)]).
Proof.
  intros H. destruct (getInputText_Failed _ _ _ H) as [Hw _].
  unfold run, main, bind.
  destruct (getInputText env inputFileName initialWorld) as [[read w1] e0].
  cbn in H, Hw |- *. subst. reflexivity.
Qed.

Lemma run_create_failure textLines err :
  valueOf (getInputText env inputFileName initialWorld) = Ok textLines ->
  env_create env 1 outputFileName = Some err ->
  run env =
    (tt, tick (tick initialWorld),
     inputEvents ++
     [EvCreate outputFileName (Some err);
      EvPrintln ("Error creating output file:" +:+ " " +:+ Error_ err)]).
Proof.
  intros H Hc. apply getInputText_Ok in H.
  unfold run, main, bind. rewrite H.
  unfold os_Create. cbn [calls tick initialWorld]. rewrite Hc. reflexivity.
Qed.

Lemma run_loop textLines :
  valueOf (getInputText env inputFileName initialWorld) = Ok textLines ->
  env_create env 1 outputFileName = None ->
  exists b w2 evs,
    loopRun env textLines startWorld b w2 evs /\
    run env =
      (tt, worldOf (afterLoop env b w2),
       inputEvents ++ EvCreate outputFileName None ::
         evs ++ eventsOf (afterLoop env b w2)).
Proof.
  intros H Hc. apply getInputText_Ok in H.
  pose proof (mainLoop_loopRun env textLines startWorld) as Hloop.
  destruct (mainLoop env textLines startWorld) as [[b w2] evs] eqn:Hm.
  exists b, w2, evs. split; [exact Hloop|].
  unfold run, main. unfold bind at 1. rewrite H.
  unfold bind at 1. unfold os_Create. cbn [calls tick initialWorld]. rewrite Hc.
  fold startWorld. 
  unfold bind at 1. unfold bind at 1. fold startWorld. rewrite Hm.
  unfold afterLoop, bind.
  destruct ((if b then writer_Flush outputFileName else ret ()) w2) as [[u w3] e3].
  destruct (mainDeferred env w3) as [[u' w4] e4]. destruct u'.
  cbn. now rewrite <- app_assoc.
Qed.

(** The end of [main]: only the flush and cleanup events, and the object
    store is left alone. *)
Lemma afterLoop_spec (b : bool) (w : World) :
  let r := env_remove env (calls w) outputFileName in
  eventsOf (afterLoop env b w) =
    (if b then [EvFlush outputFileName (pending w)] else []) ++
    [EvClose outputFileName; EvRemove outputFileName r;
     EvPrintln (match r with
                | Some err => "Error deleting local text file:" +:+ " " +:+ Error_ err
                | None => "Deleted local text file:" +:+ " " +:+ outputFileName
                end)] /\
  objects (worldOf (afterLoop env b w)) = objects w /\
  pending (worldOf (afterLoop env b w)) = (if b then "" else pending w) /\
  (r = None -> disk (worldOf (afterLoop env b w)) !! outputFileName = None).
Proof.
  destruct w as [n d o p]. cbv zeta.
  unfold afterLoop, mainDeferred, bind, writer_Flush, ret, file_Close,
    os_Remove, Println.
  destruct b; cbn [calls disk objects pending setDisk setPending tick];
    destruct (env_remove env n outputFileName);
    cbn [valueOf worldOf eventsOf fst snd app calls disk objects pending
         setDisk setPending tick];
    repeat split; try discriminate; intros _; apply lookup_delete_eq.
Qed.

Lemma joinAll_app (a b : list string) :
  joinAll (a ++ b) = joinAll a +:+ joinAll b.
Proof.
  induction a as [|x a IH]; [reflexivity|].
  cbn [app joinAll fold_right]. fold (joinAll (a ++ b)). fold (joinAll a).
  now rewrite IH, GoStringFacts.app_assoc.
Qed.

(** What the loop has done when it ends: the records it completed, and
    for a loop left by a [return] the record at which it stopped. *)
Lemma loopRun_summary textLines w b w' evs :
  loopRun env textLines w b w' evs ->
  exists done : list (string * string),
    if b then
      translations evs = okCalls done /\
      fst <$> done = List.filter nonBlank textLines /\
      sinkEntries evs = entriesOf done /\
      callKinds evs = flat_map (fun _ => fullRecord) done
    else
      exists txt r,
        translations evs = okCalls done ++ [(txt, r)] /\
        (fst <$> done) ++ [txt] =
          take (S (length done)) (List.filter nonBlank textLines) /\
        match r with
        | Failed _ =>
            sinkEntries evs = entriesOf done /\
            callKinds evs = flat_map (fun _ => fullRecord) done ++ [Translate]
        | Ok t => sinkEntries evs = entriesOf done ++ [t +:+ nl]
        end.
Proof.
  induction 1 as [w|txt rest w b w' evs Hnb Hrun IH|txt rest w w1 e1 Hnb Hp
                  |txt rest w w1 e1 b w2 e2 Hnb Hp Hrun IH].
  - exists []. repeat split.
  - destruct IH as [done IH].
    exists done. cbn [List.filter]. rewrite Hnb. exact IH.
  - pose proof (processLine_summary env txt w) as Hs. cbv zeta in Hs.
    rewrite Hp in Hs. cbn [valueOf worldOf eventsOf fst snd] in Hs.
    destruct Hs as (Ht & Hr).
    exists [], txt, (env_translate env (calls w) txt).
    split; [exact Ht|]. split; [cbn [List.filter]; rewrite Hnb; reflexivity|].
    destruct (env_translate env (calls w) txt) as [t|err].
    + exact (proj1 Hr).
    + destruct Hr as (_ & Hse & Hck). split; assumption.
  - pose proof (processLine_summary env txt w) as Hs. cbv zeta in Hs.
    rewrite Hp in Hs. cbn [valueOf worldOf eventsOf fst snd] in Hs.
    destruct Hs as (Ht & Hr).
    destruct (env_translate env (calls w) txt) as [t|err];
      [|destruct Hr as [Hr _]; discriminate Hr].
    destruct Hr as [Hse Hck]. specialize (Hck eq_refl).
    destruct IH as [done IH].
    exists ((txt, t) :: done).
    unfold translations, sinkEntries, callKinds. rewrite !omap_app.
    fold (translations e1) (translations e2) (sinkEntries e1) (sinkEntries e2)
      (callKinds e1) (callKinds e2).
    rewrite Ht, Hse, Hck. cbn [List.filter]. rewrite Hnb.
    destruct b.
    + destruct IH as (H1 & H2 & H3 & H4).
      rewrite H1, H3, H4. cbn [fmap list_fmap fst]. 
      change (list_fmap _ _ fst done) with (fst <$> done). rewrite H2.
      repeat split.
    + destruct IH as (txt' & r' & H1 & H2 & H3).
      exists txt', r'. rewrite H1. split; [reflexivity|].
      split.
      { cbn [length take fmap list_fmap fst app].
        change (list_fmap _ _ fst done) with (fst <$> done).
        now rewrite <- H2. }
      destruct r' as [t'|err'].
      * now rewrite H3.
      * destruct H3 as [H3 H4]. now rewrite H3, H4.
Qed.

End RunFacts.

Section Locate.
Variable env : Env.

Lemma cleanup_not_remote (l : list Event) :
  Forall (fun e => isCleanup e = true) l ->
  Forall (fun e => isRemoteCall e = false) l.
Proof.
  intros H. eapply Forall_impl; [exact H|].
  intros e. destruct e; cbn; congruence.
Qed.

Lemma afterLoop_cleanup (w : World) :
  Forall (fun e => isCleanup e = true) (eventsOf (afterLoop env false w)).
Proof.
  destruct (afterLoop_spec env false w) as [-> _]. repeat constructor.
Qed.

Lemma run_locate pre e post :
  eventsOf (run env) = pre ++ e :: post ->
  (isOutsideLoop e = true /\
   (isFailure e = true -> Forall (fun e' => isCleanup e' = true) post)) \/
  (exists txt w0 c w1 pre0 post0 before after,
      processLine env txt w0 = (c, w1, pre0 ++ e :: post0) /\
      pre = before ++ pre0 /\ post = post0 ++ after /\
      (c = false ->
       Forall (fun e' => isCleanup e' = true) after /\
       objects (worldOf (run env)) = objects w1 /\
       pending (worldOf (run env)) = pending w1)).
Proof.
  intros H.
  destruct (valueOf (getInputText env inputFileName initialWorld))
    as [textLines|err] eqn:Hget.
  - destruct (env_create env 1 outputFileName) as [err|] eqn:Hc.
    + rewrite (run_create_failure env textLines err Hget Hc) in H.
      cbn [eventsOf snd inputEvents app] in H. 
      left. locate H; subst; (split; [reflexivity|]); intros Hf;
        try discriminate Hf; repeat constructor.
    + destruct (run_loop env textLines Hget Hc) as (b & w2 & evs & Hloop & Hrun).
      rewrite Hrun in H |- *. cbn [eventsOf worldOf fst snd inputEvents app] in H |- *.
      locate H; subst;
        try (left; (split; [reflexivity|]); intros Hf; discriminate Hf).
      
      destruct (split_app _ _ _ _ _ H) as [(q & -> & ->)|(p & -> & Htail)].
      * right.
        destruct (loopRun_locate env _ _ _ _ _ Hloop _ _ _ eq_refl)
          as (txt & w0 & c & w1 & pre0 & post0 & before & after & H1 & -> & -> & H4).
        exists txt, w0, c, w1, pre0, post0,
          ([EvOpen inputFileName None; EvRead inputFileName None;
            EvClose inputFileName; EvCreate outputFileName None] ++ before),
          (after ++ eventsOf (afterLoop env b w2)).
        split; [exact H1|]. split; [now rewrite <- app_assoc|].
        split; [now rewrite <- app_assoc|].
        intros ->. destruct (H4 eq_refl) as (-> & -> & ->).
        split; [apply afterLoop_cleanup|].
        destruct (afterLoop_spec env false w2) as (_ & Ho & Hp & _).
        split; assumption.
      * left. destruct (afterLoop_spec env b w2) as (He & _). cbv zeta in He.
        rewrite He in Htail. clear He Hrun.
        destruct b; cbn [app] in Htail; locate Htail; subst;
          (split; [first [reflexivity | apply String.eqb_refl]|]); intros Hf;
          try discriminate Hf; repeat constructor.
  - rewrite (run_input_failure env err Hget) in H. cbn [eventsOf snd] in H.
    destruct (getInputText_Failed env _ _ _ Hget) as [_ [He|He]]; rewrite He in H;
      cbn [app] in H; left;
      locate H; subst; (split; [reflexivity|]); intros Hf;
      try discriminate Hf; repeat constructor.
Qed.
End Locate.

(** ** Fail-fast *)

Lemma cleanup_after_failure (env : Env) (pre post : list Event) (e : Event) :
  eventsOf (run env) = pre ++ e :: post ->
  isFailure e = true ->
  Forall (fun e' => isCleanup e' = true) post.
Proof.
  intros H Hf.
  destruct (run_locate env pre e post H)
    as [[_ Ho]|(txt & w0 & c & w1 & pre0 & post0 & before & after & H1 & -> & -> & H4)].
  - exact (Ho Hf).
  - pose proof (processLine_halts env txt w0 pre0 e post0) as Hh.
    rewrite H1 in Hh. destruct (Hh eq_refl Hf) as [Hv Hpost].
    cbn in Hv. subst c. destruct (H4 eq_refl) as (Ha & _).
    apply Forall_app. split; assumption.
Qed.

(** C4. When any call of the run returns an error, the run halts: what
    follows in the log is only messages, the closing of files and the
    deferred removal of the output file.  In particular no translation,
    synthesis, upload or submission call follows, neither for the record
    being processed nor for a later one. *)
Theorem failure_halts_the_run (env : Env) (pre post : list Event) (e : Event) :
  eventsOf (run env) = pre ++ e :: post ->
  isFailure e = true ->
  Forall (fun e' => isCleanup e' = true) post /\
  Forall (fun e' => isRemoteCall e' = false) post.
Proof.
  intros H Hf.
  pose proof (cleanup_after_failure env pre post e H Hf) as Hc.
  split; [exact Hc | now apply cleanup_not_remote].
Qed.

Lemma failure_halts_the_run_witness :
  let evs := eventsOf (run envUploadFails) in
  let failed :=
    EvPutObject bucketName "audioFile-20240102030409-output.mp3"
      "mp3:en:konnichiwa" (Some someError) in
  evs = take 12 evs ++ failed :: drop 13 evs /\
  isFailure failed = true /\
  Forall (fun e' => isCleanup e' = true) (drop 13 evs) /\
  Forall (fun e' => isRemoteCall e' = false) (drop 13 evs).
Proof.
  cbv zeta. split; [vm_compute; reflexivity|]. split; [reflexivity|].
  apply (failure_halts_the_run envUploadFails
           (take 12 (eventsOf (run envUploadFails)))
           (drop 13 (eventsOf (run envUploadFails)))
           (EvPutObject bucketName "audioFile-20240102030409-output.mp3"
              "mp3:en:konnichiwa" (Some someError))).
  - vm_compute; reflexivity.
  - reflexivity.
Defined.

(** ** The object submitted for transcription *)

(** C8. Every transcription job is started right after the staging file
    [key] was created, filled, uploaded to the bucket under the key [key],
    removed and closed, and its media URI is ["s3://" + bucket + "/" + key]
    for that same [key]. *)
Theorem submitted_uri_names_uploaded_object
    (env : Env) (pre post : list Event)
    (job lang format uri out : string) (r : option error) :
  eventsOf (run env) =
    pre ++ EvStartTranscriptionJob job lang format uri out r :: post ->
  exists before key body tAudio tJob,
    pre = before ++
          [EvCreate key None; EvReadFrom key None; EvSeek key;
           EvPutObject bucketName key body None;
           EvPrintln ("Uploaded audio file to S3:" +:+ " " +:+ key);
           EvRemove key None;
           EvPrintln ("Deleted local audio file:" +:+ " " +:+ key);
           EvClose key; EvNow tJob] /\
    uri = "s3://" +:+ bucketName +:+ "/" +:+ key /\
    key = audioFileNameAt tAudio /\
    out = bucketName.
Proof.
  intros H.
  destruct (run_locate env _ _ _ H)
    as [[Ho _]|(txt & w0 & c & w1 & pre0 & post0 & before & after & H1 & -> & -> & H4)].
  - discriminate Ho.
  - pose proof (processLine_submission env txt w0 pre0 job lang format uri out r post0)
      as Hs.
    rewrite H1 in Hs.
    destruct (Hs eq_refl) as (pre' & key & body & tAudio & tJob & -> & Hu & Ho & Hk & _).
    exists (before ++ pre'), key, body, tAudio, tJob.
    rewrite <- app_assoc. repeat split; assumption.
Qed.

Lemma submitted_uri_names_uploaded_object_witness :
  let evs := eventsOf (run envAllOk) in
  evs = take 18 evs ++
        EvStartTranscriptionJob "transcription-job-20240102030414" "en-US" "mp3"
          "s3://report.3q-aws-s24745201.com/audioFile-20240102030409-output.mp3"
          "report.3q-aws-s24745201.com" None :: drop 19 evs /\
  exists before key body tAudio tJob,
    take 18 evs = before ++
          [EvCreate key None; EvReadFrom key None; EvSeek key;
           EvPutObject bucketName key body None;
           EvPrintln ("Uploaded audio file to S3:" +:+ " " +:+ key);
           EvRemove key None;
           EvPrintln ("Deleted local audio file:" +:+ " " +:+ key);
           EvClose key; EvNow tJob] /\
    "s3://report.3q-aws-s24745201.com/audioFile-20240102030409-output.mp3" =
      "s3://" +:+ bucketName +:+ "/" +:+ key /\
    key = audioFileNameAt tAudio /\
    "report.3q-aws-s24745201.com" = bucketName.
Proof.
  cbv zeta. split; [vm_compute; reflexivity|].
  apply (submitted_uri_names_uploaded_object envAllOk
           (take 18 (eventsOf (run envAllOk)))
           (drop 19 (eventsOf (run envAllOk)))
           "transcription-job-20240102030414" "en-US" "mp3"
           "s3://report.3q-aws-s24745201.com/audioFile-20240102030409-output.mp3"
           "report.3q-aws-s24745201.com" None).
  vm_compute; reflexivity.
Defined.

(** ** A staging file that cannot be removed *)

(** C2, as worded, fails: with an object store that accepts the upload and
    a disk that refuses the removal of the staging file, no transcription
    job is started for the uploaded object. *)
Lemma cleanup_failure_is_escalated : ~ cleanupFailureOnlyReported envRemoveFails.
Proof.
  intros H.
  destruct (H (take 14 (eventsOf (run envRemoveFails)))
              "audioFile-20240102030409-output.mp3" "mp3:en:konnichiwa"
              (mkError "remove: permission denied")
              (drop 15 (eventsOf (run envRemoveFails))))
    as (job & lang & format & out & r & Hin).
  - vm_compute; reflexivity.
  - vm_compute. tauto.
  - vm_compute in Hin. repeat (destruct Hin as [Hin|Hin]; [discriminate Hin|]).
    exact Hin.
Qed.

(** C2, amended.  When the removal of a staging file fails, its upload has
    just succeeded; the failure is reported, the uploaded object is still in
    the object store at the end of the run, and the run is aborted: only
    cleanup follows, and no transcription job is started for the object. *)
Theorem staging_removal_failure_aborts
    (env : Env) (pre post : list Event) (key : string) (err : error) :
  eventsOf (run env) = pre ++ EvRemove key (Some err) :: post ->
  key <> outputFileName ->
  exists before body rest,
    pre = before ++
          [EvPutObject bucketName key body None;
           EvPrintln ("Uploaded audio file to S3:" +:+ " " +:+ key)] /\
    post = EvPrintln ("Error deleting local audio file:" +:+ " " +:+ Error_ err)
           :: rest /\
    objects (worldOf (run env)) !! (bucketName, key) = Some body /\
    Forall (fun e => isCleanup e = true) post /\
    Forall (fun e => isRemoteCall e = false) post.
Proof.
  intros H Hne.
  pose proof (cleanup_after_failure env pre post _ H eq_refl) as Hc.
  pose proof (cleanup_not_remote _ Hc) as Hr.
  destruct (run_locate env _ _ _ H)
    as [[Ho _]|(txt & w0 & c & w1 & pre0 & post0 & before & after & H1 & -> & -> & H4)].
  - cbn in Ho. apply String.eqb_eq in Ho. contradiction.
  - pose proof (processLine_remove_failure env txt w0 pre0 key err post0) as Hs.
    rewrite H1 in Hs.
    destruct (Hs eq_refl) as (Hv & pre' & body & -> & -> & Hobj).
    cbn in Hv, Hobj. subst c. destruct (H4 eq_refl) as (_ & Hrun & _).
    exists (before ++ pre'), body, ([EvClose key;
      EvPrintln ("Error synthesizing or uploading audio file:" +:+ " " +:+ Error_ err)]
      ++ after).
    rewrite <- app_assoc, Hrun. repeat split; assumption.
Qed.

Lemma staging_removal_failure_aborts_witness :
  let evs := eventsOf (run envRemoveFails) in
  let key := "audioFile-20240102030409-output.mp3" in
  let err := mkError "remove: permission denied" in
  evs = take 14 evs ++ EvRemove key (Some err) :: drop 15 evs /\
  key <> outputFileName /\
  exists before body rest,
    take 14 evs = before ++
          [EvPutObject bucketName key body None;
           EvPrintln ("Uploaded audio file to S3:" +:+ " " +:+ key)] /\
    drop 15 evs =
      EvPrintln ("Error deleting local audio file:" +:+ " " +:+ Error_ err) :: rest /\
    objects (worldOf (run envRemoveFails)) !! (bucketName, key) = Some body /\
    Forall (fun e => isCleanup e = true) (drop 15 evs) /\
    Forall (fun e => isRemoteCall e = false) (drop 15 evs).
Proof.
  cbv zeta. split; [vm_compute; reflexivity|]. split; [discriminate|].
  apply (staging_removal_failure_aborts envRemoveFails
           (take 14 (eventsOf (run envRemoveFails)))
           (drop 15 (eventsOf (run envRemoveFails)))
           "audioFile-20240102030409-output.mp3"
           (mkError "remove: permission denied")).
  - vm_compute; reflexivity.
  - discriminate.
Defined.

(** ** The result sink *)

(** Outside the loop [main] neither calls a remote service nor writes to
    the sink. *)
Lemma run_loop_observations (env : Env) (b : bool) (w2 : World) (evs : list Event) :
  let all := inputEvents ++ EvCreate outputFileName None ::
               evs ++ eventsOf (afterLoop env b w2) in
  translations all = translations evs /\
  sinkEntries all = sinkEntries evs /\
  callKinds all = callKinds evs.
Proof.
  destruct (afterLoop_spec env b w2) as (He & _). cbv zeta in *. rewrite He.
  unfold translations, sinkEntries, callKinds, inputEvents.
  cbn [app]. cbn [omap list_omap callKind]. rewrite !omap_app.
  destruct b; cbn [app omap list_omap callKind]; rewrite !app_nil_r; repeat split.
Qed.

Lemma okCalls_lookup_Failed (done : list (string * string)) i txt err :
  okCalls done !! i = Some (txt, Failed err) -> False.
Proof.
  unfold okCalls. rewrite list_lookup_fmap.
  destruct (done !! i); cbn; congruence.
Qed.

Lemma audioFileName_not_output (t : GoTime.Time) : audioFileNameAt t <> outputFileName.
Proof. unfold audioFileNameAt, outputFileName. intros H. discriminate H. Qed.

Lemma processLine_keeps_output (env : Env) txt w :
  Forall keepsOutputFile (eventsOf (processLine env txt w)).
Proof.
  destruct w as [n d o p]. exec.
  all: repeat constructor; apply audioFileName_not_output.
Qed.

Lemma loopRun_keeps_output (env : Env) textLines w b w' evs :
  loopRun env textLines w b w' evs -> Forall keepsOutputFile evs.
Proof.
  induction 1 as [w|txt rest w b w' evs Hnb Hrun IH|txt rest w w1 e1 Hnb Hp
                  |txt rest w w1 e1 b w2 e2 Hnb Hp Hrun IH].
  - constructor.
  - exact IH.
  - pose proof (processLine_keeps_output env txt w) as H. now rewrite Hp in H.
  - apply Forall_app. split; [|exact IH].
    pose proof (processLine_keeps_output env txt w) as H. now rewrite Hp in H.
Qed.

Lemma keepsOutputFile_isNotFlush (l : list Event) :
  Forall keepsOutputFile l -> Forall isNotFlush l.
Proof.
  intros H. eapply Forall_impl; [exact H|]. intros e. now destruct e.
Qed.

(** The records of the input are the lines the guard of the loop lets
    through. *)
Lemma filter_hasText (textLines : list string) :
  List.filter nonBlank textLines = List.filter hasText textLines.
Proof.
  induction textLines as [|l ls IH]; [reflexivity|].
  cbn [List.filter]. unfold hasText at 1.
  now rewrite <- BlankFacts.nonBlank_whitespaceOnly, IH.
Qed.

(** *** Where the bytes of the sink are

    While the output file exists, the bytes it holds followed by the bytes
    in the buffer of the writer are the entries the writer was given. *)
Lemma processLine_sink (env : Env) txt w c :
  disk w !! outputFileName = Some c ->
  GoString.len (pending w) <= GoBufio.defaultBufSize ->
  exists c',
    disk (worldOf (processLine env txt w)) !! outputFileName = Some c' /\
    c' +:+ pending (worldOf (processLine env txt w)) =
      (c +:+ pending w) +:+ joinAll (sinkEntries (eventsOf (processLine env txt w))) /\
    GoString.len (pending (worldOf (processLine env txt w))) <= GoBufio.defaultBufSize.
Proof.
  destruct w as [n d o p]. cbn [disk pending]. intros Hd Hp. exec.
  all: cbv [sinkEntries omap list_omap joinAll fold_right].
  all: rewrite !GoStringFacts.app_nil_r.
  all: try (exists c; split; [exact Hd|]; split; [reflexivity | exact Hp]).
  all: eexists; split;
    [ rewrite ?lookup_delete_ne, ?lookup_insert_ne by apply audioFileName_not_output;
      rewrite lookup_alter_eq, Hd; reflexivity
    | split; [|apply WriterFacts.writeString_buffer; exact Hp] ].
  all: rewrite !GoStringFacts.app_assoc.
  all: now rewrite WriterFacts.writeString_conserves.
Qed.

Lemma loopRun_sink (env : Env) textLines w b w' evs :
  loopRun env textLines w b w' evs ->
  forall c,
    disk w !! outputFileName = Some c ->
    GoString.len (pending w) <= GoBufio.defaultBufSize ->
    exists c',
      disk w' !! outputFileName = Some c' /\
      c' +:+ pending w' = (c +:+ pending w) +:+ joinAll (sinkEntries evs) /\
      GoString.len (pending w') <= GoBufio.defaultBufSize.
Proof.
  induction 1 as [w|txt rest w b w' evs Hnb Hrun IH|txt rest w w1 e1 Hnb Hp
                  |txt rest w w1 e1 b w2 e2 Hnb Hp Hrun IH]; intros c Hd Hlen.
  - exists c. split; [exact Hd|]. split; [|exact Hlen].
    cbn. now rewrite GoStringFacts.app_nil_r.
  - exact (IH c Hd Hlen).
  - pose proof (processLine_sink env txt w c Hd Hlen) as Hs.
    rewrite Hp in Hs. exact Hs.
  - pose proof (processLine_sink env txt w c Hd Hlen) as Hs.
    rewrite Hp in Hs. cbn [worldOf eventsOf fst snd] in Hs.
    destruct Hs as (c1 & Hd1 & Hc1 & Hlen1).
    destruct (IH c1 Hd1 Hlen1) as (c2 & Hd2 & Hc2 & Hlen2).
    exists c2. split; [exact Hd2|]. split; [|exact Hlen2].
    rewrite Hc2, Hc1. unfold sinkEntries. rewrite omap_app.
    fold (sinkEntries e1). fold (sinkEntries e2).
    now rewrite joinAll_app, GoStringFacts.app_assoc.
Qed.

(** The loop starts with an empty output file and an empty buffer. *)
Lemma startWorld_sink :
  disk startWorld !! outputFileName = Some "" /\
  GoString.len (pending startWorld) <= GoBufio.defaultBufSize.
Proof. split; [apply lookup_insert_eq | discriminate]. Qed.

(** A run that reaches its loop is the reading of the input, the creation
    of the output file, the body of [main] and the deferred function. *)
Lemma run_mainBody (env : Env) textLines :
  valueOf (getInputText env inputFileName initialWorld) = Ok textLines ->
  env_create env 1 outputFileName = None ->
  let body := mainBody env textLines startWorld in
  run env =
    (tt, worldOf (mainDeferred env (worldOf body)),
     inputEvents ++ EvCreate outputFileName None ::
       eventsOf body ++ eventsOf (mainDeferred env (worldOf body))).
Proof.
  intros H Hc. apply getInputText_Ok in H. cbv zeta.
  unfold run, main. unfold bind at 1. rewrite H.
  unfold bind at 1. unfold os_Create. cbn [calls tick initialWorld]. rewrite Hc.
  fold startWorld. unfold bind at 1. fold (mainBody env textLines).
  destruct (mainBody env textLines startWorld) as [[u w3] e3].
  cbn [worldOf eventsOf fst snd].
  destruct (mainDeferred env w3) as [[u' w4] e4]. destruct u'.
  reflexivity.
Qed.

Lemma mainBody_completed (env : Env) textLines w w2 evs :
  mainLoop env textLines w = (true, w2, evs) ->
  mainBody env textLines w =
    (tt, worldOf (writer_Flush outputFileName w2),
     evs ++ [EvFlush outputFileName (pending w2)]).
Proof. intros H. unfold mainBody, bind. rewrite H. reflexivity. Qed.

(** An entry that does not fit the buffer of the writer is in the output
    file as soon as it is written: here the file holds the 5001 bytes of
    the first record when the deferred function starts, although no flush
    was made. *)
Example entry_larger_than_buffer_is_written_at_once :
  let body := mainBody envLongTranslation ["one"; "two"] startWorld in
  disk (worldOf body) !! outputFileName = Some (longTranslation +:+ nl) /\
  pending (worldOf body) = "" /\
  Forall isNotFlush (eventsOf body) /\
  disk (worldOf (run envLongTranslation)) !! outputFileName = None.
Proof.
  cbv zeta. split; [vm_compute; reflexivity|]. split; [vm_compute; reflexivity|].
  split; [vm_compute; repeat constructor | vm_compute; reflexivity].
Qed.

(** C3, as worded, fails.  The first translation is 5000 bytes long and
    the second one fails: the entry of the first record went to the output
    file when it was written, for it does not fit the buffer of the writer,
    and the output file is removed when [main] returns; at the end of the
    run neither the file nor the buffer holds the entry. *)
Lemma sink_loses_earlier_entries : ~ sinkKeepsEarlierEntries envLongTranslation.
Proof.
  intros H.
  destruct (H 2%nat "two" someError) as (done & Hlen & _ & Hsink).
  - lia.
  - vm_compute; reflexivity.
  - assert (Hend : sinkContent (worldOf (run envLongTranslation)) = "")
      by (vm_compute; reflexivity).
    rewrite Hend in Hsink.
    destruct done as [|[src t] done]; [discriminate Hlen|].
    destruct t; discriminate Hsink.
Qed.

(** C3, amended.  When the [k]-th call to the translation service fails
    ([k >= 2]), it was made for the [k]-th line with text, the [k-1] calls
    before it succeeded, and the writer has been given exactly the [k-1]
    entries of those records, in order; the records before were processed
    in full, and nothing was asked of any service after the failure.  The
    entries are not kept: the writer is never flushed, and the run ends by
    closing the output file and asking for its removal; when that removal
    succeeds the file is not on the disk afterwards. *)
Theorem translation_failure_leaves_entries_unflushed
    (env : Env) (k : nat) (txt : string) (err : error) :
  (2 <= k)%nat ->
  translations (eventsOf (run env)) !! (k - 1)%nat = Some (txt, Failed err) ->
  exists (textLines : list string) (done : list (string * string))
         (before : list Event) (r : option error) (message : string),
    valueOf (getInputText env inputFileName initialWorld) = Ok textLines /\
    length done = (k - 1)%nat /\
    (fst <$> done) ++ [txt] = take k (List.filter hasText textLines) /\
    translations (eventsOf (run env)) = okCalls done ++ [(txt, Failed err)] /\
    sinkEntries (eventsOf (run env)) = entriesOf done /\
    length (sinkEntries (eventsOf (run env))) = (k - 1)%nat /\
    callKinds (eventsOf (run env)) =
      flat_map (fun _ => fullRecord) done ++ [Translate] /\
    Forall isNotFlush (eventsOf (run env)) /\
    eventsOf (run env) =
      before ++
      [EvClose outputFileName; EvRemove outputFileName r; EvPrintln message] /\
    (r = None -> disk (worldOf (run env)) !! outputFileName = None).
Proof.
  intros Hk Hlook.
  destruct (valueOf (getInputText env inputFileName initialWorld))
    as [textLines|err0] eqn:Hget.
  2: { rewrite (run_input_failure env err0 Hget) in Hlook.
       destruct (getInputText_Failed env _ _ _ Hget) as [_ [He|He]];
         rewrite He in Hlook; cbn in Hlook;
         rewrite lookup_nil in Hlook; discriminate Hlook. }
  destruct (env_create env 1 outputFileName) as [err0|] eqn:Hc.
  { rewrite (run_create_failure env textLines err0 Hget Hc) in Hlook.
    cbn in Hlook. rewrite lookup_nil in Hlook. discriminate Hlook. }
  destruct (run_loop env textLines Hget Hc) as (b & w2 & evs & Hloop & Hrun).
  destruct (run_loop_observations env b w2 evs) as (Ht & Hs & Hck).
  cbv zeta in Ht, Hs, Hck.
  rewrite Hrun in Hlook |- *. cbn [eventsOf worldOf fst snd] in Hlook |- *.
  rewrite Ht in Hlook. rewrite Ht, Hs, Hck.
  destruct (loopRun_summary env _ _ _ _ _ Hloop) as (done & Hsum).
  destruct b.
  { destruct Hsum as (H1 & _). rewrite H1 in Hlook.
    now apply okCalls_lookup_Failed in Hlook. }
  destruct Hsum as (txt' & r' & H1 & H2 & H3).
  rewrite H1 in Hlook. apply lookup_app_Some in Hlook.
  destruct Hlook as [Hlook|[Hlen Hlook]];
    [now apply okCalls_lookup_Failed in Hlook|].
  apply list_lookup_singleton_Some in Hlook. destruct Hlook as [Hi [= -> ->]].
  unfold okCalls in Hlen, Hi. rewrite length_fmap in Hlen, Hi.
  assert (Hk' : k = S (length done)) by lia.
  destruct H3 as [H3 H4].
  destruct (afterLoop_spec env false w2) as (He & _ & _ & Hdisk).
  cbv zeta in He, Hdisk. cbn [app] in He.
  exists textLines, done,
    (inputEvents ++ EvCreate outputFileName None :: evs),
    (env_remove env (calls w2) outputFileName).
  eexists. rewrite H1, H3, H4, He, <- filter_hasText.
  split; [reflexivity|]. split; [lia|]. split; [now rewrite Hk'|].
  split; [reflexivity|]. split; [reflexivity|].
  split; [unfold entriesOf; rewrite length_fmap; lia|].
  split; [reflexivity|].
  split.
  { unfold inputEvents. cbn [app]. repeat (constructor; [exact I|]).
    apply Forall_app. split; [|repeat constructor].
    apply keepsOutputFile_isNotFlush.
    now apply loopRun_keeps_output with env textLines startWorld false w2. }
  split; [|exact Hdisk].
  unfold inputEvents. cbn [app]. reflexivity.
Qed.

Lemma translation_failure_leaves_entries_unflushed_witness :
  (2 <= 2)%nat /\
  translations (eventsOf (run envSecondTranslationFails)) !! (2 - 1)%nat =
    Some ("two", Failed someError) /\
  exists (textLines : list string) (done : list (string * string))
         (before : list Event) (r : option error) (message : string),
    valueOf (getInputText envSecondTranslationFails inputFileName initialWorld) =
      Ok textLines /\
    length done = (2 - 1)%nat /\
    (fst <$> done) ++ ["two"] = take 2 (List.filter hasText textLines) /\
    translations (eventsOf (run envSecondTranslationFails)) =
      okCalls done ++ [("two", Failed someError)] /\
    sinkEntries (eventsOf (run envSecondTranslationFails)) = entriesOf done /\
    length (sinkEntries (eventsOf (run envSecondTranslationFails))) = (2 - 1)%nat /\
    callKinds (eventsOf (run envSecondTranslationFails)) =
      flat_map (fun _ => fullRecord) done ++ [Translate] /\
    Forall isNotFlush (eventsOf (run envSecondTranslationFails)) /\
    eventsOf (run envSecondTranslationFails) =
      before ++
      [EvClose outputFileName; EvRemove outputFileName r; EvPrintln message] /\
    (r = None ->
     disk (worldOf (run envSecondTranslationFails)) !! outputFileName = None).
Proof.
  split; [lia|]. split; [vm_compute; reflexivity|].
  apply (translation_failure_leaves_entries_unflushed
           envSecondTranslationFails 2 "two" someError).
  - lia.
  - vm_compute; reflexivity.
Defined.

(** C5. When the input is read and every call succeeds, the translation
    service is called once for each line with text, in input order, and for
    no other line: a line that is empty or holds white space only gets no
    call of any kind and no entry.  The sink receives one entry per line
    with text, the translation followed by a newline, in the same order,
    and each of these lines gets its four remote calls.  When the loop
    ends, the bytes of the entries are in the output file for their first
    part and in the buffer of the writer for the rest.  The body of [main]
    ends with the [Flush], which hands the buffered bytes to the file;
    after it the file holds exactly the entries, in order, and the buffer
    is empty.  Only then does the deferred function close and remove the
    file. *)
Theorem successful_run_fills_and_flushes_sink (env : Env) (textLines : list string) :
  valueOf (getInputText env inputFileName initialWorld) = Ok textLines ->
  allSucceed env ->
  let loop := mainLoop env textLines startWorld in
  let body := mainBody env textLines startWorld in
  exists (done : list (string * string)) (before : list Event)
         (onFile buffered : string),
    fst <$> done = List.filter hasText textLines /\
    translations (eventsOf (run env)) = okCalls done /\
    sinkEntries (eventsOf (run env)) = entriesOf done /\
    length (sinkEntries (eventsOf (run env))) =
      length (List.filter hasText textLines) /\
    callKinds (eventsOf (run env)) = flat_map (fun _ => fullRecord) done /\
    run env =
      (tt, worldOf (mainDeferred env (worldOf body)),
       inputEvents ++ EvCreate outputFileName None ::
         eventsOf body ++ eventsOf (mainDeferred env (worldOf body))) /\
    eventsOf (run env) =
      before ++
      [EvFlush outputFileName buffered;
       EvClose outputFileName;
       EvRemove outputFileName None;
       EvPrintln ("Deleted local text file:" +:+ " " +:+ outputFileName)] /\
    Forall keepsOutputFile before /\
    disk (worldOf loop) !! outputFileName = Some onFile /\
    pending (worldOf loop) = buffered /\
    onFile +:+ buffered = joinAll (entriesOf done) /\
    disk (worldOf body) !! outputFileName = Some (joinAll (entriesOf done)) /\
    pending (worldOf body) = "" /\
    disk (worldOf (run env)) !! outputFileName = None.
Proof.
  intros Hget Hall. cbv zeta.
  pose proof Hall as (Hcreate & Hremove & _).
  pose proof (run_mainBody env textLines Hget (Hcreate _ _)) as Hrun.
  cbv zeta in Hrun.
  pose proof (mainLoop_loopRun env textLines startWorld) as Hloop.
  destruct (mainLoop env textLines startWorld) as [[b w2] evs] eqn:Hm.
  cbn [valueOf worldOf eventsOf fst snd] in Hloop.
  pose proof (loopRun_allSucceed env _ _ _ _ _ Hall Hloop) as ->.
  rewrite (mainBody_completed env _ _ _ _ Hm) in Hrun |- *.
  destruct (loopRun_summary env _ _ _ _ _ Hloop) as (done & H1 & H2 & H3 & H4).
  destruct startWorld_sink as [Hd0 Hl0].
  destruct (loopRun_sink env _ _ _ _ _ Hloop "" Hd0 Hl0) as (c & Hd & Hc & _).
  rewrite H3 in Hc. change ("" +:+ pending startWorld) with "" in Hc.
  rewrite GoStringFacts.app_nil_l in Hc.
  destruct (run_loop_observations env true w2 evs) as (Ht & Hs & Hck).
  cbv zeta in Ht, Hs, Hck.
  assert (He : eventsOf (afterLoop env true w2) =
               [EvFlush outputFileName (pending w2); EvClose outputFileName;
                EvRemove outputFileName None;
                EvPrintln ("Deleted local text file:" +:+ " " +:+ outputFileName)]).
  { destruct (afterLoop_spec env true w2) as (He & _). cbv zeta in He.
    now rewrite Hremove in He. }
  assert (Hd' : eventsOf (mainDeferred env (worldOf (writer_Flush outputFileName w2))) =
                [EvClose outputFileName; EvRemove outputFileName None;
                 EvPrintln ("Deleted local text file:" +:+ " " +:+ outputFileName)]).
  { unfold mainDeferred, bind, file_Close, os_Remove. rewrite Hremove. reflexivity. }
  assert (Hevs : eventsOf (run env) =
                 inputEvents ++ EvCreate outputFileName None ::
                   evs ++ eventsOf (afterLoop env true w2)).
  { rewrite Hrun, He. cbn [eventsOf worldOf fst snd]. rewrite Hd'.
    now rewrite <- app_assoc. }
  exists done, (inputEvents ++ EvCreate outputFileName None :: evs),
    c, (pending w2).
  rewrite Hevs, Ht, Hs, Hck, H1, H3, H4, <- filter_hasText.
  split; [exact H2|]. split; [reflexivity|]. split; [reflexivity|].
  split; [unfold entriesOf; rewrite length_fmap, <- H2, length_fmap; reflexivity|].
  split; [reflexivity|].
  split; [exact Hrun|].
  split; [rewrite He; unfold inputEvents; cbn [app]; reflexivity|].
  split.
  { unfold inputEvents. cbn [app]. repeat (constructor; [exact I|]).
    now apply loopRun_keeps_output with env textLines startWorld true w2. }
  split; [exact Hd|]. split; [reflexivity|].
  split; [exact Hc|].
  split.
  { unfold writer_Flush. cbn [worldOf fst snd setPending setDisk disk].
    now rewrite lookup_alter_eq, Hd, <- Hc. }
  split; [reflexivity|].
  rewrite Hrun. cbn [worldOf fst snd].
  unfold mainDeferred, bind, file_Close, os_Remove. rewrite Hremove.
  cbn [worldOf fst snd setDisk tick disk]. apply lookup_delete_eq.
Qed.

Lemma successful_run_fills_and_flushes_sink_witness :
  let textLines := ["konnichiwa"; "  "; "arigatou"] in
  let loop := mainLoop envAllOk textLines startWorld in
  let body := mainBody envAllOk textLines startWorld in
  (valueOf (getInputText envAllOk inputFileName initialWorld) = Ok textLines /\
   allSucceed envAllOk /\
   List.filter hasText textLines = ["konnichiwa"; "arigatou"]) /\
  exists (done : list (string * string)) (before : list Event)
         (onFile buffered : string),
    fst <$> done = List.filter hasText textLines /\
    translations (eventsOf (run envAllOk)) = okCalls done /\
    sinkEntries (eventsOf (run envAllOk)) = entriesOf done /\
    length (sinkEntries (eventsOf (run envAllOk))) =
      length (List.filter hasText textLines) /\
    callKinds (eventsOf (run envAllOk)) = flat_map (fun _ => fullRecord) done /\
    run envAllOk =
      (tt, worldOf (mainDeferred envAllOk (worldOf body)),
       inputEvents ++ EvCreate outputFileName None ::
         eventsOf body ++ eventsOf (mainDeferred envAllOk (worldOf body))) /\
    eventsOf (run envAllOk) =
      before ++
      [EvFlush outputFileName buffered;
       EvClose outputFileName;
       EvRemove outputFileName None;
       EvPrintln ("Deleted local text file:" +:+ " " +:+ outputFileName)] /\
    Forall keepsOutputFile before /\
    disk (worldOf loop) !! outputFileName = Some onFile /\
    pending (worldOf loop) = buffered /\
    onFile +:+ buffered = joinAll (entriesOf done) /\
    disk (worldOf body) !! outputFileName = Some (joinAll (entriesOf done)) /\
    pending (worldOf body) = "" /\
    disk (worldOf (run envAllOk)) !! outputFileName = None.
Proof.
  assert (Hall : allSucceed envAllOk).
  { repeat split; intros; try reflexivity; eexists; reflexivity. }
  cbv zeta. split.
  { split; [vm_compute; reflexivity|]. split; [exact Hall|].
    vm_compute; reflexivity. }
  apply (successful_run_fills_and_flushes_sink envAllOk
           ["konnichiwa"; "  "; "arigatou"]).
  - vm_compute; reflexivity.
  - exact Hall.
Defined.

(** ** The names of the artifacts *)

(** C6. For every instant the audio name is [audioFile-], the instant as
    YYYYMMDDHHMMSS, and [-output.mp3]; the job name is [transcription-job-]
    and the same stamp.  The instant 2024-01-02T03:04:05 gives
    [audioFile-20240102030405-output.mp3] and
    [transcription-job-20240102030405]. *)
Theorem names_are_prefix_stamp_suffix (now : GoTime.Time) :
  audioFileNameAt now =
    "audioFile-" +:+ GoTime.yyyymmddhhmmss now +:+ "-output.mp3" /\
  transcriptionJobNameAt now =
    "transcription-job-" +:+ GoTime.yyyymmddhhmmss now /\
  (let t := instant_20240102_030405 in
   (GoTime.Year t, GoTime.Month t, GoTime.Day t,
    GoTime.Hour t, GoTime.Minute t, GoTime.Second t) = (2024, 1, 2, 3, 4, 5) /\
   audioFileNameAt t = "audioFile-20240102030405-output.mp3" /\
   transcriptionJobNameAt t = "transcription-job-20240102030405").
Proof.
  unfold audioFileNameAt, transcriptionJobNameAt.
  rewrite NameFacts.Format_timeLayout.
  repeat split; vm_compute; reflexivity.
Qed.

(** C7. The names are functions of the instant alone, and two instants
    within the same second give the same audio name and the same job
    name. *)
Theorem same_second_same_names (t1 t2 : GoTime.Time) :
  GoTime.sameSecond t1 t2 ->
  audioFileNameAt t1 = audioFileNameAt t2 /\
  transcriptionJobNameAt t1 = transcriptionJobNameAt t2.
Proof.
  intros H. apply NameFacts.sameSecond_localSec in H.
  unfold audioFileNameAt, transcriptionJobNameAt.
  now rewrite (NameFacts.Format_localSec t1 t2 timeLayout H).
Qed.

Lemma same_second_same_names_witness :
  let t1 := GoTime.mkTime 1704164645 0 0 in
  let t2 := GoTime.mkTime 1704164645 999999999 0 in
  GoTime.sameSecond t1 t2 /\
  audioFileNameAt t1 = audioFileNameAt t2 /\
  transcriptionJobNameAt t1 = transcriptionJobNameAt t2.
Proof.
  cbv zeta. split; [split; reflexivity|].
  apply (same_second_same_names (GoTime.mkTime 1704164645 0 0)
           (GoTime.mkTime 1704164645 999999999 0)).
  split; reflexivity.
Defined.

(** C10. In the processing of one line the audio name comes from the clock
    reading taken when the staging file is created and the job name from a
    later reading taken at submission; and there is a run in which the
    stamp in a record's job name differs from the stamp in the name of the
    audio object the job transcribes. *)
Theorem names_come_from_two_clock_readings :
  (forall (env : Env) txt w pre job lang format uri out r post,
      eventsOf (processLine env txt w) =
        pre ++ EvStartTranscriptionJob job lang format uri out r :: post ->
      uri = mediaFileUri bucketName (audioFileNameAt (env_now env (calls w + 2))) /\
      job = transcriptionJobNameAt (env_now env (calls w + 7))) /\
  (exists (env : Env) (tAudio tJob : GoTime.Time) lang format out r,
      In (EvStartTranscriptionJob (transcriptionJobNameAt tJob) lang format
            (mediaFileUri bucketName (audioFileNameAt tAudio)) out r)
         (eventsOf (run env)) /\
      GoTime.Format tAudio timeLayout <> GoTime.Format tJob timeLayout).
Proof.
  split.
  - intros env txt w pre job lang format uri out r post H.
    destruct (processLine_submission env txt w pre job lang format uri out r post H)
      as (pre' & key & body & tAudio & tJob & _ & Hu & _ & Hk & Hj & Ha & Ht).
    subst. split; reflexivity.
  - exists envAllOk, (clockFrom 1704164645 4), (clockFrom 1704164645 9),
      "en-US", "mp3", bucketName, None.
    split; [vm_compute; tauto | vm_compute; discriminate].
Qed.

Lemma names_come_from_two_clock_readings_witness :
  let evs := eventsOf (processLine envAllOk "konnichiwa" startWorld) in
  evs = take 14 evs ++
        EvStartTranscriptionJob "transcription-job-20240102030414" "en-US" "mp3"
          "s3://report.3q-aws-s24745201.com/audioFile-20240102030409-output.mp3"
          "report.3q-aws-s24745201.com" None :: drop 15 evs /\
  "s3://report.3q-aws-s24745201.com/audioFile-20240102030409-output.mp3" =
    mediaFileUri bucketName
      (audioFileNameAt (env_now envAllOk (calls startWorld + 2))) /\
  "transcription-job-20240102030414" =
    transcriptionJobNameAt (env_now envAllOk (calls startWorld + 7)).
Proof.
  cbv zeta. split; [vm_compute; reflexivity|].
  apply (proj1 names_come_from_two_clock_readings envAllOk "konnichiwa" startWorld
           (take 14 (eventsOf (processLine envAllOk "konnichiwa" startWorld)))
           "transcription-job-20240102030414" "en-US" "mp3"
           "s3://report.3q-aws-s24745201.com/audioFile-20240102030409-output.mp3"
           "report.3q-aws-s24745201.com" None
           (drop 15 (eventsOf (processLine envAllOk "konnichiwa" startWorld)))).
  vm_compute; reflexivity.
Defined.

(** ** The staging file *)

Lemma staging_file_removed_after_upload (env : Env) text bucket w name :
  valueOf (synthesizeSpeechAndUpload env text bucket w) = Ok name ->
  disk (worldOf (synthesizeSpeechAndUpload env text bucket w)) !! name = None.
Proof.
  destruct w as [n d o p]. exec; intros [= <-]. apply lookup_delete_eq.
Qed.

Lemma staging_file_kept_on_upload_failure (env : Env) text bucket w audio err :
  let name := audioFileNameAt (env_now env (S (calls w))) in
  env_synthesize env (calls w) text = Ok audio ->
  env_create env (S (S (calls w))) name = None ->
  env_readFrom env (S (S (S (calls w)))) name = None ->
  env_putObject env (S (S (S (S (calls w))))) bucket name = Some err ->
  valueOf (synthesizeSpeechAndUpload env text bucket w) = Failed err /\
  disk (worldOf (synthesizeSpeechAndUpload env text bucket w)) !! name = Some audio /\
  Forall (fun e => match e with EvRemove _ _ => False | _ => True end)
    (eventsOf (synthesizeSpeechAndUpload env text bucket w)).
Proof.
  destruct w as [n d o p]. cbv zeta. cbn [calls]. intros Hs Hc Hr Hp.
  unfold_prog. rewrite Hs. unfold_prog. rewrite Hc. unfold_prog. rewrite Hr.
  unfold_prog. rewrite Hp.
  cbn [valueOf worldOf eventsOf fst snd app calls disk objects pending].
  split; [reflexivity|]. split; [apply lookup_insert_eq|]. repeat constructor.
Qed.

(** C1 fails on the code.  With an object store that refuses the upload of
    the first record, the staging file of that record is still on the disk,
    with the synthesized audio in it, when the run is over: nothing removes
    it after the failed upload. *)
Theorem staging_file_left_after_failed_upload :
  let r := run envUploadFails in
  let name := "audioFile-20240102030409-output.mp3" in
  In (EvPutObject bucketName name "mp3:en:konnichiwa" (Some someError)) (eventsOf r) /\
  Forall (fun e => match e with
                   | EvRemove file _ => file = outputFileName
                   | _ => True
                   end) (eventsOf r) /\
  disk (worldOf r) !! name = Some "mp3:en:konnichiwa".
Proof.
  cbv zeta. split; [vm_compute; tauto|]. split.
  - vm_compute. repeat constructor.
  - vm_compute. reflexivity.
Qed.

(** ** Reading the input *)

Module ScanFacts.
Import GoString GoStringFacts GoBufio.

Lemma cutLine_line (l rest : string) :
  hasByte newline l = false ->
  cutLine (l +:+ String newline rest) = (l, Some rest).
Proof.
  induction l as [|c l IH]; intros H.
  - cbn. reflexivity.
  - cbn [hasByte] in H. apply orb_false_iff in H. destruct H as [Hc Hl].
    rewrite app_cons. cbn [cutLine]. rewrite Hc, (IH Hl). reflexivity.
Qed.

Lemma joinLines_cons (l : string) (ls : list string) :
  joinLines (l :: ls) = l +:+ String newline (joinLines ls).
Proof.
  unfold joinLines. cbn [fmap list_fmap joinAll fold_right].
  unfold nl. now rewrite app_assoc.
Qed.

Lemma line_not_empty (l rest : string) :
  exists c s, l +:+ String newline rest = String c s.
Proof.
  destruct l as [|c l];
    [exists newline, rest | exists c, (l +:+ String newline rest)];
    reflexivity.
Qed.

Lemma length_joinLines (ls : list string) :
  (length ls <= String.length (joinLines ls))%nat.
Proof.
  induction ls as [|l ls IH]; [cbn; lia|].
  rewrite joinLines_cons, length_app. cbn [String.length length]. lia.
Qed.

Lemma cutLine_no_newline (l : string) :
  hasByte newline l = false -> cutLine l = (l, None).
Proof.
  induction l as [|c l IH]; intros H; [reflexivity|].
  cbn [hasByte] in H. apply orb_false_iff in H. destruct H as [Hc Hl].
  cbn [cutLine]. now rewrite Hc, (IH Hl).
Qed.

End ScanFacts.

(** *** Lines with and without a carriage return *)

Module LineFacts.
Import GoString GoStringFacts GoBufio ScanFacts.

(** [dropCR] of the scanner takes away the carriage return a line ends
    with, and nothing else. *)
Lemma dropCR_withoutCR (l : string) : dropCR l = withoutCR l.
Proof.
  induction l as [|c l IH]; [reflexivity|].
  destruct l as [|c' l].
  - unfold withoutCR. cbn. now destruct (Ascii.eqb c cr).
  - change (dropCR (String c (String c' l)))
      with (String c (dropCR (String c' l))).
    rewrite IH. unfold withoutCR.
    change (endsWith cr (String c (String c' l)))
      with (endsWith cr (String c' l)).
    destruct (endsWith cr (String c' l)); [|reflexivity].
    cbn [String.length].
    replace (S (S (String.length l)) - 1)%nat with (S (String.length l)) by lia.
    replace (S (String.length l) - 1)%nat with (String.length l) by lia.
    reflexivity.
Qed.

Lemma fitsScanner_spec (l : string) :
  fitsScanner l = true ->
  hasByte newline l = false /\ (MaxScanTokenSize <=? len l) = false.
Proof.
  unfold fitsScanner. intros H. apply andb_true_iff in H. destruct H as [Hnl Hlen].
  apply negb_true_iff in Hnl. apply Z.ltb_lt in Hlen.
  split; [exact Hnl | apply Z.leb_gt; exact Hlen].
Qed.

(** Scanning newline-terminated lines gives each of them back, without
    the carriage return it may end with. *)
Lemma scanLoop_lines (ls : list string) :
  forall fuel, (length ls <= fuel)%nat ->
  forallb fitsScanner ls = true ->
  scanLoop fuel (joinLines ls) = (withoutCR <$> ls, None).
Proof.
  induction ls as [|l ls IH]; intros fuel Hfuel Hok.
  - destruct fuel; reflexivity.
  - destruct fuel as [|fuel]; [cbn in Hfuel; lia|].
    cbn [forallb] in Hok. apply andb_true_iff in Hok. destruct Hok as [Hl Hls].
    destruct (fitsScanner_spec l Hl) as [Hnl Hlen].
    rewrite joinLines_cons.
    destruct (line_not_empty l (joinLines ls)) as (c & s & Hcs).
    cbn [scanLoop]. rewrite Hcs, <- Hcs.
    rewrite (cutLine_line l _ Hnl), Hlen.
    rewrite (IH fuel) by (cbn in Hfuel; lia || assumption).
    now rewrite dropCR_withoutCR.
Qed.

Lemma scanLoop_lines_last (ls : list string) (last : string) :
  forall fuel, (length ls < fuel)%nat ->
  forallb fitsScanner ls = true ->
  fitsScanner last = true ->
  last <> "" ->
  scanLoop fuel (joinLines ls +:+ last) =
    ((withoutCR <$> ls) ++ [withoutCR last], None).
Proof.
  intros fuel Hfuel Hok Hlast Hne. revert fuel Hfuel Hok.
  destruct (fitsScanner_spec last Hlast) as [Hnl Hlen].
  induction ls as [|l ls IH]; intros fuel Hfuel Hok.
  - destruct fuel as [|fuel]; [cbn in Hfuel; lia|].
    change (joinLines [] +:+ last) with last.
    destruct last as [|c s]; [congruence|].
    cbn [scanLoop fmap list_fmap app]. rewrite (cutLine_no_newline _ Hnl), Hlen.
    now rewrite dropCR_withoutCR.
  - destruct fuel as [|fuel]; [cbn in Hfuel; lia|].
    cbn [forallb] in Hok. apply andb_true_iff in Hok. destruct Hok as [Hl Hls].
    destruct (fitsScanner_spec l Hl) as [Hnl' Hlen'].
    rewrite joinLines_cons, app_assoc, app_cons.
    destruct (line_not_empty l (joinLines ls +:+ last)) as (c & s & Hcs).
    cbn [scanLoop]. rewrite Hcs, <- Hcs.
    rewrite (cutLine_line l _ Hnl'), Hlen'.
    rewrite (IH fuel) by (cbn in Hfuel; lia || assumption).
    now rewrite dropCR_withoutCR.
Qed.

Lemma cutLine_fst (l tail : string) :
  hasByte newline l = false ->
  tail = "" \/ (exists rest, tail = String newline rest) ->
  fst (cutLine (l +:+ tail)) = l.
Proof.
  intros Hnl [->|[rest ->]].
  - now rewrite app_nil_r, (cutLine_no_newline l Hnl).
  - now rewrite (cutLine_line l rest Hnl).
Qed.

(** A line of 65536 bytes or more stops the scan with an error, wherever
    the line is in the file and whether or not a newline ends it. *)
Lemma scanLoop_too_long (before : list string) (long tail : string) :
  forallb fitsScanner before = true ->
  hasByte newline long = false ->
  MaxScanTokenSize <= len long ->
  tail = "" \/ (exists rest, tail = String newline rest) ->
  forall fuel, (length before < fuel)%nat ->
  exists ls, scanLoop fuel (joinLines before +:+ long +:+ tail)
             = (ls, Some ErrTooLong).
Proof.
  intros Hok Hnl Hlen Htail.
  induction before as [|l ls IH]; intros fuel Hfuel.
  - destruct fuel as [|fuel]; [cbn in Hfuel; lia|].
    change (joinLines [] +:+ long +:+ tail) with (long +:+ tail).
    pose proof (cutLine_fst long tail Hnl Htail) as Hcut.
    destruct long as [|c long];
      [unfold MaxScanTokenSize, len in Hlen; cbn in Hlen; lia|].
    rewrite app_cons in Hcut |- *. cbn [scanLoop].
    destruct (cutLine (String c (long +:+ tail))) as [line rest].
    cbn [fst] in Hcut. subst line.
    replace (MaxScanTokenSize <=? len (String c long)) with true
      by (symmetry; apply Z.leb_le; exact Hlen).
    now eexists.
  - destruct fuel as [|fuel]; [cbn in Hfuel; lia|].
    cbn [forallb] in Hok. apply andb_true_iff in Hok. destruct Hok as [Hl Hls].
    destruct (fitsScanner_spec l Hl) as [Hnl' Hlen'].
    rewrite joinLines_cons, app_assoc, app_cons.
    destruct (line_not_empty l (joinLines ls +:+ long +:+ tail))
      as (c & s & Hcs).
    cbn [scanLoop]. rewrite Hcs, <- Hcs. rewrite (cutLine_line l _ Hnl'), Hlen'.
    destruct (IH Hls fuel) as [ls' Hls']; [cbn in Hfuel; lia|].
    rewrite Hls'. now eexists.
Qed.

End LineFacts.

(** C9, as worded, fails.  [input.txt] opens and is read to its end
    without error, and its second line is 65536 bytes long: [getInputText]
    does not return the lines of the file, it returns the error of the
    scanner, whose buffer the line does not fit. *)
Lemma too_long_line_is_not_returned : ~ returnsEveryLine envTooLongLine.
Proof.
  intros H.
  specialize (H (mkInputFile (joinLines ["konnichiwa"; longLine; "arigatou"]) None)
                ["konnichiwa"; longLine; "arigatou"] eq_refl eq_refl eq_refl).
  assert (Hv : valueOf (getInputText envTooLongLine inputFileName initialWorld) =
               Failed GoBufio.ErrTooLong) by (vm_compute; reflexivity).
  rewrite Hv in H.
  assert (Hn : Failed GoBufio.ErrTooLong <> Ok ["konnichiwa"; longLine; "arigatou"])
    by discriminate.
  apply Hn, H.
  repeat constructor; vm_compute; reflexivity.
Qed.

(** C9, amended.  [getInputText] returns the lines of the file, blank and
    whitespace-only ones included, all of them and in file order, each
    without its newline and without the carriage return it ends with, if
    it ends with one, whether or not the last line is ended by a newline,
    provided every line is shorter than 65536 bytes.  It returns
    an error, and no line, when a line has 65536 bytes or more, when the
    file cannot be opened and when reading it fails; and when it returns an
    error, [main] prints the error and returns, having called no remote
    service. *)
Theorem line_source_returns_lines_within_limit (env : Env) :
  (forall w path file rawLines,
      env_open env (calls w) path = Ok file ->
      readErr file = None ->
      content file = joinLines rawLines ->
      forallb fitsScanner rawLines = true ->
      valueOf (getInputText env path w) = Ok (withoutCR <$> rawLines)) /\
  (forall w path file rawLines lastLine,
      env_open env (calls w) path = Ok file ->
      readErr file = None ->
      content file = joinLines rawLines +:+ lastLine ->
      forallb fitsScanner rawLines = true ->
      fitsScanner lastLine = true ->
      lastLine <> "" ->
      valueOf (getInputText env path w) =
        Ok ((withoutCR <$> rawLines) ++ [withoutCR lastLine])) /\
  (forall w path file before long tail,
      env_open env (calls w) path = Ok file ->
      content file = joinLines before +:+ long +:+ tail ->
      forallb fitsScanner before = true ->
      hasByte GoBufio.newline long = false ->
      65536 <= GoString.len long ->
      tail = "" \/ (exists rest, tail = String GoBufio.newline rest) ->
      valueOf (getInputText env path w) = Failed GoBufio.ErrTooLong) /\
  (forall w path err,
      env_open env (calls w) path = Failed err ->
      valueOf (getInputText env path w) = Failed err) /\
  (forall w path file err,
      env_open env (calls w) path = Ok file ->
      readErr file = Some err ->
      exists err', valueOf (getInputText env path w) = Failed err') /\
  (forall err,
      valueOf (getInputText env inputFileName initialWorld) = Failed err ->
      eventsOf (run env) =
        eventsOf (getInputText env inputFileName initialWorld) ++
        [EvPrintln ("Error reading input file:" +:+ " " +:+ Error_ err)] /\
      Forall (fun e => isRemoteCall e = false) (eventsOf (run env)) /\
      Forall (fun e => match e with EvCreate _ _ => False | _ => True end)
        (eventsOf (run env))).
Proof.
  repeat split.
  - intros w path file rawLines Ho Hr Hc Hl. unfold getInputText.
    rewrite Ho, Hc. unfold GoBufio.scanAll.
    rewrite (LineFacts.scanLoop_lines rawLines _ (ScanFacts.length_joinLines _) Hl), Hr.
    reflexivity.
  - intros w path file rawLines lastLine Ho Hr Hc Hl Hlast Hne. unfold getInputText.
    rewrite Ho, Hc. unfold GoBufio.scanAll.
    rewrite (LineFacts.scanLoop_lines_last rawLines lastLine), Hr;
      try assumption; [reflexivity|].
    rewrite GoStringFacts.length_app. pose proof (ScanFacts.length_joinLines rawLines).
    destruct lastLine; [congruence | cbn [String.length]; lia].
  - intros w path file before long tail Ho Hc Hb Hnl Hlen Htail. unfold getInputText.
    rewrite Ho, Hc. unfold GoBufio.scanAll.
    destruct (LineFacts.scanLoop_too_long before long tail Hb Hnl Hlen Htail
                (String.length (joinLines before +:+ long +:+ tail)))
      as [ls Hls].
    { rewrite !GoStringFacts.length_app.
      pose proof (ScanFacts.length_joinLines before).
      unfold GoString.len in Hlen. lia. }
    rewrite Hls. reflexivity.
  - intros w path err Ho. unfold getInputText. rewrite Ho. reflexivity.
  - intros w path file err Ho Hr. unfold getInputText. rewrite Ho, Hr.
    destruct (GoBufio.scanAll (content file)) as [ls [serr|]]; eexists; reflexivity.
  - rewrite (run_input_failure env err H). reflexivity.
  - rewrite (run_input_failure env err H). cbn [eventsOf snd].
    destruct (getInputText_Failed env _ _ _ H) as [_ [He|He]]; rewrite He;
      repeat constructor.
  - rewrite (run_input_failure env err H). cbn [eventsOf snd].
    destruct (getInputText_Failed env _ _ _ H) as [_ [He|He]]; rewrite He;
      repeat constructor.
Qed.

Lemma line_source_returns_lines_within_limit_witness :
  (valueOf (getInputText envAllOk inputFileName initialWorld) =
     Ok (withoutCR <$> ["konnichiwa"; "  "; "arigatou"]) /\
   withoutCR <$> ["konnichiwa"; "  "; "arigatou"] =
     ["konnichiwa"; "  "; "arigatou"]) /\
  (valueOf (getInputText envCRLFBlank inputFileName initialWorld) =
     Ok (withoutCR <$> ["konnichiwa" +:+ String GoBufio.cr "";
                        "  " +:+ String GoBufio.cr ""]) /\
   withoutCR <$> ["konnichiwa" +:+ String GoBufio.cr "";
                  "  " +:+ String GoBufio.cr ""] = ["konnichiwa"; "  "]) /\
  (valueOf (getInputText envNoFinalNewline inputFileName initialWorld) =
     Ok ((withoutCR <$> ["konnichiwa"; ""]) ++ [withoutCR "arigatou"])) /\
  (valueOf (getInputText envLongLine inputFileName initialWorld) =
     Failed GoBufio.ErrTooLong) /\
  (valueOf (getInputText envNoInput inputFileName initialWorld) =
     Failed (mkError "open ./input.txt: no such file or directory")) /\
  (exists err', valueOf (getInputText envReadError inputFileName initialWorld) =
                  Failed err') /\
  Forall (fun e => isRemoteCall e = false) (eventsOf (run envNoInput)).
Proof.
  split; [|split; [|split; [|split; [|split; [|split]]]]].
  - split; [|reflexivity].
    apply (proj1 (line_source_returns_lines_within_limit envAllOk)
             initialWorld inputFileName
             (mkInputFile threeLines None) ["konnichiwa"; "  "; "arigatou"]);
      vm_compute; reflexivity.
  - split; [|reflexivity].
    apply (proj1 (line_source_returns_lines_within_limit envCRLFBlank)
             initialWorld inputFileName
             (mkInputFile (joinCRLF ["konnichiwa"; "  "]) None)
             ["konnichiwa" +:+ String GoBufio.cr ""; "  " +:+ String GoBufio.cr ""]);
      vm_compute; reflexivity.
  - apply (proj1 (proj2 (line_source_returns_lines_within_limit envNoFinalNewline))
             initialWorld inputFileName
             (mkInputFile ("konnichiwa" +:+ nl +:+ nl +:+ "arigatou") None)
             ["konnichiwa"; ""] "arigatou");
      try (vm_compute; reflexivity); discriminate.
  - apply (proj1 (proj2 (proj2 (line_source_returns_lines_within_limit envLongLine)))
             initialWorld inputFileName
             (mkInputFile (joinLines ["konnichiwa"] +:+ longLine +:+
                           String GoBufio.newline "arigatou") None)
             ["konnichiwa"] longLine (String GoBufio.newline "arigatou")).
    + reflexivity.
    + reflexivity.
    + reflexivity.
    + vm_compute; reflexivity.
    + vm_compute; discriminate.
    + right. eexists. reflexivity.
  - apply (proj1 (proj2 (proj2 (proj2 (line_source_returns_lines_within_limit envNoInput))))
             initialWorld inputFileName);
      vm_compute; reflexivity.
  - apply (proj1 (proj2 (proj2 (proj2 (proj2
             (line_source_returns_lines_within_limit envReadError)))))
             initialWorld inputFileName
             (mkInputFile ("konnichiwa" +:+ nl)
                (Some (mkError "read ./input.txt: input/output error")))
             (mkError "read ./input.txt: input/output error"));
      vm_compute; reflexivity.
  - apply (proj2 (proj2 (proj2 (proj2 (proj2
             (line_source_returns_lines_within_limit envNoInput)))))
             (mkError "open ./input.txt: no such file or directory")).
    vm_compute; reflexivity.
Defined.

(** * Further properties of the program *)

(** ** The loop over the lines *)

(** Blank lines leave no trace: the loop over the lines is the loop over
    the lines that pass the [TrimSpace] guard, with the same events, the
    same final world and the same outcome. *)
Theorem blank_lines_are_invisible (env : Env) (textLines : list string) (w : World) :
  mainLoop env textLines w = mainLoop env (List.filter nonBlank textLines) w.
Proof.
  revert w. induction textLines as [|txt rest IH]; intros w; [reflexivity|].
  cbn [mainLoop List.filter]. destruct (nonBlank txt) eqn:Hnb.
  - cbn [mainLoop]. rewrite Hnb. unfold bind.
    destruct (processLine env txt w) as [[c w1] e1].
    destruct c; [now rewrite IH | reflexivity].
  - apply IH.
Qed.

(** The loop over two lists of lines, one after the other: when the first
    part runs to its end the second part starts in the world the first one
    left and its events follow; when the first part returns, the second
    part is never looked at. *)
Theorem loop_over_appended_lines (env : Env) (l1 l2 : list string) (w : World) :
  mainLoop env (l1 ++ l2) w =
    let r1 := mainLoop env l1 w in
    if valueOf r1 then
      let r2 := mainLoop env l2 (worldOf r1) in
      (valueOf r2, worldOf r2, eventsOf r1 ++ eventsOf r2)
    else r1.
Proof.
  cbv zeta. revert w. induction l1 as [|txt rest IH]; intros w.
  - cbn. now destruct (mainLoop env l2 w) as [[b w2] e2].
  - cbn [mainLoop app]. destruct (nonBlank txt); [|apply IH].
    unfold bind. destruct (processLine env txt w) as [[c w1] e1].
    destruct c; [|reflexivity].
    rewrite IH. destruct (mainLoop env rest w1) as [[b w2] e2].
    cbn [valueOf worldOf eventsOf fst snd]. destruct b; [|reflexivity].
    destruct (mainLoop env l2 w2) as [[b3 w3] e3].
    cbn [valueOf worldOf eventsOf fst snd]. now rewrite app_assoc.
Qed.

(** ** The order of the remote calls *)

Lemma processLine_callKinds (env : Env) txt w :
  callKinds (eventsOf (processLine env txt w)) `prefix_of` fullRecord /\
  (valueOf (processLine env txt w) = true ->
   callKinds (eventsOf (processLine env txt w)) = fullRecord).
Proof.
  destruct w as [n d o p]. exec.
  all: cbv [callKinds omap list_omap callKind fullRecord].
  all: split; [|intros H; first [reflexivity | discriminate H]].
  all: first [ by exists [] | by eexists [_] | by eexists [_; _] | by eexists [_; _; _] ].
Qed.

Lemma loopRun_callKinds (env : Env) textLines w b w' evs :
  loopRun env textLines w b w' evs ->
  callKinds evs `prefix_of`
    flat_map (fun _ => fullRecord) (List.filter nonBlank textLines).
Proof.
  induction 1 as [w|txt rest w b w' evs Hnb Hrun IH|txt rest w w1 e1 Hnb Hp
                  |txt rest w w1 e1 b w2 e2 Hnb Hp Hrun IH].
  - by exists [].
  - cbn [List.filter]. now rewrite Hnb.
  - cbn [List.filter]. rewrite Hnb. cbn [flat_map].
    destruct (processLine_callKinds env txt w) as [Hpre _]. rewrite Hp in Hpre.
    now apply prefix_app_r.
  - cbn [List.filter]. rewrite Hnb. cbn [flat_map].
    destruct (processLine_callKinds env txt w) as [_ Hfull]. rewrite Hp in Hfull.
    cbn [valueOf eventsOf fst snd] in Hfull.
    unfold callKinds in *. rewrite omap_app, (Hfull eq_refl).
    now apply prefix_app.
Qed.

(** In every run the remote calls are made in the order translation,
    synthesis, upload, submission, record after record over the non-blank
    lines: the calls of a run are an initial part of that sequence. *)
Theorem remote_calls_follow_the_pipeline (env : Env) (textLines : list string) :
  valueOf (getInputText env inputFileName initialWorld) = Ok textLines ->
  callKinds (eventsOf (run env)) `prefix_of`
    flat_map (fun _ => fullRecord) (List.filter nonBlank textLines).
Proof.
  intros Hget.
  destruct (env_create env 1 outputFileName) as [err|] eqn:Hc.
  - rewrite (run_create_failure env textLines err Hget Hc). by eexists.
  - destruct (run_loop env textLines Hget Hc) as (b & w2 & evs & Hloop & Hrun).
    rewrite Hrun. cbn [eventsOf snd].
    destruct (run_loop_observations env b w2 evs) as (_ & _ & Hck).
    cbv zeta in Hck. rewrite Hck. exact (loopRun_callKinds env _ _ _ _ _ Hloop).
Qed.

Lemma remote_calls_follow_the_pipeline_witness :
  let textLines := ["konnichiwa"; "  "; "arigatou"] in
  valueOf (getInputText envUploadFails inputFileName initialWorld) = Ok textLines /\
  callKinds (eventsOf (run envUploadFails)) `prefix_of`
    flat_map (fun _ => fullRecord) (List.filter nonBlank textLines).
Proof.
  cbv zeta. split; [vm_compute; reflexivity|].
  apply (remote_calls_follow_the_pipeline envUploadFails
           ["konnichiwa"; "  "; "arigatou"]).
  vm_compute; reflexivity.
Defined.

(** ** Where an event of a run comes from *)

Lemma storeGrows_refl (w : World) : storeGrows w w.
Proof. intros k H. exact H. Qed.

Lemma storeGrows_trans (w1 w2 w3 : World) :
  storeGrows w1 w2 -> storeGrows w2 w3 -> storeGrows w1 w3.
Proof. intros H1 H2 k H. apply H2, H1, H. Qed.

Lemma storeGrows_objects (w w' : World) : objects w' = objects w -> storeGrows w w'.
Proof. intros H k Hk. now rewrite H. Qed.

Lemma processLine_storeGrows (env : Env) txt w :
  storeGrows w (worldOf (processLine env txt w)).
Proof.
  destruct w as [n d o p]. exec.
  all: intros k Hk; cbn [objects] in *; try exact Hk.
  all: rewrite lookup_insert; case_decide; [eauto | exact Hk].
Qed.

Lemma loopRun_storeGrows (env : Env) textLines w b w' evs :
  loopRun env textLines w b w' evs -> storeGrows w w'.
Proof.
  induction 1 as [w|txt rest w b w' evs Hnb Hrun IH|txt rest w w1 e1 Hnb Hp
                  |txt rest w w1 e1 b w2 e2 Hnb Hp Hrun IH].
  - apply storeGrows_refl.
  - exact IH.
  - pose proof (processLine_storeGrows env txt w) as H. now rewrite Hp in H.
  - pose proof (processLine_storeGrows env txt w) as H. rewrite Hp in H.
    now apply storeGrows_trans with w1.
Qed.

(** Every event of the loop belongs to the processing of a non-blank line
    of the input, and the object store only grows from there on. *)
Lemma loopRun_locate_line (env : Env) textLines w b w' evs :
  loopRun env textLines w b w' evs ->
  forall pre e post, evs = pre ++ e :: post ->
  exists txt w0 pre0 post0 before after,
    eventsOf (processLine env txt w0) = pre0 ++ e :: post0 /\
    pre = before ++ pre0 /\ post = post0 ++ after /\
    In txt textLines /\ nonBlank txt = true /\
    storeGrows (worldOf (processLine env txt w0)) w'.
Proof.
  induction 1 as [w|txt rest w b w' evs Hnb Hrun IH|txt rest w w1 e1 Hnb Hp
                  |txt rest w w1 e1 b w2 e2 Hnb Hp Hrun IH];
    intros pre e post Heq.
  - destruct pre; discriminate Heq.
  - destruct (IH pre e post Heq)
      as (txt' & w0 & pre0 & post0 & before & after & H1 & H2 & H3 & H4 & H5 & H6).
    exists txt', w0, pre0, post0, before, after.
    repeat split; try assumption. now right.
  - subst e1. exists txt, w, pre, post, [], [].
    rewrite Hp, app_nil_r. cbn [eventsOf worldOf fst snd].
    repeat split; try assumption; [now left | apply storeGrows_refl].
  - destruct (split_app _ _ _ _ _ Heq) as [(q & -> & ->)|(p & -> & Hp2)].
    + exists txt, w, pre, q, [], e2. rewrite Hp. cbn [eventsOf worldOf fst snd].
      repeat split; try assumption; [now left|].
      exact (loopRun_storeGrows env _ _ _ _ _ Hrun).
    + destruct (IH p e post Hp2)
        as (txt' & w0 & pre0 & post0 & before & after & H1 & -> & -> & H4 & H5 & H6).
      exists txt', w0, pre0, post0, (e1 ++ before), after.
      rewrite app_assoc. repeat split; try assumption. now right.
Qed.

Lemma afterLoop_storeGrows (env : Env) b w : storeGrows w (worldOf (afterLoop env b w)).
Proof.
  destruct (afterLoop_spec env b w) as (_ & Ho & _). now apply storeGrows_objects.
Qed.

Lemma run_locate_line (env : Env) pre e post :
  eventsOf (run env) = pre ++ e :: post ->
  isOutsideLoop e = true \/
  exists textLines txt w0 pre0 post0 before after,
    valueOf (getInputText env inputFileName initialWorld) = Ok textLines /\
    eventsOf (processLine env txt w0) = pre0 ++ e :: post0 /\
    pre = before ++ pre0 /\ post = post0 ++ after /\
    In txt textLines /\ nonBlank txt = true /\
    storeGrows (worldOf (processLine env txt w0)) (worldOf (run env)).
Proof.
  intros H.
  destruct (valueOf (getInputText env inputFileName initialWorld))
    as [textLines|err] eqn:Hget.
  - destruct (env_create env 1 outputFileName) as [err|] eqn:Hc.
    + rewrite (run_create_failure env textLines err Hget Hc) in H.
      cbn [eventsOf snd inputEvents app] in H.
      left. locate H; subst; reflexivity.
    + destruct (run_loop env textLines Hget Hc) as (b & w2 & evs & Hloop & Hrun).
      rewrite Hrun in H |- *. cbn [eventsOf worldOf fst snd inputEvents app] in H |- *.
      locate H; subst; try (left; reflexivity).
      destruct (split_app _ _ _ _ _ H) as [(q & -> & ->)|(p & -> & Htail)].
      * right.
        destruct (loopRun_locate_line env _ _ _ _ _ Hloop _ _ _ eq_refl)
          as (txt & w0 & pre0 & post0 & before & after & H1 & -> & -> & H4 & H5 & H6).
        exists textLines, txt, w0, pre0, post0,
          ([EvOpen inputFileName None; EvRead inputFileName None;
            EvClose inputFileName; EvCreate outputFileName None] ++ before),
          (after ++ eventsOf (afterLoop env b w2)).
        split; [reflexivity|]. split; [exact H1|].
        split; [now rewrite <- app_assoc|]. split; [now rewrite <- app_assoc|].
        split; [exact H4|]. split; [exact H5|].
        eapply storeGrows_trans; [exact H6 | apply afterLoop_storeGrows].
      * left. destruct (afterLoop_spec env b w2) as (He & _). cbv zeta in He.
        rewrite He in Htail. clear He Hrun.
        destruct b; cbn [app] in Htail; locate Htail; subst;
          first [reflexivity | apply String.eqb_refl].
  - rewrite (run_input_failure env err Hget) in H. cbn [eventsOf snd] in H.
    destruct (getInputText_Failed env _ _ _ Hget) as [_ [He|He]]; rewrite He in H;
      cbn [app] in H; left; locate H; subst; reflexivity.
Qed.

(** ** What each remote call is given *)

Lemma processLine_translate (env : Env) txt w pre text source target r post :
  eventsOf (processLine env txt w) = pre ++ EvTranslate text source target r :: post ->
  pre = [] /\ text = txt /\ source = "ja" /\ target = "en".
Proof.
  destruct w as [n d o p]. exec; intros H.
  all: locate H; try discriminate.
  all: simplify_eq; repeat split.
Qed.

(** The translation service is asked only about lines of the input that
    are not blank, always from Japanese to English. *)
Theorem only_non_blank_lines_are_translated
    (env : Env) (pre post : list Event) (text source target : string)
    (r : result string) :
  eventsOf (run env) = pre ++ EvTranslate text source target r :: post ->
  exists textLines,
    valueOf (getInputText env inputFileName initialWorld) = Ok textLines /\
    In text textLines /\ nonBlank text = true /\
    source = "ja" /\ target = "en".
Proof.
  intros H.
  destruct (run_locate_line env _ _ _ H)
    as [Ho|(textLines & txt & w0 & pre0 & post0 & before & after
            & Hget & H1 & _ & _ & Hin & Hnb & _)].
  - discriminate Ho.
  - destruct (processLine_translate env _ _ _ _ _ _ _ _ H1) as (_ & -> & -> & ->).
    exists textLines. repeat split; assumption.
Qed.

Lemma only_non_blank_lines_are_translated_witness :
  let evs := eventsOf (run envAllOk) in
  evs = take 20 evs ++
        EvTranslate "arigatou" "ja" "en" (Ok "en:arigatou") :: drop 21 evs /\
  exists textLines,
    valueOf (getInputText envAllOk inputFileName initialWorld) = Ok textLines /\
    In "arigatou" textLines /\ nonBlank "arigatou" = true /\
    "ja" = "ja" /\ "en" = "en".
Proof.
  cbv zeta. split; [vm_compute; reflexivity|].
  apply (only_non_blank_lines_are_translated envAllOk
           (take 20 (eventsOf (run envAllOk)))
           (drop 21 (eventsOf (run envAllOk)))
           "arigatou" "ja" "en" (Ok "en:arigatou")).
  vm_compute; reflexivity.
Defined.

Lemma processLine_synthesis (env : Env) txt w pre text format voice r post :
  eventsOf (processLine env txt w) = pre ++ EvSynthesize text format voice r :: post ->
  pre = [EvTranslate txt "ja" "en" (Ok text);
         EvPrintln ("Translated text:" +:+ " " +:+ text);
         EvWriteString (text +:+ nl)] /\
  format = "mp3" /\ voice = "Joanna".
Proof.
  destruct w as [n d o p]. exec; intros H.
  all: locate H; try discriminate.
  all: simplify_eq; repeat split.
Qed.

(** What is sent to the speech service is the text the translation service
    just returned, the same text that went into the sink followed by a
    newline; the format is mp3 and the voice Joanna. *)
Theorem synthesis_reads_the_translation
    (env : Env) (pre post : list Event) (text format voice : string)
    (r : result string) :
  eventsOf (run env) = pre ++ EvSynthesize text format voice r :: post ->
  exists before source,
    pre = before ++
          [EvTranslate source "ja" "en" (Ok text);
           EvPrintln ("Translated text:" +:+ " " +:+ text);
           EvWriteString (text +:+ nl)] /\
    format = "mp3" /\ voice = "Joanna".
Proof.
  intros H.
  destruct (run_locate_line env _ _ _ H)
    as [Ho|(textLines & txt & w0 & pre0 & post0 & before & after
            & _ & H1 & -> & _)].
  - discriminate Ho.
  - destruct (processLine_synthesis env _ _ _ _ _ _ _ _ H1) as (-> & -> & ->).
    exists before, txt. repeat split.
Qed.

Lemma synthesis_reads_the_translation_witness :
  let evs := eventsOf (run envSynthesisFails) in
  evs = take 7 evs ++
        EvSynthesize "en:konnichiwa" "mp3" "Joanna" (Failed someError) :: drop 8 evs /\
  exists before source,
    take 7 evs = before ++
          [EvTranslate source "ja" "en" (Ok "en:konnichiwa");
           EvPrintln ("Translated text:" +:+ " " +:+ "en:konnichiwa");
           EvWriteString ("en:konnichiwa" +:+ nl)] /\
    "mp3" = "mp3" /\ "Joanna" = "Joanna".
Proof.
  cbv zeta. split; [vm_compute; reflexivity|].
  apply (synthesis_reads_the_translation envSynthesisFails
           (take 7 (eventsOf (run envSynthesisFails)))
           (drop 8 (eventsOf (run envSynthesisFails)))
           "en:konnichiwa" "mp3" "Joanna" (Failed someError)).
  vm_compute; reflexivity.
Defined.

Lemma processLine_upload (env : Env) txt w pre bucket key body r post :
  eventsOf (processLine env txt w) = pre ++ EvPutObject bucket key body r :: post ->
  exists pre' text,
    pre = pre' ++
          [EvSynthesize text "mp3" "Joanna" (Ok body);
           EvNow (env_now env (calls w + 2));
           EvCreate key None; EvReadFrom key None; EvSeek key] /\
    bucket = bucketName /\
    key = audioFileNameAt (env_now env (calls w + 2)).
Proof.
  destruct w as [n d o p]. exec; intros H.
  all: locate H; try discriminate.
  all: rewrite lookup_insert_eq in *; cbn [default] in *.
  all: simplify_eq.
  all: replace (n + 2)%nat with (S (S n)) by lia.
  all: eexists [_; _; _], _; repeat split; reflexivity.
Qed.

(** The body of every upload is the audio the speech service returned for
    the record, the key is the name of the staging file made from the clock
    reading taken just before, and the bucket is the configured one. *)
Theorem upload_carries_the_synthesized_audio
    (env : Env) (pre post : list Event) (bucket key body : string)
    (r : option error) :
  eventsOf (run env) = pre ++ EvPutObject bucket key body r :: post ->
  exists before text now,
    pre = before ++
          [EvSynthesize text "mp3" "Joanna" (Ok body);
           EvNow now;
           EvCreate key None; EvReadFrom key None; EvSeek key] /\
    bucket = bucketName /\
    key = audioFileNameAt now.
Proof.
  intros H.
  destruct (run_locate_line env _ _ _ H)
    as [Ho|(textLines & txt & w0 & pre0 & post0 & before & after
            & _ & H1 & -> & _)].
  - discriminate Ho.
  - destruct (processLine_upload env _ _ _ _ _ _ _ _ H1) as (pre' & text & -> & -> & ->).
    exists (before ++ pre'), text, (env_now env (calls w0 + 2)).
    rewrite <- app_assoc. repeat split.
Qed.

Lemma upload_carries_the_synthesized_audio_witness :
  let evs := eventsOf (run envUploadFails) in
  evs = take 12 evs ++
        EvPutObject bucketName "audioFile-20240102030409-output.mp3"
          "mp3:en:konnichiwa" (Some someError) :: drop 13 evs /\
  exists before text now,
    take 12 evs = before ++
          [EvSynthesize text "mp3" "Joanna" (Ok "mp3:en:konnichiwa");
           EvNow now;
           EvCreate "audioFile-20240102030409-output.mp3" None;
           EvReadFrom "audioFile-20240102030409-output.mp3" None;
           EvSeek "audioFile-20240102030409-output.mp3"] /\
    bucketName = bucketName /\
    "audioFile-20240102030409-output.mp3" = audioFileNameAt now.
Proof.
  cbv zeta. split; [vm_compute; reflexivity|].
  apply (upload_carries_the_synthesized_audio envUploadFails
           (take 12 (eventsOf (run envUploadFails)))
           (drop 13 (eventsOf (run envUploadFails)))
           bucketName "audioFile-20240102030409-output.mp3"
           "mp3:en:konnichiwa" (Some someError)).
  vm_compute; reflexivity.
Defined.

(** ** The object store *)

Lemma processLine_submission_object (env : Env) txt w pre job lang format uri out r post :
  eventsOf (processLine env txt w) =
    pre ++ EvStartTranscriptionJob job lang format uri out r :: post ->
  exists key body,
    uri = mediaFileUri bucketName key /\
    objects (worldOf (processLine env txt w)) !! (bucketName, key) = Some body.
Proof.
  destruct w as [n d o p]. exec; intros H.
  all: locate H; try discriminate.
  all: simplify_eq.
  all: eexists _, _; split; [reflexivity | apply lookup_insert_eq].
Qed.

(** The program never takes anything out of the object store: the object
    named by the media URI of any transcription job it starts is in the
    store when the run is over. *)
Theorem submitted_object_is_in_the_store
    (env : Env) (pre post : list Event)
    (job lang format uri out : string) (r : option error) :
  eventsOf (run env) =
    pre ++ EvStartTranscriptionJob job lang format uri out r :: post ->
  exists key,
    uri = mediaFileUri bucketName key /\
    is_Some (objects (worldOf (run env)) !! (bucketName, key)).
Proof.
  intros H.
  destruct (run_locate_line env _ _ _ H)
    as [Ho|(textLines & txt & w0 & pre0 & post0 & before & after
            & _ & H1 & _ & _ & _ & _ & Hgrow)].
  - discriminate Ho.
  - destruct (processLine_submission_object env _ _ _ _ _ _ _ _ _ _ H1)
      as (key & body & -> & Hobj).
    exists key. split; [reflexivity|]. apply Hgrow. now exists body.
Qed.

Lemma submitted_object_is_in_the_store_witness :
  let evs := eventsOf (run envAllOk) in
  let uri := "s3://report.3q-aws-s24745201.com/audioFile-20240102030409-output.mp3" in
  evs = take 18 evs ++
        EvStartTranscriptionJob "transcription-job-20240102030414" "en-US" "mp3"
          uri "report.3q-aws-s24745201.com" None :: drop 19 evs /\
  exists key,
    uri = mediaFileUri bucketName key /\
    is_Some (objects (worldOf (run envAllOk)) !! (bucketName, key)).
Proof.
  cbv zeta. split; [vm_compute; reflexivity|].
  apply (submitted_object_is_in_the_store envAllOk
           (take 18 (eventsOf (run envAllOk)))
           (drop 19 (eventsOf (run envAllOk)))
           "transcription-job-20240102030414" "en-US" "mp3"
           "s3://report.3q-aws-s24745201.com/audioFile-20240102030409-output.mp3"
           "report.3q-aws-s24745201.com" None).
  vm_compute; reflexivity.
Defined.

(** ** A clock that stays within one second *)

Lemma upload_key_is_a_clock_reading (env : Env) bucket key body r :
  In (EvPutObject bucket key body r) (eventsOf (run env)) ->
  exists n, key = audioFileNameAt (env_now env n).
Proof.
  intros Hin. apply in_split in Hin. destruct Hin as (pre & post & H).
  destruct (run_locate_line env _ _ _ H)
    as [Ho|(textLines & txt & w0 & pre0 & post0 & before & after & _ & H1 & _)].
  - discriminate Ho.
  - destruct (processLine_upload env _ _ _ _ _ _ _ _ H1) as (_ & _ & _ & _ & ->).
    now eexists.
Qed.

Lemma job_name_is_a_clock_reading (env : Env) job lang format uri out r :
  In (EvStartTranscriptionJob job lang format uri out r) (eventsOf (run env)) ->
  exists n, job = transcriptionJobNameAt (env_now env n).
Proof.
  intros Hin. apply in_split in Hin. destruct Hin as (pre & post & H).
  destruct (run_locate_line env _ _ _ H)
    as [Ho|(textLines & txt & w0 & pre0 & post0 & before & after & _ & H1 & _)].
  - discriminate Ho.
  - destruct (processLine_submission env _ _ _ _ _ _ _ _ _ _ H1)
      as (pre' & key & body & tAudio & tJob & _ & _ & _ & _ & -> & _ & ->).
    now eexists.
Qed.

(** When all the clock readings of a run fall within the same second, all
    its uploads go to the same key, so that each one overwrites the object
    of the one before, and all its transcription jobs are started under the
    same name. *)
Theorem records_within_one_second_share_their_names (env : Env) :
  (forall n m, GoTime.sameSecond (env_now env n) (env_now env m)) ->
  (forall b1 k1 body1 r1 b2 k2 body2 r2,
      In (EvPutObject b1 k1 body1 r1) (eventsOf (run env)) ->
      In (EvPutObject b2 k2 body2 r2) (eventsOf (run env)) ->
      k1 = k2) /\
  (forall j1 l1 f1 u1 o1 r1 j2 l2 f2 u2 o2 r2,
      In (EvStartTranscriptionJob j1 l1 f1 u1 o1 r1) (eventsOf (run env)) ->
      In (EvStartTranscriptionJob j2 l2 f2 u2 o2 r2) (eventsOf (run env)) ->
      j1 = j2).
Proof.
  intros Hclock. split.
  - intros b1 k1 body1 r1 b2 k2 body2 r2 H1 H2.
    destruct (upload_key_is_a_clock_reading env _ _ _ _ H1) as [n1 ->].
    destruct (upload_key_is_a_clock_reading env _ _ _ _ H2) as [n2 ->].
    unfold audioFileNameAt.
    now rewrite (NameFacts.Format_localSec _ _ timeLayout
                   (NameFacts.sameSecond_localSec _ _ (Hclock n1 n2))).
  - intros j1 l1 f1 u1 o1 r1 j2 l2 f2 u2 o2 r2 H1 H2.
    destruct (job_name_is_a_clock_reading env _ _ _ _ _ _ H1) as [n1 ->].
    destruct (job_name_is_a_clock_reading env _ _ _ _ _ _ H2) as [n2 ->].
    unfold transcriptionJobNameAt.
    now rewrite (NameFacts.Format_localSec _ _ timeLayout
                   (NameFacts.sameSecond_localSec _ _ (Hclock n1 n2))).
Qed.

Lemma records_within_one_second_share_their_names_witness :
  (forall n m, GoTime.sameSecond (env_now envFrozenClock n) (env_now envFrozenClock m)) /\
  In (EvPutObject bucketName "audioFile-20240102030405-output.mp3"
        "mp3:en:konnichiwa" None) (eventsOf (run envFrozenClock)) /\
  In (EvPutObject bucketName "audioFile-20240102030405-output.mp3"
        "mp3:en:arigatou" None) (eventsOf (run envFrozenClock)) /\
  map_to_list (objects (worldOf (run envFrozenClock))) =
    [((bucketName, "audioFile-20240102030405-output.mp3"), "mp3:en:arigatou")] /\
  "audioFile-20240102030405-output.mp3" = "audioFile-20240102030405-output.mp3".
Proof.
  assert (Hclock : forall n m,
             GoTime.sameSecond (env_now envFrozenClock n) (env_now envFrozenClock m)).
  { intros n m. split; reflexivity. }
  split; [exact Hclock|].
  split; [vm_compute; tauto|]. split; [vm_compute; tauto|].
  split; [vm_compute; reflexivity|].
  apply (proj1 (records_within_one_second_share_their_names envFrozenClock Hclock)
           bucketName "audioFile-20240102030405-output.mp3" "mp3:en:konnichiwa" None
           bucketName "audioFile-20240102030405-output.mp3" "mp3:en:arigatou" None);
    vm_compute; tauto.
Defined.

(** ** The output file and the file handles *)

(** The writer is flushed at most once, on the output file, and only when
    no call has failed before.  What the flush finds in the buffer of the
    writer is 4096 bytes at most: the writer holds no more, whatever the
    sink received.  After the flush the output file is closed and removed,
    and nothing else happens. *)
Theorem flush_needs_a_run_without_failure
    (env : Env) (pre post : list Event) (name bytes : string) :
  eventsOf (run env) = pre ++ EvFlush name bytes :: post ->
  name = outputFileName /\
  GoString.len bytes <= 4096 /\
  Forall (fun e => isFailure e = false) pre /\
  exists r message,
    post = [EvClose outputFileName; EvRemove outputFileName r; EvPrintln message].
Proof.
  intros H.
  destruct (valueOf (getInputText env inputFileName initialWorld))
    as [textLines|err] eqn:Hget.
  2: { rewrite (run_input_failure env err Hget) in H. cbn [eventsOf snd] in H.
       destruct (getInputText_Failed env _ _ _ Hget) as [_ [He|He]]; rewrite He in H;
         cbn [app] in H; locate H; discriminate. }
  destruct (env_create env 1 outputFileName) as [err|] eqn:Hc.
  { rewrite (run_create_failure env textLines err Hget Hc) in H.
    cbn [eventsOf snd inputEvents app] in H. locate H; discriminate. }
  destruct (run_loop env textLines Hget Hc) as (b & w2 & evs & Hloop & Hrun).
  rewrite Hrun in H. cbn [eventsOf snd inputEvents app] in H.
  locate H; try discriminate.
  destruct (split_app _ _ _ _ _ H) as [(q & Hq & _)|(p & -> & Htail)].
  { pose proof (loopRun_keeps_output env _ _ _ _ _ Hloop) as Hk.
    rewrite Hq in Hk. apply Forall_app in Hk. destruct Hk as [_ Hk].
    inversion Hk as [|? ? Hbad _]. destruct Hbad. }
  destruct (afterLoop_spec env b w2) as (He & _). cbv zeta in He.
  rewrite He in Htail. clear He Hrun.
  destruct b; cbn [app] in Htail; locate Htail; try discriminate.
  simplify_eq. rewrite app_nil_r.
  destruct startWorld_sink as [Hd0 Hl0].
  destruct (loopRun_sink env _ _ _ _ _ Hloop "" Hd0 Hl0) as (c & _ & _ & Hlen).
  split; [reflexivity|]. split; [exact Hlen|].
  split.
  { repeat (constructor; [reflexivity|]).
    exact (loopRun_no_failure env _ _ _ _ Hloop). }
  eexists _, _. reflexivity.
Qed.

Lemma flush_needs_a_run_without_failure_witness :
  let evs := eventsOf (run envAllOk) in
  let bytes := "en:konnichiwa" +:+ nl +:+ "en:arigatou" +:+ nl in
  evs = take 36 evs ++ EvFlush outputFileName bytes :: drop 37 evs /\
  outputFileName = outputFileName /\
  GoString.len bytes <= 4096 /\
  Forall (fun e => isFailure e = false) (take 36 evs) /\
  exists r message,
    drop 37 evs =
      [EvClose outputFileName; EvRemove outputFileName r; EvPrintln message].
Proof.
  cbv zeta. split; [vm_compute; reflexivity|].
  apply (flush_needs_a_run_without_failure envAllOk
           (take 36 (eventsOf (run envAllOk)))
           (drop 37 (eventsOf (run envAllOk)))
           outputFileName ("en:konnichiwa" +:+ nl +:+ "en:arigatou" +:+ nl)).
  vm_compute; reflexivity.
Defined.

(** Once the output file has been created, every run ends by closing it
    and asking for its removal, however the run went; when that removal
    succeeds the file is not on the disk afterwards. *)
Theorem output_file_cleanup_always_runs (env : Env) :
  In (EvCreate outputFileName None) (eventsOf (run env)) ->
  exists before r message,
    eventsOf (run env) =
      before ++ [EvClose outputFileName; EvRemove outputFileName r; EvPrintln message] /\
    (r = None -> disk (worldOf (run env)) !! outputFileName = None).
Proof.
  intros Hin.
  destruct (valueOf (getInputText env inputFileName initialWorld))
    as [textLines|err] eqn:Hget.
  2: { rewrite (run_input_failure env err Hget) in Hin. cbn [eventsOf snd] in Hin.
       destruct (getInputText_Failed env _ _ _ Hget) as [_ [He|He]]; rewrite He in Hin;
         cbn in Hin; repeat (destruct Hin as [Hin|Hin]; [discriminate Hin|]);
         destruct Hin. }
  destruct (env_create env 1 outputFileName) as [err|] eqn:Hc.
  { rewrite (run_create_failure env textLines err Hget Hc) in Hin.
    cbn in Hin. repeat (destruct Hin as [Hin|Hin]; [discriminate Hin|]).
    destruct Hin. }
  destruct (run_loop env textLines Hget Hc) as (b & w2 & evs & Hloop & Hrun).
  rewrite Hrun. cbn [eventsOf worldOf fst snd].
  destruct (afterLoop_spec env b w2) as (He & _ & _ & Hdisk). cbv zeta in He, Hdisk.
  rewrite He.
  exists (inputEvents ++ EvCreate outputFileName None :: evs ++
          (if b then [EvFlush outputFileName (pending w2)] else [])),
    (env_remove env (calls w2) outputFileName).
  eexists. split; [|exact Hdisk].
  rewrite <- !app_assoc. cbn [app]. now rewrite <- !app_assoc.
Qed.

Lemma output_file_cleanup_always_runs_witness :
  In (EvCreate outputFileName None) (eventsOf (run envSecondTranslationFails)) /\
  exists before r message,
    eventsOf (run envSecondTranslationFails) =
      before ++ [EvClose outputFileName; EvRemove outputFileName r; EvPrintln message] /\
    (r = None ->
     disk (worldOf (run envSecondTranslationFails)) !! outputFileName = None).
Proof.
  split; [vm_compute; tauto|].
  apply (output_file_cleanup_always_runs envSecondTranslationFails).
  vm_compute; tauto.
Defined.

Lemma countIf_app (p : Event -> bool) (a b : list Event) :
  countIf p (a ++ b) = (countIf p a + countIf p b)%nat.
Proof. unfold countIf. now rewrite List.filter_app, length_app. Qed.

Lemma processLine_handles (env : Env) txt w :
  countIf isOpened (eventsOf (processLine env txt w)) =
  countIf isClosed (eventsOf (processLine env txt w)).
Proof. destruct w as [n d o p]. exec; reflexivity. Qed.

Lemma loopRun_handles (env : Env) textLines w b w' evs :
  loopRun env textLines w b w' evs ->
  countIf isOpened evs = countIf isClosed evs.
Proof.
  induction 1 as [w|txt rest w b w' evs Hnb Hrun IH|txt rest w w1 e1 Hnb Hp
                  |txt rest w w1 e1 b w2 e2 Hnb Hp Hrun IH].
  - reflexivity.
  - exact IH.
  - pose proof (processLine_handles env txt w) as H. now rewrite Hp in H.
  - pose proof (processLine_handles env txt w) as H. rewrite Hp in H.
    cbn [eventsOf snd] in H. now rewrite !countIf_app, H, IH.
Qed.

(** No file handle is left open: in every run, whatever fails, the files
    closed are as many as the files successfully opened or created. *)
Theorem every_opened_file_is_closed (env : Env) :
  countIf isOpened (eventsOf (run env)) = countIf isClosed (eventsOf (run env)).
Proof.
  destruct (valueOf (getInputText env inputFileName initialWorld))
    as [textLines|err] eqn:Hget.
  2: { rewrite (run_input_failure env err Hget). cbn [eventsOf snd].
       destruct (getInputText_Failed env _ _ _ Hget) as [_ [He|He]]; rewrite He;
         reflexivity. }
  destruct (env_create env 1 outputFileName) as [err|] eqn:Hc.
  { rewrite (run_create_failure env textLines err Hget Hc). reflexivity. }
  destruct (run_loop env textLines Hget Hc) as (b & w2 & evs & Hloop & Hrun).
  rewrite Hrun. cbn [eventsOf snd].
  destruct (afterLoop_spec env b w2) as (He & _). cbv zeta in He. rewrite He.
  change (inputEvents ++ EvCreate outputFileName None :: ?x)
    with ((inputEvents ++ [EvCreate outputFileName None]) ++ x).
  rewrite !countIf_app, (loopRun_handles env _ _ _ _ _ Hloop).
  destruct b; destruct (env_remove env (calls w2) outputFileName);
    cbn; lia.
Qed.

Lemma processLine_remove (env : Env) txt w pre name r post :
  eventsOf (processLine env txt w) = pre ++ EvRemove name r :: post ->
  In (EvCreate name None) pre.
Proof.
  destruct w as [n d o p]. exec; intros H.
  all: locate H; try discriminate.
  all: simplify_eq; cbn; tauto.
Qed.

(** The program removes only files it has created itself earlier in the
    same run. *)
Theorem only_created_files_are_removed
    (env : Env) (pre post : list Event) (name : string) (r : option error) :
  eventsOf (run env) = pre ++ EvRemove name r :: post ->
  In (EvCreate name None) pre.
Proof.
  intros H.
  destruct (valueOf (getInputText env inputFileName initialWorld))
    as [textLines|err] eqn:Hget.
  2: { rewrite (run_input_failure env err Hget) in H. cbn [eventsOf snd] in H.
       destruct (getInputText_Failed env _ _ _ Hget) as [_ [He|He]]; rewrite He in H;
         cbn [app] in H; locate H; discriminate. }
  destruct (env_create env 1 outputFileName) as [err|] eqn:Hc.
  { rewrite (run_create_failure env textLines err Hget Hc) in H.
    cbn [eventsOf snd inputEvents app] in H. locate H; discriminate. }
  destruct (run_loop env textLines Hget Hc) as (b & w2 & evs & Hloop & Hrun).
  rewrite Hrun in H. cbn [eventsOf snd inputEvents app] in H.
  locate H; try discriminate.
  destruct (split_app _ _ _ _ _ H) as [(q & Hq & _)|(p & -> & Htail)].
  - destruct (loopRun_locate_line env _ _ _ _ _ Hloop _ _ _ Hq)
      as (txt & w0 & pre0 & post0 & before & after & H1 & -> & _).
    apply processLine_remove in H1.
    do 4 right. apply in_or_app. right. exact H1.
  - destruct (afterLoop_spec env b w2) as (He & _). cbv zeta in He.
    rewrite He in Htail. clear He Hrun.
    destruct b; cbn [app] in Htail; locate Htail; try discriminate;
      simplify_eq; cbn; tauto.
Qed.

Lemma only_created_files_are_removed_witness :
  let evs := eventsOf (run envRemoveFails) in
  let name := "audioFile-20240102030409-output.mp3" in
  let r := Some (mkError "remove: permission denied") in
  evs = take 14 evs ++ EvRemove name r :: drop 15 evs /\
  In (EvCreate name None) (take 14 evs).
Proof.
  cbv zeta. split; [vm_compute; reflexivity|].
  apply (only_created_files_are_removed envRemoveFails
           (take 14 (eventsOf (run envRemoveFails)))
           (drop 15 (eventsOf (run envRemoveFails)))
           "audioFile-20240102030409-output.mp3"
           (Some (mkError "remove: permission denied"))).
  vm_compute; reflexivity.
Defined.

(** ** [synthesizeSpeechAndUpload] on its own *)

(** When [synthesizeSpeechAndUpload] returns a name, that name is made
    from the clock reading taken after the synthesis, the object store
    holds the synthesized audio under that name in the given bucket, the
    staging file of that name is not on the disk, and the sink is as it
    was. *)
Theorem successful_upload_contract
    (env : Env) (text bucket name : string) (w : World) :
  valueOf (synthesizeSpeechAndUpload env text bucket w) = Ok name ->
  let w' := worldOf (synthesizeSpeechAndUpload env text bucket w) in
  exists audio,
    env_synthesize env (calls w) text = Ok audio /\
    name = audioFileNameAt (env_now env (S (calls w))) /\
    objects w' = <[(bucket, name) := audio]> (objects w) /\
    disk w' = delete name (disk w) /\
    pending w' = pending w.
Proof.
  destruct w as [n d o p]. cbv zeta. exec; intros [= <-].
  eexists. split; [reflexivity|]. split; [reflexivity|].
  rewrite lookup_insert_eq. cbn [default].
  split; [reflexivity|]. split; [now rewrite !delete_insert_eq|].
  reflexivity.
Qed.

Lemma successful_upload_contract_witness :
  let name := "audioFile-20240102030408-output.mp3" in
  let r := synthesizeSpeechAndUpload envAllOk "hello" "bucket" startWorld in
  valueOf r = Ok name /\
  exists audio,
    env_synthesize envAllOk (calls startWorld) "hello" = Ok audio /\
    name = audioFileNameAt (env_now envAllOk (S (calls startWorld))) /\
    objects (worldOf r) = <[("bucket", name) := audio]> (objects startWorld) /\
    disk (worldOf r) = delete name (disk startWorld) /\
    pending (worldOf r) = pending startWorld.
Proof.
  cbv zeta. split; [vm_compute; reflexivity|].
  apply (successful_upload_contract envAllOk "hello" "bucket"
           "audioFile-20240102030408-output.mp3" startWorld).
  vm_compute; reflexivity.
Defined.

(** When [synthesizeSpeechAndUpload] returns an error, the object store is
    as it was, except in one case: the upload succeeded and it is the
    removal of the staging file that failed with that error. *)
Theorem failed_upload_leaves_the_store
    (env : Env) (text bucket : string) (w : World) (err : error) :
  valueOf (synthesizeSpeechAndUpload env text bucket w) = Failed err ->
  let r := synthesizeSpeechAndUpload env text bucket w in
  objects (worldOf r) = objects w \/
  exists key body,
    In (EvPutObject bucket key body None) (eventsOf r) /\
    In (EvRemove key (Some err)) (eventsOf r) /\
    objects (worldOf r) = <[(bucket, key) := body]> (objects w).
Proof.
  destruct w as [n d o p]. cbv zeta. exec; intros [= <-].
  all: try (left; reflexivity).
  right. eexists _, _. cbn. split; [tauto|]. split; [tauto|]. reflexivity.
Qed.

Lemma failed_upload_leaves_the_store_witness :
  let r := synthesizeSpeechAndUpload envUploadFails "hello" "bucket" startWorld in
  valueOf r = Failed someError /\
  (objects (worldOf r) = objects startWorld \/
   exists key body,
     In (EvPutObject "bucket" key body None) (eventsOf r) /\
     In (EvRemove key (Some someError)) (eventsOf r) /\
     objects (worldOf r) = <[("bucket", key) := body]> (objects startWorld)).
Proof.
  cbv zeta. split; [vm_compute; reflexivity|].
  apply (failed_upload_leaves_the_store envUploadFails "hello" "bucket"
           startWorld someError).
  vm_compute; reflexivity.
Defined.

(** ** The disk after a run *)

Lemma processLine_disk (env : Env) txt w c :
  valueOf (processLine env txt w) = true ->
  disk w = {[outputFileName := c]} ->
  exists c', disk (worldOf (processLine env txt w)) = {[outputFileName := c']}.
Proof.
  destruct w as [n d o p]. exec; intros H Hd; try discriminate H.
  eexists. rewrite !delete_insert_eq, Hd, alter_singleton_eq.
  apply delete_singleton_ne, audioFileName_not_output.
Qed.

Lemma loopRun_disk (env : Env) textLines w w' evs :
  loopRun env textLines w true w' evs ->
  forall c, disk w = {[outputFileName := c]} ->
  exists c', disk w' = {[outputFileName := c']}.
Proof.
  remember true as b eqn:Hb.
  induction 1 as [w|txt rest w b w' evs Hnb Hrun IH|txt rest w w1 e1 Hnb Hp
                  |txt rest w w1 e1 b w2 e2 Hnb Hp Hrun IH]; intros c Hd.
  - now exists c.
  - eauto.
  - discriminate Hb.
  - pose proof (processLine_disk env txt w c) as H. rewrite Hp in H.
    destruct (H eq_refl Hd) as [c1 Hd1]. exact (IH Hb c1 Hd1).
Qed.

(** After a run in which the input was read and every call succeeded, none
    of the files the program created is left: the disk is as empty as it
    was at the start, and the bytes of the sink are gone with the output
    file. *)
Theorem successful_run_leaves_no_file (env : Env) (textLines : list string) :
  valueOf (getInputText env inputFileName initialWorld) = Ok textLines ->
  allSucceed env ->
  disk (worldOf (run env)) = ∅ /\ pending (worldOf (run env)) = "".
Proof.
  intros Hget Hall. pose proof Hall as (Hcreate & Hremove & _).
  destruct (run_loop env textLines Hget (Hcreate _ _)) as (b & w2 & evs & Hloop & Hrun).
  pose proof (loopRun_allSucceed env _ _ _ _ _ Hall Hloop) as ->.
  destruct (loopRun_disk env _ _ _ _ Hloop "" (insert_empty _ _)) as [c Hd].
  rewrite Hrun. cbn [worldOf fst snd].
  destruct w2 as [n d o p]. cbn [disk] in Hd. subst d.
  unfold afterLoop, mainDeferred, bind, writer_Flush, file_Close, os_Remove.
  cbn [calls disk objects pending setDisk setPending tick]. rewrite Hremove.
  cbn [worldOf fst snd disk pending setDisk setPending tick].
  split; [|reflexivity].
  now rewrite alter_singleton_eq, delete_singleton_eq.
Qed.

Lemma successful_run_leaves_no_file_witness :
  valueOf (getInputText envAllOk inputFileName initialWorld) =
    Ok ["konnichiwa"; "  "; "arigatou"] /\
  allSucceed envAllOk /\
  disk (worldOf (run envAllOk)) = ∅ /\ pending (worldOf (run envAllOk)) = "".
Proof.
  assert (Hall : allSucceed envAllOk).
  { repeat split; intros; try reflexivity; eexists; reflexivity. }
  split; [vm_compute; reflexivity|]. split; [exact Hall|].
  apply (successful_run_leaves_no_file envAllOk ["konnichiwa"; "  "; "arigatou"]).
  - vm_compute; reflexivity.
  - exact Hall.
Defined.

(** ** An input without any text *)

Lemma loopRun_blank (env : Env) textLines w b w' evs :
  loopRun env textLines w b w' evs ->
  List.filter nonBlank textLines = [] ->
  b = true /\ w' = w /\ evs = [].
Proof.
  induction 1 as [w|txt rest w b w' evs Hnb Hrun IH|txt rest w w1 e1 Hnb Hp
                  |txt rest w w1 e1 b w2 e2 Hnb Hp Hrun IH];
    cbn [List.filter]; rewrite ?Hnb; intros Hf; try discriminate Hf; auto.
Qed.

(** When no line of the input passes the [TrimSpace] guard (an empty file,
    or blank lines only) and the output file can be created, the run
    consists of reading the input, creating the output file, an empty
    flush, and closing and removing the output file: no remote service is
    called, whether or not any is reachable. *)
Theorem input_without_text_calls_nothing (env : Env) (textLines : list string) :
  valueOf (getInputText env inputFileName initialWorld) = Ok textLines ->
  List.filter nonBlank textLines = [] ->
  env_create env 1 outputFileName = None ->
  exists r message,
    eventsOf (run env) =
      inputEvents ++
      [EvCreate outputFileName None; EvFlush outputFileName "";
       EvClose outputFileName; EvRemove outputFileName r; EvPrintln message].
Proof.
  intros Hget Hblank Hc.
  destruct (run_loop env textLines Hget Hc) as (b & w2 & evs & Hloop & Hrun).
  destruct (loopRun_blank env _ _ _ _ _ Hloop Hblank) as (-> & -> & ->).
  rewrite Hrun. cbn [eventsOf snd].
  destruct (afterLoop_spec env true startWorld) as (He & _). cbv zeta in He.
  rewrite He. eexists _, _. reflexivity.
Qed.

Lemma input_without_text_calls_nothing_witness :
  valueOf (getInputText envBlankOnly inputFileName initialWorld) =
    Ok [""; "   "; ""] /\
  List.filter nonBlank [""; "   "; ""] = [] /\
  env_create envBlankOnly 1 outputFileName = None /\
  exists r message,
    eventsOf (run envBlankOnly) =
      inputEvents ++
      [EvCreate outputFileName None; EvFlush outputFileName "";
       EvClose outputFileName; EvRemove outputFileName r; EvPrintln message].
Proof.
  split; [vm_compute; reflexivity|]. split; [vm_compute; reflexivity|].
  split; [reflexivity|].
  apply (input_without_text_calls_nothing envBlankOnly [""; "   "; ""]);
    vm_compute; reflexivity.
Defined.

(** ** The stamp in the names *)

Module StampFacts.
Import GoString GoStringFacts GoTime NameFacts.

(** [daysFromCivil] undoes [civil]: a calendar date stands for one day. *)
Lemma daysFromCivil_civil (z : Z) :
  let '(y, m, d) := civil z in daysFromCivil y m d = z.
Proof.
  unfold civil, daysFromCivil. cbv zeta.
  set (z' := z + 719468).
  set (era := z' / 146097).
  set (doe := z' - era * 146097).
  assert (Hdoe : 0 <= doe < 146097) by (subst doe era; divlia).
  set (yoe := (doe - doe / 1460 + doe / 36524 - doe / 146096) / 365).
  assert (Hyoe : 0 <= yoe < 400) by (subst yoe; divlia).
  set (doy := doe - (365 * yoe + yoe / 4 - yoe / 100)).
  assert (Hdoy : 0 <= doy < 366) by (subst doy yoe; divlia).
  set (mp := (5 * doy + 2) / 153).
  assert (Hmp : 0 <= mp < 12) by (subst mp; divlia).
  destruct (mp <? 10) eqn:E; [apply Z.ltb_lt in E | apply Z.ltb_ge in E].
  - replace (mp + 3 <=? 2) with false by (symmetry; apply Z.leb_gt; lia).
    replace ((yoe + era * 400) / 400) with era by divlia.
    replace (mp + 3 - 3) with mp by lia.
    subst doy z'. divlia.
  - replace (mp - 9 <=? 2) with true by (symmetry; apply Z.leb_le; lia).
    replace (yoe + era * 400 + 1 - 1) with (yoe + era * 400) by lia.
    replace ((yoe + era * 400) / 400) with era by divlia.
    replace (mp - 9 + 9) with mp by lia.
    subst doy z'. divlia.
Qed.

Lemma civil_inj (z1 z2 : Z) : civil z1 = civil z2 -> z1 = z2.
Proof.
  intros H. pose proof (daysFromCivil_civil z1) as H1.
  pose proof (daysFromCivil_civil z2) as H2.
  rewrite H in H1. destruct (civil z2) as [[y m] d]. congruence.
Qed.

Lemma digit_inj (a b : Z) : 0 <= a <= 9 -> 0 <= b <= 9 -> digit a = digit b -> a = b.
Proof.
  intros Ha Hb H. unfold digit in H.
  apply (f_equal N_of_ascii) in H.
  rewrite !N_ascii_embedding in H by lia. lia.
Qed.

(** The calendar fields of an instant determine its local second. *)
Lemma fields_localSec (t1 t2 : Time) :
  Year t1 = Year t2 -> Month t1 = Month t2 -> Day t1 = Day t2 ->
  Hour t1 = Hour t2 -> Minute t1 = Minute t2 -> Second t1 = Second t2 ->
  localSec t1 = localSec t2.
Proof.
  unfold Year, Month, Day, Hour, Minute, Second, daysSinceEpoch, secOfDay,
    secondsPerDay.
  intros Hy Hm Hd Hh Hmi Hs.
  assert (Hdays : localSec t1 / 86400 = localSec t2 / 86400).
  { apply civil_inj.
    destruct (civil (localSec t1 / 86400)) as [[y1 m1] d1].
    destruct (civil (localSec t2 / 86400)) as [[y2 m2] d2].
    cbn [fst snd] in *. congruence. }
  divlia.
Qed.

Lemma stamp_localSec (t1 t2 : Time) :
  0 <= Year t1 < 10000 -> 0 <= Year t2 < 10000 ->
  yyyymmddhhmmss t1 = yyyymmddhhmmss t2 -> localSec t1 = localSec t2.
Proof.
  intros Hy1 Hy2 H.
  rewrite (yyyymmddhhmmss_digits t1 Hy1), (yyyymmddhhmmss_digits t2 Hy2) in H.
  destruct (clock_ranges t1) as (Hh1 & Hm1 & Hs1).
  destruct (clock_ranges t2) as (Hh2 & Hm2 & Hs2).
  destruct (civil_ranges (daysSinceEpoch t1)) as (Hmo1 & Hd1).
  destruct (civil_ranges (daysSinceEpoch t2)) as (Hmo2 & Hd2).
  fold (Month t1) in Hmo1. fold (Day t1) in Hd1.
  fold (Month t2) in Hmo2. fold (Day t2) in Hd2.
  cbn [map string_of_list_ascii] in H.
  injection H as E1 E2 E3 E4 E5 E6 E7 E8 E9 E10 E11 E12 E13 E14.
  apply digit_inj in E1, E2, E3, E4, E5, E6, E7, E8, E9, E10, E11, E12, E13, E14;
    try divlia.
  apply fields_localSec; divlia.
Qed.

End StampFacts.

Lemma string_app_inv_tail (a b c : string) :
  String.length a = String.length b -> a +:+ c = b +:+ c -> a = b.
Proof.
  revert b. induction a as [|x a IH]; intros [|y b] Hlen H;
    try discriminate Hlen; [reflexivity|].
  rewrite !GoStringFacts.app_cons in H. injection H as -> H.
  f_equal. apply IH; [now injection Hlen | exact H].
Qed.

Lemma stamp_length (t : GoTime.Time) :
  0 <= GoTime.Year t < 10000 -> String.length (GoTime.yyyymmddhhmmss t) = 14%nat.
Proof. intros H. now rewrite (NameFacts.yyyymmddhhmmss_digits t H). Qed.

(** For years 0 to 9999, two instants get the same audio name exactly when
    they show the same second on the local clock, and likewise for the job
    name: names made in different seconds never collide. *)
Theorem names_identify_the_second (t1 t2 : GoTime.Time) :
  0 <= GoTime.Year t1 < 10000 ->
  0 <= GoTime.Year t2 < 10000 ->
  (audioFileNameAt t1 = audioFileNameAt t2 <->
   GoTime.localSec t1 = GoTime.localSec t2) /\
  (transcriptionJobNameAt t1 = transcriptionJobNameAt t2 <->
   GoTime.localSec t1 = GoTime.localSec t2).
Proof.
  intros Hy1 Hy2. unfold audioFileNameAt, transcriptionJobNameAt.
  split; split; intros H;
    try (now rewrite (NameFacts.Format_localSec t1 t2 timeLayout H)).
  - rewrite !NameFacts.Format_timeLayout in H.
    apply GoStringFacts.app_inv_head in H.
    apply string_app_inv_tail in H; [|now rewrite !stamp_length].
    now apply StampFacts.stamp_localSec.
  - rewrite !NameFacts.Format_timeLayout in H.
    apply GoStringFacts.app_inv_head in H.
    now apply StampFacts.stamp_localSec.
Qed.

Lemma names_identify_the_second_witness :
  let t1 := GoTime.mkTime 1704164645 999999999 0 in
  let t2 := GoTime.mkTime 1704164646 0 0 in
  0 <= GoTime.Year t1 < 10000 /\
  0 <= GoTime.Year t2 < 10000 /\
  (audioFileNameAt t1 = audioFileNameAt t2 <->
   GoTime.localSec t1 = GoTime.localSec t2) /\
  (transcriptionJobNameAt t1 = transcriptionJobNameAt t2 <->
   GoTime.localSec t1 = GoTime.localSec t2).
Proof.
  cbv zeta. split; [vm_compute; split; [discriminate | reflexivity]|].
  split; [vm_compute; split; [discriminate | reflexivity]|].
  apply (names_identify_the_second (GoTime.mkTime 1704164645 999999999 0)
           (GoTime.mkTime 1704164646 0 0));
    (vm_compute; split; [discriminate | reflexivity]).
Defined.

(** For years 0 to 9999 the stamp is fourteen decimal digits, so that an
    audio name has 35 characters and a job name 32. *)
Theorem names_have_a_fixed_shape (t : GoTime.Time) :
  0 <= GoTime.Year t < 10000 ->
  exists ds : list Z,
    length ds = 14%nat /\
    Forall (fun d => 0 <= d <= 9) ds /\
    audioFileNameAt t =
      "audioFile-" +:+ string_of_list_ascii (List.map GoTime.digit ds) +:+ "-output.mp3" /\
    transcriptionJobNameAt t =
      "transcription-job-" +:+ string_of_list_ascii (List.map GoTime.digit ds) /\
    String.length (audioFileNameAt t) = 35%nat /\
    String.length (transcriptionJobNameAt t) = 32%nat.
Proof.
  intros Hy. unfold audioFileNameAt, transcriptionJobNameAt.
  rewrite NameFacts.Format_timeLayout, (NameFacts.yyyymmddhhmmss_digits t Hy).
  destruct (NameFacts.clock_ranges t) as (Hh & Hm & Hs).
  destruct (NameFacts.civil_ranges (GoTime.daysSinceEpoch t)) as (Hmo & Hd).
  fold (GoTime.Month t) in Hmo. fold (GoTime.Day t) in Hd.
  eexists. split; [|split; [|split; [reflexivity|split; [reflexivity|]]]].
  - reflexivity.
  - repeat constructor; NameFacts.divlia.
  - split; reflexivity.
Qed.

Lemma names_have_a_fixed_shape_witness :
  0 <= GoTime.Year instant_20240102_030405 < 10000 /\
  exists ds : list Z,
    length ds = 14%nat /\
    Forall (fun d => 0 <= d <= 9) ds /\
    audioFileNameAt instant_20240102_030405 =
      "audioFile-" +:+ string_of_list_ascii (List.map GoTime.digit ds) +:+ "-output.mp3" /\
    transcriptionJobNameAt instant_20240102_030405 =
      "transcription-job-" +:+ string_of_list_ascii (List.map GoTime.digit ds) /\
    String.length (audioFileNameAt instant_20240102_030405) = 35%nat /\
    String.length (transcriptionJobNameAt instant_20240102_030405) = 32%nat.
Proof.
  split; [vm_compute; split; [discriminate | reflexivity]|].
  apply (names_have_a_fixed_shape instant_20240102_030405).
  vm_compute; split; [discriminate | reflexivity].
Defined.

(** ** More on reading the input *)

Module ScanMore.
Import GoString GoStringFacts GoBufio ScanFacts.

Lemma cutLine_no_newline_in_line (data : string) :
  hasByte newline (fst (cutLine data)) = false.
Proof.
  induction data as [|c data IH]; [reflexivity|].
  cbn [cutLine]. destruct (Ascii.eqb c newline) eqn:E; [reflexivity|].
  destruct (cutLine data) as [l r]. cbn [fst hasByte] in *. now rewrite E, IH.
Qed.

Lemma dropCR_keeps_no_newline (l : string) :
  hasByte newline l = false -> hasByte newline (dropCR l) = false.
Proof.
  induction l as [|c l IH]; intros H; [reflexivity|].
  cbn [hasByte] in H. apply orb_false_iff in H. destruct H as [Hc Hl].
  destruct l as [|c' l].
  - cbn [dropCR]. destruct (Ascii.eqb c cr); [reflexivity|].
    cbn [hasByte]. now rewrite Hc.
  - change (dropCR (String c (String c' l)))
      with (String c (dropCR (String c' l))).
    cbn [hasByte]. now rewrite Hc, (IH Hl).
Qed.

Lemma scanLoop_no_newline (fuel : nat) (data : string) :
  Forall (fun l => hasByte newline l = false) (fst (scanLoop fuel data)).
Proof.
  revert data. induction fuel as [|fuel IH]; intros data; [constructor|].
  cbn [scanLoop]. destruct data as [|c s]; [constructor|].
  pose proof (cutLine_no_newline_in_line (String c s)) as Hcut.
  destruct (cutLine (String c s)) as [line rest]. cbn [fst] in Hcut.
  destruct (MaxScanTokenSize <=? len line); [constructor|].
  destruct rest as [r|].
  - specialize (IH r). destruct (scanLoop fuel r) as [ls e]. cbn [fst] in *.
    constructor; [now apply dropCR_keeps_no_newline | exact IH].
  - repeat constructor. now apply dropCR_keeps_no_newline.
Qed.

Lemma dropCR_crlf (l : string) : dropCR (l +:+ String cr "") = l.
Proof.
  induction l as [|c l IH]; [reflexivity|].
  rewrite app_cons. destruct l as [|c' l].
  - reflexivity.
  - rewrite app_cons in *.
    change (dropCR (String c (String c' (l +:+ String cr ""))))
      with (String c (dropCR (String c' (l +:+ String cr "")))).
    now rewrite IH.
Qed.

Lemma hasByte_app (c : ascii) (a b : string) :
  hasByte c (a +:+ b) = hasByte c a || hasByte c b.
Proof.
  induction a as [|x a IH]; [reflexivity|].
  rewrite app_cons. cbn [hasByte]. now rewrite IH, orb_assoc.
Qed.

Lemma joinCRLF_cons (l : string) (ls : list string) :
  joinCRLF (l :: ls) = (l +:+ String cr "") +:+ String newline (joinCRLF ls).
Proof.
  unfold joinCRLF. cbn [fmap list_fmap joinAll fold_right].
  unfold nl. now rewrite !app_assoc.
Qed.

Lemma scanLoop_joinCRLF (ls : list string) :
  forall fuel, (length ls <= fuel)%nat ->
  forallb isLineCRLF ls = true ->
  scanLoop fuel (joinCRLF ls) = (ls, None).
Proof.
  induction ls as [|l ls IH]; intros fuel Hfuel Hok.
  - destruct fuel; reflexivity.
  - destruct fuel as [|fuel]; [cbn in Hfuel; lia|].
    cbn [forallb] in Hok. apply andb_true_iff in Hok. destruct Hok as [Hl Hls].
    unfold isLineCRLF in Hl. apply andb_true_iff in Hl. destruct Hl as [Hnl Hlen].
    apply negb_true_iff in Hnl. apply Z.ltb_lt in Hlen.
    rewrite joinCRLF_cons.
    destruct (line_not_empty (l +:+ String cr "") (joinCRLF ls)) as (c & s & Hcs).
    cbn [scanLoop]. rewrite Hcs, <- Hcs.
    rewrite cutLine_line by (rewrite hasByte_app, Hnl; reflexivity).
    replace (MaxScanTokenSize <=? len (l +:+ String cr "")) with false.
    2: { symmetry. apply Z.leb_gt. unfold len in *. rewrite length_app.
         cbn [String.length]. lia. }
    rewrite (IH fuel) by (cbn in Hfuel; lia || assumption).
    now rewrite dropCR_crlf.
Qed.

Lemma length_joinCRLF (ls : list string) :
  (length ls <= String.length (joinCRLF ls))%nat.
Proof.
  induction ls as [|l ls IH]; [cbn; lia|].
  rewrite joinCRLF_cons, !length_app. cbn [String.length length]. lia.
Qed.

Lemma scanAll_long_line (before : list string) (long rest : string) :
  forallb isLine before = true ->
  hasByte newline long = false ->
  MaxScanTokenSize <= len long ->
  forall fuel, (length before < fuel)%nat ->
  exists ls, scanLoop fuel (joinLines before +:+ long +:+ String newline rest)
             = (ls, Some ErrTooLong).
Proof.
  intros Hok Hnl Hlen.
  induction before as [|l ls IH]; intros fuel Hfuel.
  - destruct fuel as [|fuel]; [cbn in Hfuel; lia|].
    change (joinLines [] +:+ long +:+ String newline rest)
      with (long +:+ String newline rest).
    destruct (line_not_empty long rest) as (c & s & Hcs).
    cbn [scanLoop]. rewrite Hcs, <- Hcs. rewrite (cutLine_line long _ Hnl).
    replace (MaxScanTokenSize <=? len long) with true
      by (symmetry; apply Z.leb_le; exact Hlen).
    now eexists.
  - destruct fuel as [|fuel]; [cbn in Hfuel; lia|].
    cbn [forallb] in Hok. apply andb_true_iff in Hok. destruct Hok as [Hl Hls].
    unfold isLine in Hl. apply andb_true_iff in Hl. destruct Hl as [Hl Hlen'].
    apply andb_true_iff in Hl. destruct Hl as [Hnl' Hcr'].
    apply negb_true_iff in Hnl', Hcr'. apply Z.ltb_lt in Hlen'.
    rewrite joinLines_cons, app_assoc, app_cons.
    destruct (line_not_empty l (joinLines ls +:+ long +:+ String newline rest))
      as (c & s & Hcs).
    cbn [scanLoop]. rewrite Hcs, <- Hcs. rewrite (cutLine_line l _ Hnl').
    replace (MaxScanTokenSize <=? len l) with false
      by (symmetry; apply Z.leb_gt; exact Hlen').
    destruct (IH Hls fuel) as [ls' Hls']; [cbn in Hfuel; lia|].
    rewrite Hls'. now eexists.
Qed.

End ScanMore.

(** The lines [getInputText] returns never contain a newline, whatever the
    bytes of the file. *)
Theorem returned_lines_have_no_newline
    (env : Env) (path : string) (w : World) (textLines : list string) :
  valueOf (getInputText env path w) = Ok textLines ->
  Forall (fun l => hasByte GoBufio.newline l = false) textLines.
Proof.
  unfold getInputText.
  destruct (env_open env (calls w) path) as [file|err]; [|discriminate].
  pose proof (ScanMore.scanLoop_no_newline
                (String.length (content file)) (content file)) as H.
  fold (GoBufio.scanAll (content file)) in H.
  destruct (GoBufio.scanAll (content file)) as [ls [serr|]]; [discriminate|].
  destruct (readErr file); [discriminate|].
  cbn. now intros [= <-].
Qed.

Lemma returned_lines_have_no_newline_witness :
  valueOf (getInputText envNoFinalNewline inputFileName initialWorld) =
    Ok ["konnichiwa"; ""; "arigatou"] /\
  Forall (fun l => hasByte GoBufio.newline l = false) ["konnichiwa"; ""; "arigatou"].
Proof.
  split; [vm_compute; reflexivity|].
  apply (returned_lines_have_no_newline envNoFinalNewline inputFileName initialWorld
           ["konnichiwa"; ""; "arigatou"]).
  vm_compute; reflexivity.
Defined.

(** A file whose lines end with carriage return and newline is returned
    line by line without the carriage returns. *)
Theorem crlf_lines_lose_their_carriage_return
    (env : Env) (path : string) (w : World) (file : InputFile)
    (textLines : list string) :
  env_open env (calls w) path = Ok file ->
  readErr file = None ->
  content file = joinCRLF textLines ->
  forallb isLineCRLF textLines = true ->
  valueOf (getInputText env path w) = Ok textLines.
Proof.
  intros Ho Hr Hc Hl. unfold getInputText. rewrite Ho, Hc.
  unfold GoBufio.scanAll.
  rewrite (ScanMore.scanLoop_joinCRLF textLines _ (ScanMore.length_joinCRLF _) Hl), Hr.
  reflexivity.
Qed.

Lemma crlf_lines_lose_their_carriage_return_witness :
  let file := mkInputFile (joinCRLF ["konnichiwa"; "arigatou"]) None in
  env_open envCRLF (calls initialWorld) inputFileName = Ok file /\
  readErr file = None /\
  content file = joinCRLF ["konnichiwa"; "arigatou"] /\
  forallb isLineCRLF ["konnichiwa"; "arigatou"] = true /\
  valueOf (getInputText envCRLF inputFileName initialWorld) =
    Ok ["konnichiwa"; "arigatou"].
Proof.
  cbv zeta. repeat (split; [reflexivity|]).
  apply (crlf_lines_lose_their_carriage_return envCRLF inputFileName initialWorld
           (mkInputFile (joinCRLF ["konnichiwa"; "arigatou"]) None)
           ["konnichiwa"; "arigatou"]); reflexivity.
Defined.

(** A line of 65536 bytes or more makes [getInputText] fail with the
    scanner's "token too long" error, even when the lines before it are
    fine and the file can be read to its end; the lines already scanned are
    dropped. *)
Theorem long_line_fails_the_reading
    (env : Env) (path : string) (w : World) (file : InputFile)
    (before : list string) (long rest : string) :
  env_open env (calls w) path = Ok file ->
  content file = joinLines before +:+ long +:+ String GoBufio.newline rest ->
  forallb isLine before = true ->
  hasByte GoBufio.newline long = false ->
  GoBufio.MaxScanTokenSize <= GoString.len long ->
  valueOf (getInputText env path w) = Failed GoBufio.ErrTooLong.
Proof.
  intros Ho Hc Hb Hnl Hlen. unfold getInputText. rewrite Ho, Hc.
  unfold GoBufio.scanAll.
  destruct (ScanMore.scanAll_long_line before long rest Hb Hnl Hlen
              (String.length (joinLines before +:+ long +:+ String GoBufio.newline rest)))
    as [ls Hls].
  { rewrite GoStringFacts.length_app, GoStringFacts.length_app.
    pose proof (ScanFacts.length_joinLines before). cbn [String.length]. lia. }
  rewrite Hls. reflexivity.
Qed.

Lemma long_line_fails_the_reading_witness :
  let data := joinLines ["konnichiwa"] +:+ longLine +:+
              String GoBufio.newline "arigatou" in
  env_open envLongLine (calls initialWorld) inputFileName =
    Ok (mkInputFile data None) /\
  forallb isLine ["konnichiwa"] = true /\
  hasByte GoBufio.newline longLine = false /\
  GoBufio.MaxScanTokenSize <= GoString.len longLine /\
  valueOf (getInputText envLongLine inputFileName initialWorld) =
    Failed GoBufio.ErrTooLong.
Proof.
  cbv zeta. split; [reflexivity|]. split; [reflexivity|].
  split; [vm_compute; reflexivity|]. split; [vm_compute; discriminate|].
  apply (long_line_fails_the_reading envLongLine inputFileName initialWorld
           (mkInputFile (joinLines ["konnichiwa"] +:+ longLine +:+
                         String GoBufio.newline "arigatou") None)
           ["konnichiwa"] longLine "arigatou").
  - reflexivity.
  - reflexivity.
  - reflexivity.
  - vm_compute; reflexivity.
  - vm_compute; discriminate.
Defined.

(** ** The guard of the loop on ASCII text *)

Module GuardFacts.
Import GoString GoStringFacts GoUnicode.

Lemma byteAt_ascii (s : string) (i : nat) :
  isASCII s = true -> (byteAt s i <? RuneSelf) = true.
Proof.
  revert i. induction s as [|c s IH]; intros i H; [now destruct i|].
  unfold isASCII in H. cbn [allBytes] in H. apply andb_true_iff in H.
  destruct H as [Hc Hs]. destruct i as [|i]; [exact Hc|].
  exact (IH i Hs).
Qed.

Lemma trimSpaceStop_not_empty (c : ascii) (s : string) :
  isASCII (String c s) = true ->
  asciiSpace (byte_val c) = false ->
  forall stop, (0 < stop)%nat -> trimSpaceStop (String c s) stop <> "".
Proof.
  intros Hascii Hc stop. induction stop as [|i IH]; intros Hpos; [lia|].
  cbn [trimSpaceStop].
  pose proof (byteAt_ascii (String c s) i Hascii) as Hlt.
  apply Z.ltb_lt in Hlt.
  replace (RuneSelf <=? byteAt (String c s) i) with false
    by (symmetry; apply Z.leb_gt; exact Hlt).
  destruct (asciiSpace (byteAt (String c s) i)) eqn:Hsp.
  - destruct i as [|i]; [|apply IH; lia].
    change (byteAt (String c s) 0) with (byte_val c) in Hsp. congruence.
  - cbn. discriminate.
Qed.

End GuardFacts.

(** For a line of ASCII bytes the guard of the loop lets the line through
    exactly when it has a byte other than tab, newline, vertical tab, form
    feed, carriage return and space. *)
Theorem ascii_line_is_processed_iff_it_has_text (txt : string) :
  isASCII txt = true ->
  nonBlank txt = negb (allBytes GoUnicode.asciiSpace txt).
Proof.
  unfold nonBlank. induction txt as [|c s IH]; intros H; [reflexivity|].
  pose proof H as H'. unfold isASCII in H'. cbn [allBytes] in H'.
  apply andb_true_iff in H'. destruct H' as [Hc Hs].
  cbn [GoUnicode.TrimSpace allBytes].
  apply Z.ltb_lt in Hc.
  replace (GoUnicode.RuneSelf <=? GoString.byte_val c) with false
    by (symmetry; apply Z.leb_gt; exact Hc).
  destruct (GoUnicode.asciiSpace (GoString.byte_val c)) eqn:Hsp.
  - cbn [andb]. exact (IH Hs).
  - cbn [andb negb].
    pose proof (GuardFacts.trimSpaceStop_not_empty c s H Hsp
                  (String.length (String c s))) as Hne.
    destruct (GoUnicode.trimSpaceStop (String c s) (String.length (String c s)));
      [exfalso; apply Hne; [cbn; lia | reflexivity] | reflexivity].
Qed.

Lemma ascii_line_is_processed_iff_it_has_text_witness :
  isASCII "  hello world  " = true /\
  nonBlank "  hello world  " = negb (allBytes GoUnicode.asciiSpace "  hello world  ").
Proof.
  split; [reflexivity|].
  apply (ascii_line_is_processed_iff_it_has_text "  hello world  ").
  reflexivity.
Defined.

(** The guard of the loop lets a line through exactly when the line has a
    character that is not white space: whatever the bytes of the line,
    [strings.TrimSpace] gives the empty string for the lines whose runes
    are all white space, the empty line among them, and for no other
    line. *)
Theorem guard_skips_exactly_the_whitespace_lines (txt : string) :
  nonBlank txt = negb (forallb GoUnicode.IsSpace (runes txt)).
Proof. exact (BlankFacts.nonBlank_whitespaceOnly txt). Qed.
